(** * Risk importer plugin: bulk risk import pipeline

    A shallow embedding of the risk-importer plugin (field schema registry,
    risk-level matrix, sheet decoding, mapping and validation, duplicate
    detection, transactional import) together with the properties its
    specification states about it and further properties of the code.

    Conventions of the embedding.
    - JavaScript objects used as dictionaries are finite maps ([gmap]) of
      their own properties; where the program reads a property under a
      key that comes from user data, the read goes through [get_prop],
      which also sees the properties every plain object inherits from
      [Object.prototype]; where it writes under such a key, the write goes
      through [assign], which follows the prototype of the object.
    - Texts are the bytes of their UTF-8 encoding.
    - Statements sent to the database run in a state-and-exception monad
      over the tenant's tables and the state of the transaction, which is
      that of a PostgreSQL transaction: an error that the server raises
      for a statement aborts the transaction, every later statement of
      the transaction fails, and its commit is carried out as a rollback.
      A statement may be made to throw by an oracle indexed by the number
      of statements issued so far, which stands for the statements that
      Sequelize refuses to send and for the errors the server raises
      (constraint violations, lost connections). The tables carry no
      constraints of their own. *)

From Stdlib Require Import ZArith String Ascii List Bool Lia Sorted.
From stdpp Require Import base option list gmap strings fin_maps pretty.

Local Open Scope string_scope.
Local Open Scope Z_scope.


(** ** JavaScript values *)

(** The values that flow through the handlers. [VNative path] is a
    built-in function or object of the runtime, reached from a plain
    object by the inherited property names in [path]. *)
Inductive Value : Type :=
| VUndefined
| VNull
| VStr (s : string)
| VNum (n : Z)
| VNative (path : list string).

#[global] Instance Value_eq_dec : EqDecision Value.
Proof. solve_decision. Defined.

(** JavaScript truthiness. *)
Definition truthy (v : Value) : bool :=
  match v with
  | VUndefined | VNull => false
  | VStr s => negb (String.eqb s "")
  | VNum n => negb (n =? 0)
  | VNative _ => true
  end.

(** [v || null] *)
Definition or_null (v : Value) : Value := if truthy v then v else VNull.

(** A computation either completes normally or throws. *)
Inductive Completion (A : Type) : Type :=
| Normal (a : A)
| Throw (msg : string).
Arguments Normal {A} a.
Arguments Throw {A} msg.

Definition cbind {A B} (c : Completion A) (k : A -> Completion B) : Completion B :=
  match c with
  | Normal a => k a
  | Throw e => Throw e
  end.

(** The string-keyed properties every plain object inherits. *)
Definition Object_prototype_keys : list string :=
  [ "constructor"; "__defineGetter__"; "__defineSetter__"; "hasOwnProperty";
    "__lookupGetter__"; "__lookupSetter__"; "isPrototypeOf";
    "propertyIsEnumerable"; "toString"; "valueOf"; "__proto__";
    "toLocaleString" ].

Definition inherited (k : string) : bool :=
  bool_decide (k ∈ Object_prototype_keys).

(** Outcome of reading [o[k]] on a plain object with own properties [o]. *)
Inductive PropRead (A : Type) : Type :=
| Own (a : A)
| Inherited (k : string)
| Absent.
Arguments Own {A} a.
Arguments Inherited {A} k.
Arguments Absent {A}.

Definition get_prop {A} (o : gmap string A) (k : string) : PropRead A :=
  match o !! k with
  | Some a => Own a
  | None => if inherited k then Inherited k else Absent
  end.

(** ** Field schema registry *)

Inductive FieldType : Type := TString | TEnum | TDate.

#[global] Instance FieldType_eq_dec : EqDecision FieldType.
Proof. solve_decision. Defined.

Record FieldDefinition : Type := mkField {
  field : string;
  label : string;
  required : bool;
  type : FieldType;
  options : option (list string)
}.

Definition PROJECT_RISK_FIELDS : list FieldDefinition :=
  [ mkField "risk_name" "Risk name" true TString None;
    mkField "risk_description" "Risk description" true TString None;
    mkField "ai_lifecycle_phase" "AI lifecycle phase" false TEnum
      (Some [ "Problem definition & planning"; "Data collection & processing";
              "Model development & training"; "Model validation & testing";
              "Deployment & integration"; "Monitoring & maintenance";
              "Decommissioning & retirement" ]);
    mkField "risk_category" "Risk category" false TEnum
      (Some [ "Strategic risk"; "Operational risk"; "Compliance risk";
              "Financial risk"; "Cybersecurity risk"; "Reputational risk";
              "Legal risk"; "Technological risk"; "Third-party/vendor risk";
              "Environmental risk"; "Human resources risk"; "Geopolitical risk";
              "Fraud risk"; "Data privacy risk"; "Health and safety risk" ]);
    mkField "impact" "Impact" false TString None;
    mkField "likelihood" "Likelihood" false TEnum
      (Some [ "Rare"; "Unlikely"; "Possible"; "Likely"; "Almost Certain" ]);
    mkField "severity" "Severity" false TEnum
      (Some [ "Negligible"; "Minor"; "Moderate"; "Major"; "Catastrophic" ]);
    mkField "review_notes" "Review notes" false TString None;
    mkField "mitigation_status" "Mitigation status" false TEnum
      (Some [ "Not Started"; "In Progress"; "Completed"; "On Hold";
              "Deferred"; "Canceled"; "Requires review" ]);
    mkField "current_risk_level" "Current risk level" false TEnum
      (Some [ "Very Low risk"; "Low risk"; "Medium risk"; "High risk";
              "Very high risk" ]);
    mkField "deadline" "Deadline" false TDate None;
    mkField "mitigation_plan" "Mitigation plan" false TString None ].

Definition VENDOR_LIKELIHOOD_OPTIONS : list string :=
  [ "Very likely"; "Likely"; "Possible"; "Unlikely"; "Rare" ].

Definition VENDOR_SEVERITY_OPTIONS : list string :=
  [ "Very high"; "High"; "Moderate"; "Low"; "Very low" ].

Definition VENDOR_RISK_FIELDS : list FieldDefinition :=
  [ mkField "risk_description" "Risk description" true TString None;
    mkField "impact_description" "Impact description" false TString None;
    mkField "likelihood" "Likelihood" false TEnum (Some VENDOR_LIKELIHOOD_OPTIONS);
    mkField "risk_severity" "Risk severity" false TEnum (Some VENDOR_SEVERITY_OPTIONS);
    mkField "action_plan" "Action plan" false TString None;
    mkField "action_owner" "Action owner" false TString None ].

(** The rows of the risk matrix, likelihood first, as written in the
    program. *)
Definition RISK_MATRIX_ENTRIES : list (string * list (string * string)) :=
  [ ("Almost Certain",
      [ ("Catastrophic", "Very high risk"); ("Major", "Very high risk");
        ("Moderate", "High risk"); ("Minor", "Medium risk");
        ("Negligible", "Low risk") ]);
    ("Likely",
      [ ("Catastrophic", "Very high risk"); ("Major", "High risk");
        ("Moderate", "High risk"); ("Minor", "Medium risk");
        ("Negligible", "Low risk") ]);
    ("Possible",
      [ ("Catastrophic", "High risk"); ("Major", "High risk");
        ("Moderate", "Medium risk"); ("Minor", "Low risk");
        ("Negligible", "Very low risk") ]);
    ("Unlikely",
      [ ("Catastrophic", "Medium risk"); ("Major", "Medium risk");
        ("Moderate", "Low risk"); ("Minor", "Low risk");
        ("Negligible", "Very low risk") ]);
    ("Rare",
      [ ("Catastrophic", "Low risk"); ("Major", "Low risk");
        ("Moderate", "Very low risk"); ("Minor", "Very low risk");
        ("Negligible", "No risk") ]) ].

Definition RISK_MATRIX : gmap string (gmap string string) :=
  list_to_map (map (fun e => (e.1, list_to_map e.2)) RISK_MATRIX_ENTRIES).

Section Runtime.

(** [native_member k key] is the completion of reading, under [key], a
    property of the built-in that plain objects inherit under the name
    [k]: it is fixed by the JavaScript runtime, not by this program. *)
Variable native_member : string -> Value -> Completion Value.

Definition calculateRiskLevel (likelihood severity : Value) : Completion Value :=
  if negb (truthy likelihood) || negb (truthy severity) then Normal VNull
  else
    match likelihood with
    | VStr l =>
        match get_prop RISK_MATRIX l with
        | Own row =>
            match severity with
            | VStr s =>
                match get_prop row s with
                | Own lab => Normal (or_null (VStr lab))
                | Inherited k => Normal (VNative [k])
                | Absent => Normal VNull
                end
            | _ => Normal VNull
            end
        | Inherited k =>
            cbind (native_member k severity) (fun v => Normal (or_null v))
        | Absent => Normal VNull
        end
    | _ => Normal VNull
    end.

End Runtime.

(** ** File decoder *)

(** A text is held as the bytes of its UTF-8 encoding, so it is empty
    exactly when its length is 0. [trim] removes, at both ends, the white
    space and the line terminators of ECMAScript: U+0009 to U+000D and
    U+0020 (one byte each), U+00A0 (two bytes), U+1680, U+2000 to U+200A,
    U+2028, U+2029, U+202F, U+205F, U+3000 and the byte order mark U+FEFF
    (three bytes each). *)
Definition is_ws (c : ascii) : bool :=
  let n := nat_of_ascii c in
  ((9 <=? n)%nat && (n <=? 13)%nat) || (n =? 32)%nat.

(** The two bytes of U+00A0. *)
Definition is_ws2 (a b : ascii) : bool :=
  (nat_of_ascii a =? 194)%nat && (nat_of_ascii b =? 160)%nat.

(** The three bytes of one of the other white space characters. *)
Definition is_ws3 (a b c : ascii) : bool :=
  let x := nat_of_ascii a in
  let y := nat_of_ascii b in
  let z := nat_of_ascii c in
  ((x =? 225)%nat && (y =? 154)%nat && (z =? 128)%nat)
  || ((x =? 226)%nat && (y =? 128)%nat
      && (((128 <=? z)%nat && (z <=? 138)%nat)
          || (z =? 168)%nat || (z =? 169)%nat || (z =? 175)%nat))
  || ((x =? 226)%nat && (y =? 129)%nat && (z =? 159)%nat)
  || ((x =? 227)%nat && (y =? 128)%nat && (z =? 128)%nat)
  || ((x =? 239)%nat && (y =? 187)%nat && (z =? 191)%nat).

Fixpoint trimStart (s : string) : string :=
  match s with
  | EmptyString => EmptyString
  | String a r =>
      if is_ws a then trimStart r
      else
        match r with
        | EmptyString => s
        | String b r1 =>
            if is_ws2 a b then trimStart r1
            else
              match r1 with
              | EmptyString => s
              | String c r2 => if is_ws3 a b c then trimStart r2 else s
              end
        end
  end.

(** [trimStart] on the reversed text: the bytes of a character come last
    byte first. *)
Fixpoint trimStartRev (s : string) : string :=
  match s with
  | EmptyString => EmptyString
  | String a r =>
      if is_ws a then trimStartRev r
      else
        match r with
        | EmptyString => s
        | String b r1 =>
            if is_ws2 b a then trimStartRev r1
            else
              match r1 with
              | EmptyString => s
              | String c r2 => if is_ws3 c b a then trimStartRev r2 else s
              end
        end
  end.

Definition trimEnd (s : string) : string :=
  String.rev (trimStartRev (String.rev s)).

Definition trim (s : string) : string := trimEnd (trimStart s).

(** A cell of the array-of-arrays that the spreadsheet library returns for
    a sheet: a hole of a sparse array, [null], a text, a number or a
    boolean. A number [n] is held as the text [String(n)], which is all
    the decoder reads of it: ["12"], ["1.5"], ["1e+21"], ["NaN"]. *)
Inductive Cell : Type :=
| CHole
| CNull
| CText (s : string)
| CNum (text : string)
| CBool (b : bool).

(** [!n] for a number: [0], [-0] and [NaN] are falsy, and [String(-0)] is
    ["0"]. *)
Definition falsyNumber (text : string) : bool :=
  String.eqb text "0" || String.eqb text "NaN".

(** [String(h || "").trim()] *)
Definition headerName (h : Cell) : string :=
  match h with
  | CHole | CNull => ""
  | CText s => trim s
  | CNum text => if falsyNumber text then "" else trim text
  | CBool b => if b then "true" else ""
  end.

(** [rawData[0].map(...)]: [map] leaves the holes of a sparse array in
    place. *)
Definition headersOf (row0 : list Cell) : list (option string) :=
  map (fun h => match h with CHole => None | _ => Some (headerName h) end) row0.

(** [String(row[colIndex] ?? "").trim()]; an index past the end of the row
    reads [undefined]. *)
Definition cellText (c : option Cell) : string :=
  match c with
  | None | Some CHole | Some CNull => ""
  | Some (CText s) => trim s
  | Some (CNum text) => trim text
  | Some (CBool b) => if b then "true" else "false"
  end.

(** [o[k] = v] on a plain object, for a text [v]: the assignment to
    [__proto__] reaches the setter of [Object.prototype], which does
    nothing for a value that is no object and not [null]; every other
    inherited property is a writable data property, so the assignment
    creates an own property. *)
Definition set_prop {A} (k : string) (v : A) (o : gmap string A) : gmap string A :=
  if String.eqb k "__proto__" then o else <[k := v]> o.

Record ParsedRow : Type := mkParsedRow {
  pr_rowIndex : Z;
  pr_data : gmap string string
}.

(** [headers.forEach((header, colIndex) => ...)]: [forEach] skips holes. *)
Fixpoint fillData (headers : list (option string)) (colIndex : nat)
    (row : list Cell) (data : gmap string string) : gmap string string :=
  match headers with
  | [] => data
  | None :: hs => fillData hs (S colIndex) row data
  | Some header :: hs =>
      fillData hs (S colIndex) row
        (set_prop header (cellText (row !! colIndex)) data)
  end.

Definition hasContent (r : ParsedRow) : bool :=
  existsb (fun kv => (0 <? String.length kv.2)%nat) (map_to_list (pr_data r)).

Definition parseRows (headers : list (option string)) (body : list (list Cell))
    : list ParsedRow :=
  filter (fun r => hasContent r = true)
    (imap (fun index row =>
             mkParsedRow (Z.of_nat index + 2) (fillData headers 0 row ∅))
          body).

Record ParseData : Type := mkParseData {
  columns : list (option string);
  rowCount : nat;
  preview : list ParsedRow;
  allRows : list ParsedRow
}.

Inductive ParseResponse : Type :=
| ParseFailed (status : Z) (error : string)
| ParseOk (d : ParseData).

(** The decoder of the [/parse] route, from the rows of the first sheet
    on. *)
Definition parseSheet (previewRowCount : nat) (rawData : list (list Cell))
    : ParseResponse :=
  match rawData with
  | [] => ParseFailed 400 "File is empty"
  | row0 :: body =>
      let headers := headersOf row0 in
      let rows := parseRows headers body in
      ParseOk (mkParseData headers (length rows) (take previewRowCount rows) rows)
  end.

(** ** Mapping and validation *)

Record MappingEntry : Type := mkMapping {
  sourceColumn : string;
  targetField : string
}.

Record MappedRow : Type := mkMappedRow {
  mr_rowIndex : Z;
  mr_isValid : bool;
  mr_errors : list string;
  mr_data : gmap string Value
}.

(** Reading a property whose name is fixed in the program text and is not
    one of the inherited names. *)
Definition read (o : gmap string Value) (k : string) : Value :=
  default VUndefined (o !! k).

Definition fieldsFor (riskType : string) : list FieldDefinition :=
  if String.eqb riskType "vendor" then VENDOR_RISK_FIELDS else PROJECT_RISK_FIELDS.

Fixpoint join (sep : string) (l : list string) : string :=
  match l with
  | [] => ""
  | [x] => x
  | x :: r => x ++ sep ++ join sep r
  end.

(** [row.data[m.sourceColumn]] *)
Definition readColumn (data : gmap string string) (col : string) : Value :=
  match get_prop data col with
  | Own s => VStr s
  | Inherited k => VNative [k]
  | Absent => VUndefined
  end.

(** The prototype of the object that collects the mapped fields:
    [Object.prototype] at first, then what a write to [__proto__] made of
    it, [null] or a built-in. *)
Inductive Proto : Type :=
| ProtoObject
| ProtoNull
| ProtoNative (path : list string).

Record MappedObject : Type := mkMappedObject {
  own : gmap string Value;
  proto : Proto
}.

(** The built-in that a plain object inherits under [__proto__] is
    [Object.prototype] itself; under the other names it inherits
    functions. *)
Definition protoOf (path : list string) : Proto :=
  if decide (path = ["__proto__"]) then ProtoObject else ProtoNative path.

(** What a write does on an object that does not own the property and
    inherits from a built-in function: the program is not in strict mode,
    so a write to a property that the chain holds as not writable is
    ignored; a setter is called. *)
Inductive WriteOutcome : Type :=
| Creates
| Ignored
| Throws (msg : string).

(** [name] and [length] of a function, and [prototype] of [Object], are
    not writable; [caller] and [arguments] of [Function.prototype] are
    accessors whose setter throws; everything else that functions hold or
    inherit is writable or absent. *)
Definition function_write (path : list string) (k : string) : WriteOutcome :=
  if bool_decide (k ∈ ["name"; "length"]) then Ignored
  else if bool_decide (k = "prototype") && bool_decide (path = ["constructor"])
  then Ignored
  else if bool_decide (k ∈ ["caller"; "arguments"])
  then Throws "'caller', 'callee', and 'arguments' properties may not be accessed on strict mode functions or the arguments objects for calls to them"
  else Creates.

(** [o[k] = v] on the object that collects the mapped fields. *)
Definition assign (k : string) (v : Value) (o : MappedObject)
    : Completion MappedObject :=
  let created := mkMappedObject (<[k := v]> (own o)) (proto o) in
  match own o !! k with
  | Some _ => Normal created
  | None =>
      if String.eqb k "__proto__" then
        match proto o with
        | ProtoNull => Normal created
        | _ =>
            match v with
            | VNull => Normal (mkMappedObject (own o) ProtoNull)
            | VNative path => Normal (mkMappedObject (own o) (protoOf path))
            | _ => Normal o
            end
        end
      else
        match proto o with
        | ProtoNative path =>
            match function_write path k with
            | Creates => Normal created
            | Ignored => Normal o
            | Throws msg => Throw msg
            end
        | _ => Normal created
        end
  end.

(** [mapping.forEach((m) => { mappedData[m.targetField] = row.data[m.sourceColumn] || null })],
    from the empty object on. *)
Fixpoint mapFields (mapping : list MappingEntry) (data : gmap string string)
    (mappedData : MappedObject) : Completion MappedObject :=
  match mapping with
  | [] => Normal mappedData
  | m :: ms =>
      cbind (assign (targetField m) (or_null (readColumn data (sourceColumn m))) mappedData)
        (fun mappedData' => mapFields ms data mappedData')
  end.

(** The own properties of the mapped data once every entry of the mapping
    is applied; no property when a write throws. *)
Definition applyMapping (mapping : list MappingEntry) (data : gmap string string)
    : gmap string Value :=
  match mapFields mapping data (mkMappedObject ∅ ProtoObject) with
  | Normal mappedData => own mappedData
  | Throw _ => ∅
  end.

Definition requiredErrors (fields : list FieldDefinition)
    (mappedData : gmap string Value) : list string :=
  let requiredFields := map field (filter (fun f => required f = true) fields) in
  flat_map
    (fun fname =>
       if truthy (read mappedData fname) then []
       else
         let lbl :=
           match find (fun f => String.eqb (field f) fname) fields with
           | Some fieldDef => if String.eqb (label fieldDef) "" then fname else label fieldDef
           | None => fname
           end in
         [lbl ++ " is required"])
    requiredFields.

(** [field.options.includes(value)] *)
Definition includes (opts : list string) (v : Value) : bool :=
  match v with
  | VStr s => bool_decide (s ∈ opts)
  | _ => false
  end.

Definition enumErrors (fields : list FieldDefinition)
    (mappedData : gmap string Value) : list string :=
  flat_map
    (fun f =>
       let value := read mappedData (field f) in
       match options f with
       | Some opts =>
           if truthy value && negb (includes opts value)
           then [label f ++ " must be one of: " ++ join ", " opts]
           else []
       | None => []
       end)
    (filter (fun f => type f = TEnum) fields).

Section Validation.

Variable native_member : string -> Value -> Completion Value.

(** [parseDate v] is the ISO 8601 text of [new Date(v)], when that date
    is valid. *)
Variable parseDate : Value -> option string.

(** The configuration entry [autoCalculateRiskLevel]. *)
Variable autoCalculate : bool.

Definition dateStep (fields : list FieldDefinition)
    (st : list string * gmap string Value) : list string * gmap string Value :=
  fold_left
    (fun (acc : list string * gmap string Value) f =>
       let value := read acc.2 (field f) in
       if truthy value then
         match parseDate value with
         | None => (app acc.1 [label f ++ " must be a valid date"], acc.2)
         | Some iso => (acc.1, <[field f := VStr iso]> acc.2)
         end
       else acc)
    (filter (fun f => type f = TDate) fields) st.

Definition autoCalcStep (riskType : string) (mappedData : gmap string Value)
    : Completion (gmap string Value) :=
  if autoCalculate then
    if String.eqb riskType "project" then
      cbind (calculateRiskLevel native_member
               (read mappedData "likelihood") (read mappedData "severity"))
        (fun calculatedLevel =>
           Normal (if truthy calculatedLevel
                   then <["risk_level_autocalculated" := calculatedLevel]> mappedData
                   else mappedData))
    else if String.eqb riskType "vendor" then
      cbind (calculateRiskLevel native_member
               (read mappedData "likelihood") (read mappedData "risk_severity"))
        (fun calculatedLevel =>
           Normal (if truthy calculatedLevel
                   then <["risk_level" := calculatedLevel]> mappedData
                   else mappedData))
    else Normal mappedData
  else Normal mappedData.

(** The fields read and written after the mapping ([mappedData[field]]
    for the fields of the schemas, the level fields) are own properties or
    absent from every prototype the object can have, and no function
    holds them as not writable: these reads and writes are reads and
    writes of own properties. *)
Definition validateRow (riskType : string) (mapping : list MappingEntry)
    (row : ParsedRow) : Completion MappedRow :=
  let fields := fieldsFor riskType in
  cbind (mapFields mapping (pr_data row) (mkMappedObject ∅ ProtoObject))
    (fun mappedObject =>
       let mapped := own mappedObject in
       let errors0 := app (requiredErrors fields mapped) (enumErrors fields mapped) in
       let '(errors, dated) := dateStep fields (errors0, mapped) in
       cbind (autoCalcStep riskType dated)
         (fun mappedData =>
            Normal (mkMappedRow (pr_rowIndex row)
                      (bool_decide (length errors = 0%nat)) errors mappedData))).

Fixpoint mapM {A B} (f : A -> Completion B) (l : list A) : Completion (list B) :=
  match l with
  | [] => Normal []
  | a :: r => cbind (f a) (fun b => cbind (mapM f r) (fun bs => Normal (b :: bs)))
  end.

Record ValidateSummary : Type := mkValidateSummary {
  vs_total : nat;
  vs_valid : nat;
  vs_invalid : nat
}.

Inductive ValidateResponse : Type :=
| ValidateFailed (status : Z) (error : string)
| ValidateOk (results : list MappedRow) (summary : ValidateSummary).

Definition validate (rows : list ParsedRow) (mapping : list MappingEntry)
    (riskType : string) : ValidateResponse :=
  match mapM (validateRow riskType mapping) rows with
  | Throw _ => ValidateFailed 500 "Validation failed"
  | Normal results =>
      ValidateOk results
        (mkValidateSummary (length results)
           (length (filter (fun r => mr_isValid r = true) results))
           (length (filter (fun r => mr_isValid r = false) results)))
  end.

End Validation.

(** ** The tenant's store *)

(** A stored value; SQL [NULL] is the absence of the column from the
    record. *)
Inductive SqlVal : Type :=
| SText (s : string)
| SInt (n : Z).

#[global] Instance SqlVal_eq_dec : EqDecision SqlVal.
Proof. solve_decision. Defined.

Record Rec : Type := mkRec {
  rec_id : Z;
  is_deleted : bool;
  rec_cols : gmap string SqlVal
}.

(** The tables of one tenant's schema that the importer reads and writes,
    in a PostgreSQL database. Their declarations are not part of the
    plugin: identifiers are taken to be allocated above every identifier
    in the table, and [is_deleted] to default to [false]. *)
Record DB : Type := mkDB {
  risks : list Rec;
  vendorRisks : list Rec;
  projects_risks : list (Z * Z);
  frameworks_risks : list (Z * Z)
}.

(** The statements the plugin issues. *)
Inductive Stmt : Type :=
| SelectRisk (risk_name : string)
| SelectVendorRisk (risk_description : string) (vendor_id : option Z)
| UpdateRisk (id : Z)
| UpdateVendorRisk (id : Z)
| InsertRisk
| InsertVendorRisk
| InsertProjectRisk (project_id risk_id : Z)
| InsertFrameworkRisk (framework_id risk_id : Z).

(** State of a session with the store: the tables as the session sees
    them, the statements issued so far, and whether a statement of the
    session has failed. In a transaction the failure of a statement aborts
    the transaction: every later statement fails, and the end of the
    transaction discards what the session wrote. *)
Record Session : Type := mkSessionState {
  tables : DB;
  issued : list Stmt;
  aborted : bool
}.

(** A session in which no statement has failed. *)
Definition mkSession (db : DB) (log : list Stmt) : Session :=
  mkSessionState db log false.

(** The message of a statement issued in an aborted transaction. *)
Definition ABORTED : string :=
  "current transaction is aborted, commands ignored until end of transaction block".

(** Why a statement throws. Sequelize refuses to send a statement one of
    whose named parameters has no value: the error is raised before the
    server sees the statement, and the transaction is as it was. An error
    that the server raises (constraint violation, value of a wrong type,
    lost connection) aborts the transaction. *)
Inductive Failure : Type :=
| Refused (message : string)
| Raised (message : string).

Definition Tx (A : Type) : Type := Session -> Completion A * Session.

#[global] Instance Tx_ret : MRet Tx := fun A a st => (Normal a, st).

#[global] Instance Tx_bind : MBind Tx := fun A B k m st =>
  match m st with
  | (Normal a, st') => k a st'
  | (Throw e, st') => (Throw e, st')
  end.

Definition nextId (t : list Rec) : Z :=
  1 + fold_right Z.max 0 (map rec_id t).

Definition matches (col : string) (v : SqlVal) (r : Rec) : bool :=
  bool_decide (rec_cols r !! col = Some v) && negb (is_deleted r).

(** [SELECT ... WHERE col = :v AND is_deleted = false LIMIT 1] *)
Definition selectFirst (p : Rec -> bool) (t : list Rec) : list Rec :=
  take 1 (filter (fun r => p r = true) t).

(** The columns of a new record: parameters bound to [null] leave the
    column [NULL]. *)
Definition colsOf (params : list (string * option SqlVal)) : gmap string SqlVal :=
  fold_right
    (fun (p : string * option SqlVal) m =>
       match p.2 with Some v => <[p.1 := v]> m | None => m end)
    ∅ params.

(** [SET col = COALESCE(:p, col)] for each parameter. *)
Definition coalesceCols (params : list (string * option SqlVal))
    (cols : gmap string SqlVal) : gmap string SqlVal :=
  fold_left
    (fun m (p : string * option SqlVal) =>
       match p.2 with Some v => <[p.1 := v]> m | None => m end)
    params cols.

(** [SET col = :p] for each parameter. *)
Definition assignCols (params : list (string * option SqlVal))
    (cols : gmap string SqlVal) : gmap string SqlVal :=
  fold_left
    (fun m (p : string * option SqlVal) =>
       match p.2 with Some v => <[p.1 := v]> m | None => delete p.1 m end)
    params cols.

Definition updateWhereId (id : Z) (f : gmap string SqlVal -> gmap string SqlVal)
    (t : list Rec) : list Rec :=
  map (fun r => if rec_id r =? id
                then mkRec (rec_id r) (is_deleted r) (f (rec_cols r))
                else r) t.

(** ** Import requests *)

(** A validated row as the request body carries it: a property of [data]
    that is missing or [null] is absent from the map, the others are
    texts; [errors] is [None] when the row carries no array of errors. *)
Record ValidatedRow : Type := mkValidatedRow {
  rowIndex : Z;
  isValid : bool;
  errors : option (list string);
  data : gmap string string
}.

Record LinkTo : Type := mkLinkTo {
  lt_type : option string;
  lt_id : option Z
}.

Record ImportOutcome : Type := mkOutcome {
  o_rowIndex : Z;
  o_success : bool;
  o_action : string;
  o_riskId : option Z;
  o_error : option string
}.

(** The text of [riskData.f] when it is truthy: a missing, [null] or empty
    text is not. *)
Definition truthyText (d : gmap string string) (f : string) : option string :=
  match d !! f with
  | Some s => if String.eqb s "" then None else Some s
  | None => None
  end.

(** [riskData.f || null] *)
Definition orNull (d : gmap string string) (f : string) : option SqlVal :=
  SText <$> truthyText d f.

(** [riskData.f || dflt] *)
Definition orDefault (d : gmap string string) (f dflt : string) : option SqlVal :=
  Some (SText (default dflt (truthyText d f))).

(** [riskData.f ? `{${riskData.f}}` : dflt] *)
Definition braced (d : gmap string string) (f : string) : option string :=
  (fun c => "{" ++ c ++ "}") <$> truthyText d f.

(** [riskData.f] bound as it is. *)
Definition raw (d : gmap string string) (f : string) : option SqlVal :=
  SText <$> d !! f.

(** [!!x] for a number. *)
Definition truthyId (i : option Z) : bool :=
  match i with
  | Some n => negb (n =? 0)
  | None => false
  end.

(** [linkTo?.type === t && linkTo.id] *)
Definition linkedAs (t : string) (linkTo : option LinkTo) : option Z :=
  match linkTo with
  | Some l =>
      if bool_decide (lt_type l = Some t) && truthyId (lt_id l) then lt_id l else None
  | None => None
  end.

Section Importer.

(** [fails n] is the failure of the statement issued when [n] statements
    were issued before it, if that statement throws of its own. A run
    issues its statements in a fixed order, so every way in which the
    statements of a run can fail is one such oracle. *)
Variable fails : nat -> option Failure.

(** The reading of the clock, as ISO 8601 text. *)
Variable now : string.

(** Issue a statement. A statement that is refused throws and changes
    nothing. A statement that is sent in an aborted transaction throws
    without running. Otherwise it throws the error that the server raises,
    leaving the tables as they are and the transaction aborted, or it
    runs. *)
Definition query {A} (q : Stmt) (run : DB -> A * DB) : Tx A := fun st =>
  let log := (issued st ++ [q])%list in
  match fails (length (issued st)) with
  | Some (Refused message) =>
      (Throw message, mkSessionState (tables st) log (aborted st))
  | Some (Raised message) =>
      (Throw (if aborted st then ABORTED else message),
       mkSessionState (tables st) log true)
  | None =>
      if aborted st then (Throw ABORTED, mkSessionState (tables st) log true)
      else let '(a, db') := run (tables st) in
           (Normal a, mkSessionState db' log false)
  end.

Definition selectRisk (risk_name : string) : Tx (list Rec) :=
  query (SelectRisk risk_name)
    (fun db => (selectFirst (matches "risk_name" (SText risk_name)) (risks db), db)).

Definition selectVendorRisk (risk_description : string) (vendor_id : option Z)
    : Tx (list Rec) :=
  query (SelectVendorRisk risk_description vendor_id)
    (fun db =>
       (selectFirst
          (fun r => matches "risk_description" (SText risk_description) r
                    && match vendor_id with
                       | Some v => bool_decide (rec_cols r !! "vendor_id" = Some (SInt v))
                       | None => true
                       end)
          (vendorRisks db), db)).

Definition projectUpdateParams (riskData : gmap string string)
    : list (string * option SqlVal) :=
  [ ("ai_lifecycle_phase", orNull riskData "ai_lifecycle_phase");
    ("risk_description", orNull riskData "risk_description");
    ("risk_category", SText <$> braced riskData "risk_category");
    ("impact", orNull riskData "impact");
    ("likelihood", orNull riskData "likelihood");
    ("severity", orNull riskData "severity");
    ("risk_level_autocalculated", orNull riskData "risk_level_autocalculated");
    ("mitigation_status", orNull riskData "mitigation_status");
    ("current_risk_level", orNull riskData "current_risk_level");
    ("mitigation_plan", orNull riskData "mitigation_plan") ].

Definition updateRisk (id : Z) (riskData : gmap string string) : Tx unit :=
  query (UpdateRisk id)
    (fun db =>
       (tt, mkDB (updateWhereId id
                    (fun cols => <["updated_at" := SText now]>
                                   (coalesceCols (projectUpdateParams riskData) cols))
                    (risks db))
                 (vendorRisks db) (projects_risks db) (frameworks_risks db))).

Definition projectInsertParams (riskData : gmap string string)
    : list (string * option SqlVal) :=
  [ ("risk_name", raw riskData "risk_name");
    ("ai_lifecycle_phase",
      orDefault riskData "ai_lifecycle_phase" "Problem definition & planning");
    ("risk_description", raw riskData "risk_description");
    ("risk_category",
      Some (SText (default "{Operational risk}" (braced riskData "risk_category"))));
    ("impact", orDefault riskData "impact" "To be assessed");
    ("assessment_mapping", Some (SText ""));
    ("controls_mapping", Some (SText ""));
    ("likelihood", orDefault riskData "likelihood" "Possible");
    ("severity", orDefault riskData "severity" "Moderate");
    ("risk_level_autocalculated",
      orDefault riskData "risk_level_autocalculated" "Medium risk");
    ("review_notes", orNull riskData "review_notes");
    ("mitigation_status", orDefault riskData "mitigation_status" "Not Started");
    ("current_risk_level", orDefault riskData "current_risk_level" "Medium risk");
    ("deadline", orDefault riskData "deadline" now);
    ("mitigation_plan", orDefault riskData "mitigation_plan" "To be defined");
    ("implementation_strategy", Some (SText ""));
    ("mitigation_evidence_document", Some (SText ""));
    ("likelihood_mitigation", Some (SText "Possible"));
    ("risk_severity", Some (SText "Moderate"));
    ("final_risk_level", Some (SText ""));
    ("approval_status", Some (SText "Pending"));
    ("date_of_assessment", Some (SText now)) ].

(** [INSERT INTO risks (...) VALUES (...) RETURNING id] *)
Definition insertRisk (riskData : gmap string string) : Tx Z :=
  query InsertRisk
    (fun db =>
       let id := nextId (risks db) in
       (id, mkDB (risks db ++ [mkRec id false (colsOf (projectInsertParams riskData))])
                 (vendorRisks db) (projects_risks db) (frameworks_risks db))).

Definition insertProjectRisk (project_id risk_id : Z) : Tx unit :=
  query (InsertProjectRisk project_id risk_id)
    (fun db =>
       (tt, mkDB (risks db) (vendorRisks db)
                 (projects_risks db ++ [(project_id, risk_id)]) (frameworks_risks db))).

Definition insertFrameworkRisk (framework_id risk_id : Z) : Tx unit :=
  query (InsertFrameworkRisk framework_id risk_id)
    (fun db =>
       (tt, mkDB (risks db) (vendorRisks db)
                 (projects_risks db) (frameworks_risks db ++ [(framework_id, risk_id)]))).

Definition vendorUpdateParams (riskData : gmap string string)
    : list (string * option SqlVal) :=
  [ ("impact_description", orNull riskData "impact_description");
    ("likelihood", orNull riskData "likelihood");
    ("risk_severity", orNull riskData "risk_severity");
    ("action_plan", orNull riskData "action_plan");
    ("action_owner", orNull riskData "action_owner");
    ("risk_level", orNull riskData "risk_level") ].

Definition updateVendorRisk (id : Z) (riskData : gmap string string) : Tx unit :=
  query (UpdateVendorRisk id)
    (fun db =>
       (tt, mkDB (risks db)
                 (updateWhereId id
                    (fun cols => <["updated_at" := SText now]>
                                   (assignCols (vendorUpdateParams riskData) cols))
                    (vendorRisks db))
                 (projects_risks db) (frameworks_risks db))).

Definition vendorInsertParams (vendor_id : option Z) (riskData : gmap string string)
    : list (string * option SqlVal) :=
  [ ("vendor_id", SInt <$> vendor_id);
    ("risk_description", raw riskData "risk_description");
    ("impact_description", orNull riskData "impact_description");
    ("likelihood", orNull riskData "likelihood");
    ("risk_severity", orNull riskData "risk_severity");
    ("action_plan", orNull riskData "action_plan");
    ("action_owner", orNull riskData "action_owner");
    ("risk_level", orNull riskData "risk_level") ].

Definition insertVendorRisk (vendor_id : option Z) (riskData : gmap string string)
    : Tx Z :=
  query InsertVendorRisk
    (fun db =>
       let id := nextId (vendorRisks db) in
       (id, mkDB (risks db)
                 (vendorRisks db ++ [mkRec id false (colsOf (vendorInsertParams vendor_id riskData))])
                 (projects_risks db) (frameworks_risks db))).

(** *** Processing of one row *)

Definition errorOutcome (row : ValidatedRow) (msg : string) : ImportOutcome :=
  mkOutcome (rowIndex row) false "error" None (Some msg).

Definition createProjectRisk (linkTo : option LinkTo) (row : ValidatedRow)
    : Tx ImportOutcome :=
  newRiskId ← insertRisk (data row);
  _ ← match linkedAs "project" linkTo with
      | Some project_id => insertProjectRisk project_id newRiskId
      | None => mret tt
      end;
  _ ← match linkedAs "framework" linkTo with
      | Some framework_id => insertFrameworkRisk framework_id newRiskId
      | None => mret tt
      end;
  mret (mkOutcome (rowIndex row) true "created" (Some newRiskId) None).

(** The natural key an [overwrite] looks up: the text of the key field
    when the action is [overwrite] and the text is truthy. *)
Definition overwriteKey (duplicateAction : string) (riskData : gmap string string)
    (keyField : string) : option string :=
  if String.eqb duplicateAction "overwrite" then truthyText riskData keyField else None.

Definition importProjectRow (duplicateAction : string) (linkTo : option LinkTo)
    (row : ValidatedRow) : Tx ImportOutcome :=
  let riskData := data row in
  match overwriteKey duplicateAction riskData "risk_name" with
  | Some risk_name =>
      existingResult ← selectRisk risk_name;
      match existingResult with
      | existing :: _ =>
          let existingId := rec_id existing in
          _ ← updateRisk existingId riskData;
          mret (mkOutcome (rowIndex row) true "overwritten" (Some existingId) None)
      | [] => createProjectRisk linkTo row
      end
  | None => createProjectRisk linkTo row
  end.

Definition createVendorRisk (vendor_id : Z) (row : ValidatedRow) : Tx ImportOutcome :=
  newRiskId ← insertVendorRisk (Some vendor_id) (data row);
  mret (mkOutcome (rowIndex row) true "created" (Some newRiskId) None).

Definition importVendorRow (duplicateAction : string) (linkTo : option LinkTo)
    (row : ValidatedRow) : Tx ImportOutcome :=
  let riskData := data row in
  match linkedAs "vendor" linkTo with
  | None => mret (errorOutcome row "Vendor must be selected for vendor risk import")
  | Some vendor_id =>
      match overwriteKey duplicateAction riskData "risk_description" with
      | Some risk_description =>
          existingResult ← selectVendorRisk risk_description (Some vendor_id);
          match existingResult with
          | existing :: _ =>
              let existingId := rec_id existing in
              _ ← updateVendorRisk existingId riskData;
              mret (mkOutcome (rowIndex row) true "overwritten" (Some existingId) None)
          | [] => createVendorRisk vendor_id row
          end
      | None => createVendorRisk vendor_id row
      end
  end.

(** The body of the [try] block of one row. *)
Definition importRow (riskType duplicateAction : string) (linkTo : option LinkTo)
    (row : ValidatedRow) : Tx ImportOutcome :=
  if String.eqb riskType "project"
  then importProjectRow duplicateAction linkTo row
  else importVendorRow duplicateAction linkTo row.

(** [duplicateActions[row.rowIndex] || "create"] *)
Definition actionFor (duplicateActions : gmap Z string) (row : ValidatedRow) : string :=
  match duplicateActions !! rowIndex row with
  | Some a => if String.eqb a "" then "create" else a
  | None => "create"
  end.

(** The exception that escapes the iteration of a row: the iteration
    dereferences [row.errors] for an invalid row and [duplicateActions]
    for a valid one, both outside the [try] of the row, and throws when
    the body carries none. *)
Definition escapes (duplicateActions : option (gmap Z string)) (row : ValidatedRow)
    : option string :=
  if negb (isValid row) then
    match errors row with
    | Some _ => None
    | None => Some "Cannot read properties of undefined (reading 'join')"
    end
  else
    match duplicateActions with
    | Some _ => None
    | None =>
        Some ("Cannot read properties of undefined (reading '"
              ++ pretty (rowIndex row) ++ "')")
    end.

(** One iteration of the loop over the rows, with its [try]/[catch], for
    a row whose iteration lets no exception escape. *)
Definition processRow (duplicateActions : gmap Z string) (riskType : string)
    (linkTo : option LinkTo) (row : ValidatedRow) (st : Session)
    : ImportOutcome * Session :=
  if negb (isValid row)
  then (errorOutcome row (join "; " (default [] (errors row))), st)
  else
    let duplicateAction := actionFor duplicateActions row in
    if String.eqb duplicateAction "skip"
    then (mkOutcome (rowIndex row) true "skipped" None None, st)
    else
      match importRow riskType duplicateAction linkTo row st with
      | (Normal o, st') => (o, st')
      | (Throw message, st') => (errorOutcome row message, st')
      end.

(** The loop over the rows: it ends with the outcomes of all rows, or
    with the exception that escapes an iteration. *)
Fixpoint processRows (duplicateActions : option (gmap Z string)) (riskType : string)
    (linkTo : option LinkTo) (rows : list ValidatedRow) (st : Session)
    : Completion (list ImportOutcome) * Session :=
  match rows with
  | [] => (Normal [], st)
  | row :: rest =>
      match escapes duplicateActions row with
      | Some message => (Throw message, st)
      | None =>
          let '(o, st1) :=
            processRow (default ∅ duplicateActions) riskType linkTo row st in
          match processRows duplicateActions riskType linkTo rest st1 with
          | (Normal os, st2) => (Normal (o :: os), st2)
          | (Throw message, st2) => (Throw message, st2)
          end
      end
  end.

(** *** The [/import] route *)

(** The request: [duplicateActions] is [None] when the body carries no
    such object. *)
Record ImportRequest : Type := mkImportRequest {
  tenantId : option string;
  validatedRows : list ValidatedRow;
  duplicateActions : option (gmap Z string);
  riskType : string;
  linkTo : option LinkTo
}.

Record ImportSummary : Type := mkImportSummary {
  s_total : nat;
  s_success : nat;
  s_created : nat;
  s_overwritten : nat;
  s_skipped : nat;
  s_errors : nat
}.

Inductive ImportResponse : Type :=
| ImportFailed (status : Z) (error : string)
| ImportOk (results : list ImportOutcome) (summary : ImportSummary).

Definition countAction (a : string) (results : list ImportOutcome) : nat :=
  length (filter (fun r => o_action r = a) results).

Definition summarize (results : list ImportOutcome) : ImportSummary :=
  mkImportSummary (length results)
    (length (filter (fun r => o_success r = true) results))
    (countAction "created" results)
    (countAction "overwritten" results)
    (countAction "skipped" results)
    (countAction "error" results).

(** [!tenantId] *)
Definition noTenant (t : option string) : bool :=
  match t with
  | Some s => String.eqb s ""
  | None => true
  end.

(** The end of a transaction that is asked to commit: the store gets the
    tables of the session, unless a statement of the session failed; then
    the commit is carried out as a rollback, without an error, and the
    store keeps the tables it had. *)
Definition committed (db : DB) (st : Session) : DB :=
  if aborted st then db else tables st.

(** The handler, from the store before the request to the response and
    the store after it. [sequelize] tells whether the plugin context has
    a database handle, [commitFails] whether [transaction.commit()]
    throws. The transaction is taken as started; an exception that
    escapes the loop, and one thrown by the commit, reach the outer
    [catch], which rolls back. *)
Definition importHandler (sequelize : bool) (commitFails : option string)
    (req : ImportRequest) (db : DB) : ImportResponse * DB :=
  if negb sequelize then (ImportFailed 500 "Database not available", db)
  else if noTenant (tenantId req)
  then (ImportFailed 401 "Unauthorized - tenant not found", db)
  else
    match processRows (duplicateActions req) (riskType req) (linkTo req)
            (validatedRows req) (mkSession db []) with
    | (Throw message, _) => (ImportFailed 500 ("Import failed: " ++ message), db)
    | (Normal results, st) =>
        match commitFails with
        | None => (ImportOk results (summarize results), committed db st)
        | Some message => (ImportFailed 500 ("Import failed: " ++ message), db)
        end
    end.

(** *** The [/check-duplicates] route *)

Record DuplicateResult : Type := mkDuplicateResult {
  d_rowIndex : Z;
  existingRiskId : option Z;
  existingRiskName : option string;
  isDuplicate : bool
}.

(** [existingRisk?.col || null] for a text column. *)
Definition textOf (existingRisk : option Rec) (col : string) : option string :=
  match existingRisk with
  | Some r =>
      match rec_cols r !! col with
      | Some (SText s) => if String.eqb s "" then None else Some s
      | _ => None
      end
  | None => None
  end.

Definition lookupExisting (riskType : string) (row : ValidatedRow) : Tx (list Rec) :=
  if String.eqb riskType "project" then
    match truthyText (data row) "risk_name" with
    | Some riskName => selectRisk riskName
    | None => mret []
    end
  else
    match truthyText (data row) "risk_description" with
    | Some riskDescription => selectVendorRisk riskDescription None
    | None => mret []
    end.

Definition checkRow (riskType : string) (row : ValidatedRow) : Tx DuplicateResult :=
  if negb (isValid row)
  then mret (mkDuplicateResult (rowIndex row) None None false)
  else
    result ← lookupExisting riskType row;
    let existingRisk := head result in
    mret (mkDuplicateResult (rowIndex row)
            (match existingRisk with
             | Some r => if rec_id r =? 0 then None else Some (rec_id r)
             | None => None
             end)
            (textOf existingRisk
               (if String.eqb riskType "project" then "risk_name" else "risk_description"))
            (bool_decide (is_Some existingRisk))).

Fixpoint checkRows (riskType : string) (rows : list ValidatedRow)
    : Tx (list DuplicateResult) :=
  match rows with
  | [] => mret []
  | row :: rest =>
      d ← checkRow riskType row;
      ds ← checkRows riskType rest;
      mret (d :: ds)
  end.

Record DuplicateSummary : Type := mkDuplicateSummary {
  ds_total : nat;
  ds_duplicates : nat;
  ds_unique : nat
}.

Inductive CheckResponse : Type :=
| CheckFailed (status : Z) (error : string)
| CheckOk (duplicates : list DuplicateResult) (summary : DuplicateSummary).

Definition summarizeDuplicates (duplicates : list DuplicateResult) : DuplicateSummary :=
  let duplicateCount := length (filter (fun d => isDuplicate d = true) duplicates) in
  mkDuplicateSummary (length duplicates) duplicateCount
    (length duplicates - duplicateCount).

(** The handler returns its response and the statements it issued. It
    opens no transaction; its first statement that throws ends it. *)
Definition checkDuplicates (sequelize : bool) (tenant : option string)
    (rows : list ValidatedRow) (riskType : string) (db : DB)
    : CheckResponse * list Stmt :=
  if noTenant tenant then (CheckFailed 401 "Unauthorized - tenant not found", [])
  else if negb sequelize then (CheckFailed 500 "Database not available", [])
  else
    match checkRows riskType rows (mkSession db []) with
    | (Normal duplicates, st) =>
        (CheckOk duplicates (summarizeDuplicates duplicates), issued st)
    | (Throw _, st) => (CheckFailed 500 "Duplicate check failed", issued st)
    end.

End Importer.

(** ** Concrete requests and stores *)

Definition noFailure : nat -> option Failure := fun _ => None.

Definition clock : string := "2025-01-01T00:00:00.000Z".

Definition emptyDB : DB := mkDB [] [] [] [].

Definition vendorLink : option LinkTo := Some (mkLinkTo (Some "vendor") (Some 9)).

Definition projectLink : option LinkTo := Some (mkLinkTo (Some "project") (Some 5)).

Definition outageRow : ValidatedRow :=
  mkValidatedRow 2 true (Some [])
    (<["risk_name" := "Server outage"]> (<["risk_description" := "DB unreachable"]> ∅)).

Definition leakRow : ValidatedRow :=
  mkValidatedRow 3 true (Some [])
    (<["risk_name" := "Data leak"]> (<["risk_description" := "PII exposed"]> ∅)).

Definition namelessRow : ValidatedRow :=
  mkValidatedRow 4 false (Some ["Risk name is required"])
    (<["risk_description" := "No name"]> ∅).

Definition ledgerRequest : ImportRequest :=
  mkImportRequest (Some "tenant_a") [outageRow; leakRow; namelessRow]
    (Some (<[3 := "skip"]> ∅)) "project" projectLink.

Definition twoRowRequest : ImportRequest :=
  mkImportRequest (Some "tenant_a") [outageRow; leakRow] (Some ∅) "project" None.


(** The second statement of the session violates a constraint; no other
    statement fails of its own. *)
Definition secondFails : nat -> option Failure := fun n =>
  match n with
  | 1%nat => Some (Raised "duplicate key value violates unique constraint")
  | _ => None
  end.

(** The second statement of the session is refused; no other statement
    fails of its own. *)
Definition secondRefused : nat -> option Failure := fun n =>
  match n with
  | 1%nat => Some (Refused "Named parameter has no value in the given object.")
  | _ => None
  end.

Definition auditRow : ValidatedRow :=
  mkValidatedRow 5 true (Some [])
    (<["risk_name" := "Audit gap"]> (<["risk_description" := "No audit trail"]> ∅)).

Definition threeRowRequest : ImportRequest :=
  mkImportRequest (Some "tenant_a") [outageRow; leakRow; auditRow] (Some ∅) "project" None.

(** A store that holds one project risk and one risk of vendor 9. *)
Definition smallDB : DB :=
  mkDB
    [ mkRec 1 false
        (<["risk_name" := SText "Data leak"]>
           (<["impact" := SText "Severe"]> ∅)) ]
    [ mkRec 3 false
        (<["risk_description" := SText "Late delivery"]>
           (<["vendor_id" := SInt 9]>
              (<["action_plan" := SText "Renegotiate the contract"]> ∅))) ]
    [] [].

(** A row for the stored risk of vendor 9 that maps a likelihood and no
    action plan. *)
Definition lateRow : ValidatedRow :=
  mkValidatedRow 2 true (Some [])
    (<["risk_description" := "Late delivery"]> (<["likelihood" := "Likely"]> ∅)).

Definition lateRequest : ImportRequest :=
  mkImportRequest (Some "tenant_a") [lateRow] (Some (<[2 := "overwrite"]> ∅)) "vendor"
    vendorLink.

(** ** Vocabulary of the properties *)

(** The link target is no vendor: it is absent, or its identifier is
    falsy, or its type is not ["vendor"]. *)
Definition noVendorSelected (linkTo : option LinkTo) : Prop :=
  match linkTo with
  | None => True
  | Some l => truthyId (lt_id l) = false \/ lt_type l <> Some "vendor"
  end.

(** The outcome [o] is one the importer can record for [row]. *)
Definition outcomeFor (row : ValidatedRow) (o : ImportOutcome) : Prop :=
  o_rowIndex o = rowIndex row /\
  ((o_success o = true /\
    (o_action o = "created" \/ o_action o = "overwritten" \/ o_action o = "skipped"))
   \/ (o_success o = false /\ o_action o = "error")).

(** The actions an outcome can carry. *)
Definition ACTIONS : list string := ["created"; "overwritten"; "skipped"; "error"].

(** The table of risks of a risk type. *)
Definition riskTable (riskType : string) (db : DB) : list Rec :=
  if String.eqb riskType "project" then risks db else vendorRisks db.

(** The row selected by the vendor lookup of the import: same description,
    same vendor, not deleted. *)
Definition vendorMatch (risk_description : string) (vendor_id : Z) (r : Rec) : bool :=
  matches "risk_description" (SText risk_description) r
  && bool_decide (rec_cols r !! "vendor_id" = Some (SInt vendor_id)).

(** No stored record matches the natural key of [row]: the risk name for
    project risks, the risk description within the selected vendor for
    vendor risks. A row without a key matches nothing. *)
Definition noExistingMatch (riskType : string) (linkTo : option LinkTo)
    (row : ValidatedRow) (db : DB) : bool :=
  if String.eqb riskType "project" then
    match truthyText (data row) "risk_name" with
    | Some k => forallb (fun r => negb (matches "risk_name" (SText k) r)) (risks db)
    | None => true
    end
  else
    match linkedAs "vendor" linkTo with
    | Some vendor_id =>
        match truthyText (data row) "risk_description" with
        | Some k => forallb (fun r => negb (vendorMatch k vendor_id r)) (vendorRisks db)
        | None => true
        end
    | None => false
    end.

(** The lookup that the duplicate check issues for a row: none for an
    invalid row or a row without a key. *)
Definition lookupOf (riskType : string) (row : ValidatedRow) : list Stmt :=
  if isValid row then
    if String.eqb riskType "project" then
      match truthyText (data row) "risk_name" with
      | Some k => [SelectRisk k]
      | None => []
      end
    else
      match truthyText (data row) "risk_description" with
      | Some k => [SelectVendorRisk k None]
      | None => []
      end
  else [].

(** What the duplicate check answers for [row]. *)
Definition passedThrough (row : ValidatedRow) (d : DuplicateResult) : Prop :=
  d_rowIndex d = rowIndex row
  /\ (isValid row = false -> d = mkDuplicateResult (rowIndex row) None None false).

(** A mapped value that passes the enum check of a field: empty, or one
    of the options. *)
Definition emptyOrOption (opts : list string) (v : Value) : bool :=
  negb (truthy v) || includes opts v.

(** The level the matrix holds for a pair of the vendor vocabularies, as
    the specification lists them. *)
Definition vendorAutoLevel (likelihood severity : Value) : option string :=
  if decide (severity = VStr "Moderate") then
    if decide (likelihood = VStr "Likely") then Some "High risk"
    else if decide (likelihood = VStr "Possible") then Some "Medium risk"
    else if decide (likelihood = VStr "Unlikely") then Some "Low risk"
    else if decide (likelihood = VStr "Rare") then Some "Very low risk"
    else None
  else None.

Definition outageSheet : list (list Cell) :=
  [ [CText "Risk name"; CText "Risk description"];
    [CText "Server outage"; CText "DB unreachable"] ].

Definition identityMapping : list MappingEntry :=
  [ mkMapping "Risk name" "risk_name";
    mkMapping "Risk description" "risk_description" ].

(** ** Vocabulary of the further properties *)

(** The last column, counted from [colIndex], whose header is [k] and
    creates a property. *)
Fixpoint lastColumn (headers : list (option string)) (colIndex : nat) (k : string)
    : option nat :=
  match headers with
  | [] => None
  | h :: hs =>
      match lastColumn hs (S colIndex) k with
      | Some i => Some i
      | None =>
          if bool_decide (h = Some k) && negb (String.eqb k "__proto__")
          then Some colIndex else None
      end
  end.

(** A row of the sheet that the decoder keeps. *)
Definition rowHasContent (headers : list (option string)) (cells : list Cell) : bool :=
  hasContent (mkParsedRow 0 (fillData headers 0 cells ∅)).

(** The bytes of the no-break space U+00A0 and of the byte order mark
    U+FEFF. *)
Definition NBSP : string :=
  String (ascii_of_nat 194) (String (ascii_of_nat 160) EmptyString).

Definition BOM : string :=
  String (ascii_of_nat 239) (String (ascii_of_nat 187)
    (String (ascii_of_nat 191) EmptyString)).

(** A blank data row: every cell of it reads as the empty text, being a
    hole, [null], absent, or a text or number that trimming leaves
    empty. *)
Definition blankRow (cells : list Cell) : Prop :=
  forall i : nat, cellText (cells !! i) = "".

(** Every write of the mapping completes. *)
Definition mappingCompletes (mapping : list MappingEntry) (data : gmap string string)
    : Prop :=
  exists mappedData,
    mapFields mapping data (mkMappedObject ∅ ProtoObject) = Normal mappedData.

(** An entry of the mapping that leaves the prototype of the mapped data
    alone: it targets another field than [__proto__], or the cell it reads
    is a text that is not empty, which the setter of [__proto__] ignores. *)
Definition keepsPrototype (data : gmap string string) (m : MappingEntry) : Prop :=
  targetField m = "__proto__" ->
  exists s, or_null (readColumn data (sourceColumn m)) = VStr s.

(** The last entry of a mapping that targets the field [t]. *)
Fixpoint lastMapping (mapping : list MappingEntry) (t : string) : option MappingEntry :=
  match mapping with
  | [] => None
  | m :: ms =>
      match lastMapping ms t with
      | Some m' => Some m'
      | None => if String.eqb (targetField m) t then Some m else None
      end
  end.

(** A field of the schema is satisfied by the mapped data: it has a value
    when it is required, a value among its options when it is an enum with
    a value, a value that parses as a date when it is a date with a
    value. *)
Definition requiredOk (mappedData : gmap string Value) (f : FieldDefinition) : bool :=
  negb (required f) || truthy (read mappedData (field f)).

Definition enumOk (mappedData : gmap string Value) (f : FieldDefinition) : bool :=
  match type f, options f with
  | TEnum, Some opts =>
      negb (truthy (read mappedData (field f))) || includes opts (read mappedData (field f))
  | _, _ => true
  end.

Definition dateOk (parseDate : Value -> option string) (mappedData : gmap string Value)
    (f : FieldDefinition) : bool :=
  match type f with
  | TDate =>
      negb (truthy (read mappedData (field f)))
      || bool_decide (is_Some (parseDate (read mappedData (field f))))
  | _ => true
  end.

Definition schemaOk (parseDate : Value -> option string) (fields : list FieldDefinition)
    (mappedData : gmap string Value) : bool :=
  forallb (fun f => requiredOk mappedData f && enumOk mappedData f
                    && dateOk parseDate mappedData f) fields.


Definition PROJECT_LIKELIHOOD_OPTIONS : list string :=
  ["Rare"; "Unlikely"; "Possible"; "Likely"; "Almost Certain"].

Definition PROJECT_SEVERITY_OPTIONS : list string :=
  ["Negligible"; "Minor"; "Moderate"; "Major"; "Catastrophic"].

(** A runtime whose built-ins have no property, and a clock that parses no
    date: the examples read neither. *)
Definition noNative : string -> Value -> Completion Value :=
  fun _ _ => Normal VUndefined.

Definition noDate : Value -> option string := fun _ => None.

Definition outageParsed : ParsedRow :=
  mkParsedRow 2
    (<["Risk name" := "Server outage"]> (<["Risk description" := "DB unreachable"]> ∅)).

Definition outageMapped : MappedRow :=
  mkMappedRow 2 true []
    (<["risk_name" := VStr "Server outage"]>
       (<["risk_description" := VStr "DB unreachable"]> ∅)).

Definition ratedParsed : ParsedRow :=
  mkParsedRow 2
    (<["Risk name" := "Server outage"]>
       (<["Risk description" := "DB unreachable"]>
          (<["Likelihood" := "Almost Certain"]> (<["Severity" := "Catastrophic"]> ∅)))).

Definition ratedMapping : list MappingEntry :=
  [ mkMapping "Risk name" "risk_name";
    mkMapping "Risk description" "risk_description";
    mkMapping "Likelihood" "likelihood";
    mkMapping "Severity" "severity" ].

Definition ratedMapped : MappedRow :=
  mkMappedRow 2 true []
    (<["risk_name" := VStr "Server outage"]>
       (<["risk_description" := VStr "DB unreachable"]>
          (<["likelihood" := VStr "Almost Certain"]>
             (<["severity" := VStr "Catastrophic"]>
                (<["risk_level_autocalculated" := VStr "Very high risk"]> ∅))))).

(** The record [r'] is the record [r] with the same identifier, the same
    soft-delete flag and the same values in the columns [cols]. *)
Definition keepsCols (cols : list string) (r r' : Rec) : Prop :=
  rec_id r' = rec_id r
  /\ is_deleted r' = is_deleted r
  /\ forall c, c ∈ cols -> rec_cols r' !! c = rec_cols r !! c.

(** The table [t'] is the table [t], record by record, followed by new
    records. *)
Definition grows (cols : list string) (t t' : list Rec) : Prop :=
  exists kept added, t' = (kept ++ added)%list /\ Forall2 (keepsCols cols) t kept.

(** The store [db'] holds every record of [db], with its identifier, its
    soft-delete flag and its natural key, and every link of [db]. *)
Definition storeGrows (db db' : DB) : Prop :=
  grows ["risk_name"] (risks db) (risks db')
  /\ grows ["risk_description"; "vendor_id"] (vendorRisks db) (vendorRisks db')
  /\ (exists added, projects_risks db' = (projects_risks db ++ added)%list)
  /\ (exists added, frameworks_risks db' = (frameworks_risks db ++ added)%list).

(** The property [P] of the store survives every statement that writes
    project risks, or vendor risks, whether the statement throws or not. *)
Definition projectStable (P : DB -> Prop) : Prop :=
  (forall fails now id riskData st c st',
     updateRisk fails now id riskData st = (c, st') -> P (tables st) -> P (tables st'))
  /\ (forall fails now riskData st c st',
        insertRisk fails now riskData st = (c, st') -> P (tables st) -> P (tables st'))
  /\ (forall fails project_id risk_id st c st',
        insertProjectRisk fails project_id risk_id st = (c, st') ->
        P (tables st) -> P (tables st'))
  /\ (forall fails framework_id risk_id st c st',
        insertFrameworkRisk fails framework_id risk_id st = (c, st') ->
        P (tables st) -> P (tables st')).

Definition vendorStable (P : DB -> Prop) : Prop :=
  (forall fails now id riskData st c st',
     updateVendorRisk fails now id riskData st = (c, st') -> P (tables st) -> P (tables st'))
  /\ (forall fails vendor_id riskData st c st',
        insertVendorRisk fails vendor_id riskData st = (c, st') ->
        P (tables st) -> P (tables st')).

(** The field that holds the natural key of a risk type in the duplicate
    check. *)
Definition keyField (riskType : string) : string :=
  if String.eqb riskType "project" then "risk_name" else "risk_description".

(** The store holds a record that is not deleted under the key [k]. *)
Definition storedKey (riskType : string) (db : DB) (k : string) : bool :=
  existsb (matches (keyField riskType) (SText k)) (riskTable riskType db).

(** Whether the duplicate check reports a row as a duplicate. *)
Definition duplicateOf (riskType : string) (db : DB) (row : ValidatedRow) : bool :=
  isValid row
  && match truthyText (data row) (keyField riskType) with
     | Some k => storedKey riskType db k
     | None => false
     end.

(** A request that overwrites the stored risk and creates another one. *)
Definition mixedRequest : ImportRequest :=
  mkImportRequest (Some "tenant_a") [outageRow; leakRow] (Some (<[3 := "overwrite"]> ∅))
    "project" None.

(** The link statements that follow the insert of a project risk. *)
Definition linkStmts (linkTo : option LinkTo) (risk_id : Z) : list Stmt :=
  app (match linkedAs "project" linkTo with
       | Some project_id => [InsertProjectRisk project_id risk_id]
       | None => []
       end)
      (match linkedAs "framework" linkTo with
       | Some framework_id => [InsertFrameworkRisk framework_id risk_id]
       | None => []
       end).

(** The statements that create a risk with the identifier [risk_id]. *)
Definition createStmts (riskType : string) (linkTo : option LinkTo) (risk_id : Z)
    : list Stmt :=
  if String.eqb riskType "project"
  then InsertRisk :: linkStmts linkTo risk_id
  else [InsertVendorRisk].

(** The table of a risk type holds a record under the identifier [id]. *)
Definition hasId (riskType : string) (db : DB) (id : Z) : Prop :=
  id ∈ map rec_id (riskTable riskType db).

(** What an outcome says about identifiers: a created or overwritten row
    reports the identifier of a record of [db], the other rows report
    none. *)
Definition reportsStoredId (riskType : string) (db : DB) (o : ImportOutcome) : Prop :=
  match o_riskId o with
  | Some id =>
      (o_action o = "created" \/ o_action o = "overwritten") /\ hasId riskType db id
  | None => o_action o = "skipped" \/ o_action o = "error"
  end.

(** The field under which validation stores the calculated level. *)
Definition levelKey (riskType : string) : string :=
  if String.eqb riskType "project" then "risk_level_autocalculated" else "risk_level".

(** * Properties *)

(** ** Rows that are skipped or refused before any statement *)

Lemma eqb_false_of_neq (a b : string) : a <> b -> String.eqb a b = false.
Proof. intros H. apply String.eqb_neq. exact H. Qed.

(** C8. A valid row whose resolved action is [skip] gets the outcome
    [skipped] with [success = true] and leaves the session, its tables and
    the list of issued statements as they were, whatever the risk type and
    the link target. *)
Theorem skip_is_skipped_and_writes_nothing :
  forall fails now duplicateActions riskType linkTo row st,
    isValid row = true ->
    actionFor duplicateActions row = "skip" ->
    processRow fails now duplicateActions riskType linkTo row st
    = (mkOutcome (rowIndex row) true "skipped" None None, st).
Proof.
  intros fails now das rt lt row st Hvalid Hskip.
  unfold processRow. rewrite Hvalid, Hskip. reflexivity.
Qed.

Lemma skip_is_skipped_witness :
  processRow noFailure clock (<[2 := "skip"]> ∅) "vendor" None outageRow
    (mkSession emptyDB [])
  = (mkOutcome 2 true "skipped" None None, mkSession emptyDB []).
Proof.
  apply (skip_is_skipped_and_writes_nothing noFailure clock (<[2 := "skip"]> ∅)
           "vendor" None outageRow (mkSession emptyDB []));
    vm_compute; reflexivity.
Defined.

Lemma linkedAs_vendor_none (linkTo : option LinkTo) :
  noVendorSelected linkTo -> linkedAs "vendor" linkTo = None.
Proof.
  destruct linkTo as [l|]; simpl; [|reflexivity].
  intros [Hid | Hty].
  - rewrite Hid, andb_false_r. reflexivity.
  - rewrite bool_decide_eq_false_2 by exact Hty. reflexivity.
Qed.

(** C7. With risk type [vendor], a valid row whose action is not [skip]
    gets the outcome [error] with the message that a vendor must be
    selected whenever the link target is absent, has no identifier or has
    another type; no statement is issued for it, so nothing is inserted or
    updated. *)
Theorem vendor_row_needs_vendor_link :
  forall fails now duplicateActions linkTo row st,
    isValid row = true ->
    actionFor duplicateActions row <> "skip" ->
    noVendorSelected linkTo ->
    processRow fails now duplicateActions "vendor" linkTo row st
    = (mkOutcome (rowIndex row) false "error" None
         (Some "Vendor must be selected for vendor risk import"), st).
Proof.
  intros fails now das lt row st Hvalid Hskip Hlink.
  unfold processRow. rewrite Hvalid. simpl negb. cbv iota.
  rewrite (eqb_false_of_neq _ _ Hskip).
  unfold importRow. change (String.eqb "vendor" "project") with false. cbv iota.
  unfold importVendorRow. rewrite (linkedAs_vendor_none _ Hlink).
  reflexivity.
Qed.

Lemma vendor_row_needs_vendor_link_witness :
  processRow noFailure clock ∅ "vendor" projectLink outageRow (mkSession emptyDB [])
  = (mkOutcome 2 false "error" None
       (Some "Vendor must be selected for vendor risk import"),
     mkSession emptyDB []).
Proof.
  apply (vendor_row_needs_vendor_link noFailure clock ∅ projectLink outageRow
           (mkSession emptyDB [])).
  - reflexivity.
  - vm_compute. discriminate.
  - right. vm_compute. discriminate.
Defined.


(** ** Shape of the outcomes *)

Ltac tx_unfold :=
  unfold importRow, importProjectRow, importVendorRow, createProjectRisk,
    createVendorRisk, selectRisk, selectVendorRisk, updateRisk, updateVendorRisk,
    insertRisk, insertVendorRisk, insertProjectRisk, insertFrameworkRisk, query,
    mbind, Tx_bind, mret, Tx_ret, errorOutcome in *.

Ltac tx_cases :=
  repeat match goal with
         | |- context [match ?x with _ => _ end] => destruct x eqn:?
         | H : (_, _) = (_, _) |- _ => inversion H; subst; clear H
         | H : Normal _ = Normal _ |- _ => inversion H; subst; clear H
         | H : Normal _ = Throw _ |- _ => discriminate H
         | H : Throw _ = Normal _ |- _ => discriminate H
         end.

Lemma importRow_outcome fails now riskType duplicateAction linkTo row st o st' :
  importRow fails now riskType duplicateAction linkTo row st = (Normal o, st') ->
  outcomeFor row o.
Proof.
  tx_unfold. tx_cases; intros H; inversion H; subst; clear H;
    (split; [reflexivity | simpl; auto 6]).
Qed.

Lemma processRow_outcome fails now duplicateActions riskType linkTo row st :
  outcomeFor row (processRow fails now duplicateActions riskType linkTo row st).1.
Proof.
  unfold processRow.
  destruct (isValid row); simpl.
  - destruct (String.eqb (actionFor duplicateActions row) "skip").
    + split; simpl; auto 6.
    + destruct (importRow fails now riskType (actionFor duplicateActions row)
                  linkTo row st) as [[o|msg] st'] eqn:E; simpl.
      * eapply importRow_outcome; eassumption.
      * split; simpl; auto.
  - split; simpl; auto.
Qed.

Lemma processRows_outcomes fails now duplicateActions riskType linkTo rows :
  forall st results st',
    processRows fails now duplicateActions riskType linkTo rows st = (Normal results, st') ->
    Forall2 outcomeFor rows results.
Proof.
  induction rows as [|row rest IH]; intros st results st'; simpl.
  - intros H; inversion H. constructor.
  - destruct (escapes duplicateActions row); [discriminate|].
    pose proof (processRow_outcome fails now (default ∅ duplicateActions) riskType
                  linkTo row st) as Ho.
    destruct (processRow fails now (default ∅ duplicateActions) riskType linkTo row st)
      as [o st1].
    destruct (processRows fails now duplicateActions riskType linkTo rest st1)
      as [[os|message] st2] eqn:Hrest; [|discriminate].
    intros H; inversion H; subst; clear H.
    constructor; [exact Ho | exact (IH _ _ _ Hrest)].
Qed.

Lemma outcomes_rowIndex rows results :
  Forall2 outcomeFor rows results ->
  map o_rowIndex results = map rowIndex rows.
Proof.
  induction 1 as [|row o rows results [Hidx _] _ IH]; simpl; [reflexivity|].
  rewrite Hidx, IH. reflexivity.
Qed.

Lemma outcomes_counts rows results :
  Forall2 outcomeFor rows results ->
  length (filter (fun r => o_success r = true) results)
  = (countAction "created" results + countAction "overwritten" results
     + countAction "skipped" results)%nat
  /\ length results
     = (length (filter (fun r => o_success r = true) results)
        + countAction "error" results)%nat.
Proof.
  unfold countAction.
  induction 1 as [|row o rows results [_ Ho] _ [IH1 IH2]]; simpl; [split; reflexivity|].
  rewrite !filter_cons.
  destruct Ho as [[Hs [Ha | [Ha | Ha]]] | [Hs Ha]];
    rewrite Hs, Ha; simpl;
    repeat (case_decide; try discriminate; try congruence);
    simpl; split; lia.
Qed.

(** C9. An import that commits returns one outcome per input row, in the
    order of the rows and with their row indices; every action is one of
    [created], [overwritten], [skipped], [error]; [success] is true exactly
    when the action is not [error]; the summary has [total] the number of
    rows, [success = created + overwritten + skipped] and
    [total = success + errors]. *)
Theorem import_results_are_a_ledger :
  forall fails now sequelize commitFails req db results summary db',
    importHandler fails now sequelize commitFails req db
    = (ImportOk results summary, db') ->
    map o_rowIndex results = map rowIndex (validatedRows req)
    /\ Forall (fun o => o_action o ∈ ACTIONS
                        /\ (o_success o = true <-> o_action o <> "error")) results
    /\ s_total summary = length (validatedRows req)
    /\ s_success summary
       = (s_created summary + s_overwritten summary + s_skipped summary)%nat
    /\ s_total summary = (s_success summary + s_errors summary)%nat.
Proof.
  intros fails now sequelize commitFails req db results summary db' H.
  unfold importHandler in H.
  destruct (negb sequelize); [discriminate|].
  destruct (noTenant (tenantId req)); [discriminate|].
  destruct (processRows fails now (duplicateActions req) (riskType req)
              (linkTo req) (validatedRows req) (mkSession db []))
    as [[rs|message] st] eqn:Hrows; [|discriminate].
  pose proof (processRows_outcomes _ _ _ _ _ _ _ _ _ Hrows) as HF.
  destruct commitFails; [discriminate|].
  inversion H; subst; clear H.
  pose proof (outcomes_rowIndex _ _ HF) as Hidx.
  pose proof (outcomes_counts _ _ HF) as [Hc1 Hc2].
  split; [exact Hidx|].
  split.
  { clear Hidx Hc1 Hc2 Hrows.
    induction HF as [|row o rows results [_ Ho] _ IH]; constructor; [|exact IH].
    unfold ACTIONS.
    destruct Ho as [[Hs [Ha | [Ha | Ha]]] | [Hs Ha]]; rewrite Hs, Ha;
      (split; [set_solver | split; intros Hq; congruence]). }
  simpl.
  split; [rewrite <- (length_map o_rowIndex), Hidx, length_map; reflexivity|].
  split; assumption.
Qed.

Lemma import_results_are_a_ledger_witness :
  exists results summary db',
    importHandler noFailure clock true None ledgerRequest emptyDB
    = (ImportOk results summary, db')
    /\ map o_rowIndex results = [2; 3; 4]
    /\ s_total summary = 3%nat.
Proof.
  assert (E : importHandler noFailure clock true None ledgerRequest emptyDB
              = (ImportOk
                   [ mkOutcome 2 true "created" (Some 1) None;
                     mkOutcome 3 true "skipped" None None;
                     mkOutcome 4 false "error" None (Some "Risk name is required") ]
                   (mkImportSummary 3 2 1 0 1 1),
                 (importHandler noFailure clock true None ledgerRequest emptyDB).2)).
  { vm_compute. reflexivity. }
  do 3 eexists. split; [exact E|].
  destruct (import_results_are_a_ledger _ _ _ _ _ _ _ _ _ E) as (H1 & _ & H3 & _).
  split; [exact H1 | exact H3].
Defined.


(** ** The transaction *)

Lemma processRows_app fails now duplicateActions riskType linkTo pre post :
  forall st,
    processRows fails now duplicateActions riskType linkTo (pre ++ post) st
    = match processRows fails now duplicateActions riskType linkTo pre st with
      | (Normal os1, st1) =>
          match processRows fails now duplicateActions riskType linkTo post st1 with
          | (Normal os2, st2) => (Normal (os1 ++ os2)%list, st2)
          | (Throw message, st2) => (Throw message, st2)
          end
      | (Throw message, st1) => (Throw message, st1)
      end.
Proof.
  induction pre as [|row rest IH]; intros st; simpl.
  - destruct (processRows fails now duplicateActions riskType linkTo post st)
      as [[os|m] st']; reflexivity.
  - destruct (escapes duplicateActions row); [reflexivity|].
    destruct (processRow fails now (default ∅ duplicateActions) riskType linkTo row st)
      as [o st1].
    rewrite IH.
    destruct (processRows fails now duplicateActions riskType linkTo rest st1)
      as [[os1|m] st2]; [|reflexivity].
    destruct (processRows fails now duplicateActions riskType linkTo post st2)
      as [[os2|m] st3]; reflexivity.
Qed.

Lemma processRow_catches fails now duplicateActions riskType linkTo row st message st' :
  isValid row = true ->
  actionFor duplicateActions row <> "skip" ->
  importRow fails now riskType (actionFor duplicateActions row) linkTo row st
  = (Throw message, st') ->
  processRow fails now duplicateActions riskType linkTo row st
  = (errorOutcome row message, st').
Proof.
  intros Hvalid Hskip Hthrow. unfold processRow.
  rewrite Hvalid, (eqb_false_of_neq _ _ Hskip), Hthrow. reflexivity.
Qed.

(** A statement issued in an aborted transaction throws and runs
    nothing. *)
Lemma query_aborted {A} fails (q : Stmt) (run : DB -> A * DB) st :
  aborted st = true ->
  exists message,
    query fails q run st
    = (Throw message, mkSessionState (tables st) (issued st ++ [q]) true).
Proof.
  intros H. unfold query. rewrite H.
  destruct (fails (length (issued st))) as [[m|m]|]; eexists; reflexivity.
Qed.

(** A statement that does not fail runs in a transaction that is not
    aborted. *)
Lemma query_runs {A} fails (q : Stmt) (run : DB -> A * DB) st :
  aborted st = false ->
  fails (length (issued st)) = None ->
  query fails q run st
  = (Normal (run (tables st)).1,
     mkSessionState (run (tables st)).2 (issued st ++ [q]) false).
Proof.
  intros Hlive Hok. unfold query. rewrite Hlive, Hok.
  destruct (run (tables st)); reflexivity.
Qed.

(** A statement that returns has run, in a transaction that was not
    aborted. *)
Lemma query_returns {A} fails (q : Stmt) (run : DB -> A * DB) st a st' :
  query fails q run st = (Normal a, st') ->
  aborted st = false
  /\ fails (length (issued st)) = None
  /\ a = (run (tables st)).1
  /\ st' = mkSessionState (run (tables st)).2 (issued st ++ [q]) false.
Proof.
  unfold query. destruct (fails (length (issued st))) as [[m|m]|]; try discriminate.
  destruct (aborted st); [discriminate|].
  destruct (run (tables st)). intros H; inversion H. repeat split.
Qed.

(** A statement that throws leaves the tables as they are. *)
Lemma query_throws {A} fails (q : Stmt) (run : DB -> A * DB) st message st' :
  query fails q run st = (Throw message, st') -> tables st' = tables st.
Proof.
  unfold query. destruct (fails (length (issued st))) as [[m|m]|].
  - intros H; inversion H; reflexivity.
  - intros H; inversion H; reflexivity.
  - destruct (aborted st); [intros H; inversion H; reflexivity|].
    destruct (run (tables st)). discriminate.
Qed.

(** In an aborted transaction no row is created or overwritten, and the
    transaction stays aborted. *)
Lemma importRow_aborted fails now riskType duplicateAction linkTo row st :
  aborted st = true ->
  (exists message st',
     importRow fails now riskType duplicateAction linkTo row st = (Throw message, st')
     /\ aborted st' = true)
  \/ (exists message, importRow fails now riskType duplicateAction linkTo row st
                      = (Normal (errorOutcome row message), st)).
Proof.
  intros Hab. unfold importRow. destruct (String.eqb riskType "project").
  - left. unfold importProjectRow, createProjectRisk, selectRisk, insertRisk,
      mbind, Tx_bind.
    destruct (overwriteKey duplicateAction (data row) "risk_name") as [k|];
      match goal with
      | |- context [query ?f ?q ?run st] =>
          destruct (query_aborted f q run st Hab) as [message ->]
      end; eexists _, _; split; reflexivity.
  - unfold importVendorRow.
    destruct (linkedAs "vendor" linkTo) as [vendor_id|];
      [|right; eexists; reflexivity].
    left. unfold createVendorRisk, selectVendorRisk, insertVendorRisk, mbind, Tx_bind.
    destruct (overwriteKey duplicateAction (data row) "risk_description") as [k|];
      match goal with
      | |- context [query ?f ?q ?run st] =>
          destruct (query_aborted f q run st Hab) as [message ->]
      end; eexists _, _; split; reflexivity.
Qed.

Lemma processRow_aborted fails now duplicateActions riskType linkTo row st :
  aborted st = true ->
  aborted (processRow fails now duplicateActions riskType linkTo row st).2 = true
  /\ (o_action (processRow fails now duplicateActions riskType linkTo row st).1 = "error"
      \/ o_action (processRow fails now duplicateActions riskType linkTo row st).1
         = "skipped").
Proof.
  intros Hab. unfold processRow.
  destruct (negb (isValid row)); [split; [exact Hab | left; reflexivity]|].
  destruct (String.eqb (actionFor duplicateActions row) "skip");
    [split; [exact Hab | right; reflexivity]|].
  destruct (importRow_aborted fails now riskType (actionFor duplicateActions row)
              linkTo row st Hab) as [(message & st' & -> & Hab') | (message & ->)].
  - split; [exact Hab' | left; reflexivity].
  - split; [exact Hab | left; reflexivity].
Qed.

Lemma processRows_aborted fails now duplicateActions riskType linkTo rows :
  forall st,
    aborted st = true ->
    Forall (fun r => escapes duplicateActions r = None) rows ->
    exists results st',
      processRows fails now duplicateActions riskType linkTo rows st = (Normal results, st')
      /\ aborted st' = true
      /\ Forall (fun o => o_action o = "error" \/ o_action o = "skipped") results.
Proof.
  induction rows as [|row rest IH]; intros st Hab Hesc; simpl.
  - exists [], st. split; [reflexivity | split; [exact Hab | constructor]].
  - apply Forall_cons_1 in Hesc as [Hrow Hrest]. rewrite Hrow.
    destruct (processRow_aborted fails now (default ∅ duplicateActions) riskType linkTo
                row st Hab) as [Hab1 Ho].
    destruct (processRow fails now (default ∅ duplicateActions) riskType linkTo row st)
      as [o st1]. cbn [fst snd] in *.
    destruct (IH st1 Hab1 Hrest) as (os & st2 & Hrun & Hab2 & Hos).
    rewrite Hrun. exists (o :: os), st2.
    split; [reflexivity | split; [exact Hab2 | constructor; assumption]].
Qed.

(** When the request fails as a whole the store is left as it was, and
    the request fails as a whole only without database handle, without
    tenant, when an exception escapes the loop over the rows or when the
    commit throws. *)
Lemma import_fails_as_a_whole fails now sequelize commitFails req db status error db' :
  importHandler fails now sequelize commitFails req db = (ImportFailed status error, db') ->
  db' = db
  /\ (sequelize = false
      \/ noTenant (tenantId req) = true
      \/ Exists (fun r => escapes (duplicateActions req) r <> None) (validatedRows req)
      \/ commitFails <> None).
Proof.
  unfold importHandler.
  destruct sequelize; cbn [negb];
    [|intros H; inversion H; split; [reflexivity | left; reflexivity]].
  destruct (noTenant (tenantId req));
    [intros H; inversion H; split; [reflexivity | right; left; reflexivity]|].
  destruct (processRows fails now (duplicateActions req) (riskType req) (linkTo req)
              (validatedRows req) (mkSession db [])) as [[results|message] st] eqn:Hrows.
  - destruct commitFails; [|discriminate].
    intros H; inversion H. split; [reflexivity | right; right; right; discriminate].
  - intros H; inversion H. split; [reflexivity|]. right; right; left.
    clear H. revert Hrows. generalize (mkSession db []).
    induction (validatedRows req) as [|row rest IH]; intros st0; simpl; [discriminate|].
    destruct (escapes (duplicateActions req) row) eqn:Hesc.
    + intros _. left. rewrite Hesc. discriminate.
    + destruct (processRow fails now (default ∅ (duplicateActions req)) (riskType req)
                  (linkTo req) row st0) as [o st1].
      destruct (processRows fails now (duplicateActions req) (riskType req) (linkTo req)
                  rest st1) as [[os|m] st2] eqn:Hrest; [discriminate|].
      intros H'; inversion H'; subst. right. exact (IH _ Hrest).
Qed.

(** C1, where the program departs from it. The exception of a row is
    caught and becomes the [error] outcome of that row, and the call
    answers with the outcomes of all rows; but when the exception is an
    error that the server raised for a statement of the row, the
    transaction is aborted. No row after it is created or overwritten,
    whatever it holds, and the commit persists nothing: the store is left
    as it was before the call, without the records of the rows that the
    answer reports as created or overwritten before the failure. *)
Theorem row_failure_aborts_the_import :
  forall fails now req db actions pre row post os1 st1 message st2,
    noTenant (tenantId req) = false ->
    duplicateActions req = Some actions ->
    validatedRows req = (pre ++ row :: post)%list ->
    Forall (fun r => escapes (Some actions) r = None) post ->
    processRows fails now (Some actions) (riskType req) (linkTo req) pre (mkSession db [])
    = (Normal os1, st1) ->
    isValid row = true ->
    actionFor actions row <> "skip" ->
    importRow fails now (riskType req) (actionFor actions row) (linkTo req) row st1
    = (Throw message, st2) ->
    aborted st2 = true ->
    exists os2,
      importHandler fails now true None req db
      = (ImportOk (os1 ++ errorOutcome row message :: os2)
           (summarize (os1 ++ errorOutcome row message :: os2)), db)
      /\ length os2 = length post
      /\ Forall (fun o => o_action o = "error" \/ o_action o = "skipped") os2.
Proof.
  intros fails now req db actions pre row post os1 st1 message st2
         Htenant Hactions Hrows Hesc Hpre Hvalid Hskip Hthrow Hab.
  destruct (processRows_aborted fails now (Some actions) (riskType req) (linkTo req)
              post st2 Hab Hesc) as (os2 & st3 & Hpost & Hab3 & Hos2).
  exists os2. split; [|split; [|exact Hos2]].
  - unfold importHandler. cbn [negb].
    rewrite Htenant, Hactions, Hrows, processRows_app, Hpre.
    cbn [processRows]. unfold escapes at 1. rewrite Hvalid. cbn [negb default].
    unfold id.
    rewrite (processRow_catches _ _ _ _ _ _ _ _ _ Hvalid Hskip Hthrow), Hpost.
    unfold committed. rewrite Hab3. reflexivity.
  - pose proof (processRows_outcomes _ _ _ _ _ _ _ _ _ Hpost) as HF.
    symmetry. eapply Forall2_length. exact HF.
Qed.

Lemma row_failure_aborts_the_import_witness :
  exists os2,
    importHandler secondFails clock true None threeRowRequest emptyDB
    = (ImportOk
         ([mkOutcome 2 true "created" (Some 1) None]
          ++ errorOutcome leakRow "duplicate key value violates unique constraint" :: os2)
         (summarize
            ([mkOutcome 2 true "created" (Some 1) None]
             ++ errorOutcome leakRow "duplicate key value violates unique constraint"
                :: os2)),
       emptyDB)
    /\ os2 = [errorOutcome auditRow ABORTED].
Proof.
  destruct (row_failure_aborts_the_import secondFails clock threeRowRequest emptyDB ∅
              [outageRow] leakRow [auditRow]
              [mkOutcome 2 true "created" (Some 1) None]
              (processRows secondFails clock (Some ∅) "project" None [outageRow]
                 (mkSession emptyDB [])).2
              "duplicate key value violates unique constraint"
              (importRow secondFails clock "project" "create" None leakRow
                 (processRows secondFails clock (Some ∅) "project" None [outageRow]
                    (mkSession emptyDB [])).2).2)
    as (os2 & Hrun & Hlen & Hos2).
  - reflexivity.
  - reflexivity.
  - reflexivity.
  - repeat constructor.
  - vm_compute. reflexivity.
  - reflexivity.
  - intros H; vm_compute in H; discriminate H.
  - vm_compute. reflexivity.
  - vm_compute. reflexivity.
  - exists os2. split; [exact Hrun|].
    assert (E : importHandler secondFails clock true None threeRowRequest emptyDB
                = (ImportOk
                     [ mkOutcome 2 true "created" (Some 1) None;
                       errorOutcome leakRow "duplicate key value violates unique constraint";
                       errorOutcome auditRow ABORTED ]
                     (mkImportSummary 3 1 1 0 0 2), emptyDB))
      by (vm_compute; reflexivity).
    rewrite E in Hrun. inversion Hrun. reflexivity.
Defined.

(** A statement that is refused, not failed by the server, leaves the
    transaction as it was: the row gets its [error] outcome, the rows
    after it are created and the commit persists them with the rows
    before it. *)
Example refused_statement_spares_the_import :
  exists db',
    importHandler secondRefused clock true None threeRowRequest emptyDB
    = (ImportOk
         [ mkOutcome 2 true "created" (Some 1) None;
           errorOutcome leakRow "Named parameter has no value in the given object.";
           mkOutcome 5 true "created" (Some 2) None ]
         (mkImportSummary 3 2 2 0 0 1), db')
    /\ map rec_id (risks db') = [1; 2].
Proof. eexists. split; vm_compute; reflexivity. Qed.

(** ** Overwrite without a match *)

Lemma selectFirst_nil (p : Rec -> bool) (t : list Rec) :
  forallb (fun r => negb (p r)) t = true -> selectFirst p t = [].
Proof.
  intros H. unfold selectFirst.
  replace (filter (fun r => p r = true) t) with (@nil Rec); [reflexivity|].
  symmetry. induction t as [|r t IH]; [reflexivity|].
  simpl in H. apply andb_true_iff in H as [Hr Ht].
  rewrite filter_cons. rewrite decide_False.
  - apply IH. exact Ht.
  - destruct (p r); [discriminate Hr | discriminate].
Qed.

Lemma nextId_above (t : list Rec) :
  forall r, r ∈ t -> rec_id r < nextId t.
Proof.
  unfold nextId. induction t as [|r0 t IH]; intros r Hr.
  - inversion Hr.
  - simpl. apply elem_of_cons in Hr as [-> | Hr]; [lia|].
    specialize (IH r Hr). lia.
Qed.

Lemma nextId_fresh (t : list Rec) : nextId t ∉ map rec_id t.
Proof.
  intros Hin. apply list_elem_of_fmap in Hin as (r & Heq & Hr).
  pose proof (nextId_above t r Hr). lia.
Qed.

Ltac step_ok Hfails :=
  rewrite ?length_app; simpl length;
  rewrite Hfails by lia; simpl.

(** C5. A valid row whose action is [overwrite] and whose natural key
    matches no stored record is created: when the statements issued for
    the row do not throw (the transaction is not aborted and none fails of
    its own), its outcome is [created] with the identifier of a record
    that did not exist before, for both risk types. *)
Theorem overwrite_without_match_creates :
  forall fails now duplicateActions riskType linkTo row st,
    isValid row = true ->
    actionFor duplicateActions row = "overwrite" ->
    aborted st = false ->
    (forall n, (length (issued st) <= n)%nat -> fails n = None) ->
    noExistingMatch riskType linkTo row (tables st) = true ->
    exists newId st',
      processRow fails now duplicateActions riskType linkTo row st
      = (mkOutcome (rowIndex row) true "created" (Some newId) None, st')
      /\ (newId ∉ map rec_id (riskTable riskType (tables st)))
      /\ map rec_id (riskTable riskType (tables st'))
         = (map rec_id (riskTable riskType (tables st)) ++ [newId])%list.
Proof.
  intros fails now das rt lt row st Hvalid Hact Hlive Hfails Hnone.
  unfold processRow. rewrite Hvalid, Hact. simpl negb. cbv iota.
  change (String.eqb "overwrite" "skip") with false. cbv iota.
  unfold noExistingMatch, riskTable, importRow in *.
  destruct (String.eqb rt "project").
  - exists (nextId (risks (tables st))).
    unfold importProjectRow, overwriteKey. rewrite String.eqb_refl.
    assert (Hcreate : forall st1,
               tables st1 = tables st ->
               aborted st1 = false ->
               (length (issued st) <= length (issued st1))%nat ->
               exists st',
                 match createProjectRisk fails now lt row st1 with
                 | (Normal o, st') => (o, st')
                 | (Throw message, st') => (errorOutcome row message, st')
                 end
                 = (mkOutcome (rowIndex row) true "created"
                      (Some (nextId (risks (tables st)))) None, st')
                 /\ map rec_id (risks (tables st'))
                    = (map rec_id (risks (tables st)) ++ [nextId (risks (tables st))])%list).
    { intros st1 Htab Hlive1 Hlen.
      unfold createProjectRisk, insertRisk, insertProjectRisk, insertFrameworkRisk,
        mbind, Tx_bind, mret, Tx_ret.
      rewrite query_runs by (try apply Hfails; assumption).
      cbn [fst snd]. rewrite Htab.
      destruct (linkedAs "project" lt); destruct (linkedAs "framework" lt);
        repeat (rewrite query_runs
                  by (try apply Hfails; cbn [issued aborted];
                      rewrite ?length_app; cbn [length]; try reflexivity; lia);
                cbn [fst snd tables issued]);
        (eexists; split; [reflexivity | cbn [tables risks]; rewrite map_app; reflexivity]). }
    destruct (truthyText (data row) "risk_name") as [k|].
    + unfold selectRisk, mbind, Tx_bind.
      rewrite query_runs by (try apply Hfails; try assumption; lia).
      cbn [fst snd]. rewrite selectFirst_nil by exact Hnone.
      destruct (Hcreate (mkSessionState (tables st) (issued st ++ [SelectRisk k]) false))
        as (st' & Hrun & Hids);
        [reflexivity | reflexivity | cbn [issued]; rewrite length_app; lia |].
      exists st'. split; [exact Hrun|]. split; [apply nextId_fresh | exact Hids].
    + destruct (Hcreate st) as (st' & Hrun & Hids); [reflexivity | exact Hlive | lia |].
      exists st'. split; [exact Hrun|]. split; [apply nextId_fresh | exact Hids].
  - destruct (linkedAs "vendor" lt) as [vendor_id|] eqn:Hlink; [|discriminate Hnone].
    exists (nextId (vendorRisks (tables st))).
    unfold importVendorRow, overwriteKey. rewrite Hlink, String.eqb_refl.
    assert (Hcreate : forall st1,
               tables st1 = tables st ->
               aborted st1 = false ->
               (length (issued st) <= length (issued st1))%nat ->
               exists st',
                 match createVendorRisk fails vendor_id row st1 with
                 | (Normal o, st') => (o, st')
                 | (Throw message, st') => (errorOutcome row message, st')
                 end
                 = (mkOutcome (rowIndex row) true "created"
                      (Some (nextId (vendorRisks (tables st)))) None, st')
                 /\ map rec_id (vendorRisks (tables st'))
                    = (map rec_id (vendorRisks (tables st))
                       ++ [nextId (vendorRisks (tables st))])%list).
    { intros st1 Htab Hlive1 Hlen.
      unfold createVendorRisk, insertVendorRisk, mbind, Tx_bind, mret, Tx_ret.
      rewrite query_runs by (try apply Hfails; assumption).
      cbn [fst snd]. rewrite Htab.
      eexists; split; [reflexivity | cbn [tables vendorRisks]; rewrite map_app; reflexivity]. }
    destruct (truthyText (data row) "risk_description") as [k|].
    + unfold selectVendorRisk, mbind, Tx_bind.
      rewrite query_runs by (try apply Hfails; try assumption; lia).
      cbn [fst snd]. rewrite selectFirst_nil by exact Hnone.
      destruct (Hcreate (mkSessionState (tables st)
                           (issued st ++ [SelectVendorRisk k (Some vendor_id)]) false))
        as (st' & Hrun & Hids);
        [reflexivity | reflexivity | cbn [issued]; rewrite length_app; lia |].
      exists st'. split; [exact Hrun|]. split; [apply nextId_fresh | exact Hids].
    + destruct (Hcreate st) as (st' & Hrun & Hids); [reflexivity | exact Hlive | lia |].
      exists st'. split; [exact Hrun|]. split; [apply nextId_fresh | exact Hids].
Qed.

Lemma overwrite_without_match_creates_witness :
  exists newId st',
    processRow noFailure clock (<[2 := "overwrite"]> ∅) "project" None outageRow
      (mkSession smallDB [])
    = (mkOutcome 2 true "created" (Some newId) None, st')
    /\ (newId ∉ map rec_id (riskTable "project" (tables (mkSession smallDB []))))
    /\ map rec_id (riskTable "project" (tables st'))
       = (map rec_id (riskTable "project" (tables (mkSession smallDB []))) ++ [newId])%list.
Proof.
  apply (overwrite_without_match_creates noFailure clock (<[2 := "overwrite"]> ∅)
           "project" None outageRow (mkSession smallDB []));
    vm_compute; reflexivity.
Defined.


(** ** Duplicate detection *)

Lemma checkRow_result fails riskType row st d st' :
  checkRow fails riskType row st = (Normal d, st') ->
  passedThrough row d
  /\ issued st' = (issued st ++ lookupOf riskType row)%list.
Proof.
  unfold checkRow, lookupOf, lookupExisting, passedThrough.
  destruct (isValid row); simpl.
  - unfold selectRisk, selectVendorRisk, query, mbind, Tx_bind, mret, Tx_ret.
    destruct (String.eqb riskType "project");
      [destruct (truthyText (data row) "risk_name")
      |destruct (truthyText (data row) "risk_description")];
      try (destruct (fails (length (issued st))) as [[m|m]|]; destruct (aborted st));
      intros H; inversion H; subst; clear H; simpl;
      rewrite ?app_nil_r; (split; [split; [reflexivity | discriminate] | reflexivity]).
  - unfold mret, Tx_ret. intros H; inversion H; subst; clear H.
    rewrite app_nil_r. split; [split; [reflexivity | reflexivity] | reflexivity].
Qed.

Lemma checkRows_result fails riskType rows :
  forall st ds st',
    checkRows fails riskType rows st = (Normal ds, st') ->
    Forall2 passedThrough rows ds
    /\ issued st' = (issued st ++ flat_map (lookupOf riskType) rows)%list.
Proof.
  induction rows as [|row rest IH]; intros st ds st'; simpl.
  - unfold mret, Tx_ret. intros H; inversion H; subst.
    rewrite app_nil_r. split; [constructor | reflexivity].
  - unfold mbind, Tx_bind, mret, Tx_ret.
    destruct (checkRow fails riskType row st) as [[d|e] st1] eqn:Hrow; [|discriminate].
    destruct (checkRows fails riskType rest st1) as [[ds1|e] st2] eqn:Hrest; [|discriminate].
    intros H; inversion H; subst; clear H.
    apply checkRow_result in Hrow as [Hd Hlog1].
    apply IH in Hrest as [Hds Hlog2].
    split; [constructor; assumption|].
    rewrite Hlog2, Hlog1, <- app_assoc. reflexivity.
Qed.

Lemma invalid_not_duplicates rows ds :
  Forall2 passedThrough rows ds ->
  (length (filter (fun d => isDuplicate d = true) ds)
   + length (filter (fun r => isValid r = false) rows)
   <= length rows)%nat.
Proof.
  induction 1 as [|row d rows ds [_ Hd] _ IH]; simpl; [lia|].
  rewrite !filter_cons.
  destruct (isValid row) eqn:Hv.
  - repeat case_decide; try discriminate; simpl; lia.
  - rewrite (Hd eq_refl). simpl.
    repeat case_decide; try discriminate; try congruence; simpl; lia.
Qed.

(** C3, as the program has it. Each invalid row is passed through with
    [isDuplicate = false] and without identifier or name, and no lookup
    is issued for it: the statements issued are the lookups of the valid
    rows that have a key. In the summary [duplicates] counts the results
    with [isDuplicate = true] and [unique] is the total number of rows
    minus [duplicates]: invalid rows are counted in [unique], and
    [duplicates + unique] is the number of all rows. *)
Theorem checkDuplicates_counts :
  forall fails sequelize tenant rows riskType db duplicates summary log,
    checkDuplicates fails sequelize tenant rows riskType db
    = (CheckOk duplicates summary, log) ->
    Forall2 passedThrough rows duplicates
    /\ log = flat_map (lookupOf riskType) rows
    /\ ds_total summary = length rows
    /\ ds_duplicates summary
       = length (filter (fun d => isDuplicate d = true) duplicates)
    /\ ds_unique summary = (length rows - ds_duplicates summary)%nat
    /\ (ds_duplicates summary + ds_unique summary = length rows)%nat
    /\ (length (filter (fun r => isValid r = false) rows) <= ds_unique summary)%nat.
Proof.
  intros fails sequelize tenant rows riskType db duplicates summary log H.
  unfold checkDuplicates in H.
  destruct (noTenant tenant); [discriminate|].
  destruct (negb sequelize); [discriminate|].
  destruct (checkRows fails riskType rows (mkSession db [])) as [[ds|e] st] eqn:Hrows;
    [|discriminate].
  inversion H; subst; clear H.
  apply checkRows_result in Hrows as [HF Hlog].
  pose proof (Forall2_length _ _ _ HF) as Hlen.
  pose proof (invalid_not_duplicates _ _ HF) as Hinv.
  simpl in *. rewrite <- Hlen.
  repeat split; try assumption; try reflexivity; lia.
Qed.

Lemma checkDuplicates_counts_witness :
  exists duplicates summary log,
    checkDuplicates noFailure true (Some "tenant_a") [leakRow; namelessRow]
      "project" smallDB
    = (CheckOk duplicates summary, log)
    /\ log = [SelectRisk "Data leak"]
    /\ ds_duplicates summary = 1%nat
    /\ ds_unique summary = 1%nat.
Proof.
  assert (E : checkDuplicates noFailure true (Some "tenant_a") [leakRow; namelessRow]
                "project" smallDB
              = (CheckOk
                   [ mkDuplicateResult 3 (Some 1) (Some "Data leak") true;
                     mkDuplicateResult 4 None None false ]
                   (mkDuplicateSummary 2 1 1), [SelectRisk "Data leak"])).
  { vm_compute. reflexivity. }
  do 3 eexists. split; [exact E|].
  destruct (checkDuplicates_counts _ _ _ _ _ _ _ _ _ E) as (_ & H2 & _ & H4 & H5 & _).
  split; [exact H2 | split; [exact H4 | exact H5]].
Defined.

(** C3 as the specification states it fails: with one invalid row and no
    valid row the summary has [unique = 1], so [duplicates + unique] is
    not the number of valid rows. *)
Lemma invalid_row_counted_unique :
  exists duplicates summary log,
    checkDuplicates noFailure true (Some "tenant_a") [namelessRow] "project" emptyDB
    = (CheckOk duplicates summary, log)
    /\ ds_unique summary = 1%nat
    /\ (ds_duplicates summary + ds_unique summary)%nat
       <> length (filter (fun r => isValid r = true) [namelessRow]).
Proof.
  exists [mkDuplicateResult 4 None None false], (mkDuplicateSummary 1 0 1), [].
  split; [vm_compute; reflexivity|].
  split; [reflexivity|]. vm_compute. discriminate.
Qed.


(** ** The decoder and empty sheets *)

Lemma set_prop_lookup {A} (k k' : string) (v : A) (o : gmap string A) :
  set_prop k v o !! k'
  = if bool_decide (k = k') && negb (String.eqb k' "__proto__") then Some v else o !! k'.
Proof.
  unfold set_prop. destruct (String.eqb k "__proto__") eqn:Ek.
  - apply String.eqb_eq in Ek. subst k.
    destruct (bool_decide_reflect ("__proto__" = k')) as [<-|Hne]; reflexivity.
  - destruct (bool_decide_reflect (k = k')) as [<-|Hne].
    + rewrite Ek. simpl. apply lookup_insert_eq.
    + simpl. apply lookup_insert_ne. exact Hne.
Qed.

Lemma fillData_lookup (headers : list (option string)) (cells : list Cell) (k : string) :
  forall colIndex (data : gmap string string),
    fillData headers colIndex cells data !! k
    = match lastColumn headers colIndex k with
      | Some i => Some (cellText (cells !! i))
      | None => data !! k
      end.
Proof.
  induction headers as [|[header|] hs IH]; intros colIndex data; simpl.
  - reflexivity.
  - rewrite IH. destruct (lastColumn hs (S colIndex) k); [reflexivity|].
    rewrite set_prop_lookup.
    destruct (bool_decide_reflect (header = k)) as [->|Hne].
    + rewrite bool_decide_true by reflexivity.
      destruct (negb (String.eqb k "__proto__")); reflexivity.
    + rewrite bool_decide_false by congruence. reflexivity.
  - rewrite IH. destruct (lastColumn hs (S colIndex) k); reflexivity.
Qed.

Lemma hasContent_iff (r : ParsedRow) :
  hasContent r = true <-> exists k v, pr_data r !! k = Some v /\ v <> "".
Proof.
  unfold hasContent. rewrite existsb_exists. split.
  - intros ([k v] & Hin & Hlen). exists k, v. split.
    + apply elem_of_map_to_list. apply list_elem_of_In. exact Hin.
    + intros ->. discriminate Hlen.
  - intros (k & v & Hkv & Hne). exists (k, v). split.
    + apply list_elem_of_In, elem_of_map_to_list. exact Hkv.
    + destruct v; [congruence | reflexivity].
Qed.

(** The rows come out in the order of the sheet, whatever the offset of
    the first one. *)
Lemma parseRows_sorted_from (headers : list (option string)) (body : list (list Cell)) :
  forall off : nat,
    let rows := filter (fun r => hasContent r = true)
                  (imap (fun index row =>
                           mkParsedRow (Z.of_nat (off + index) + 2)
                             (fillData headers 0 row ∅)) body) in
    StronglySorted Z.lt (map pr_rowIndex rows)
    /\ Forall (fun r => Z.of_nat off + 2 <= pr_rowIndex r) rows
    /\ length rows = length (filter (fun cells => rowHasContent headers cells = true) body).
Proof.
  induction body as [|cells body IH]; intros off; simpl.
  - split; [constructor|]. split; [constructor | reflexivity].
  - rewrite !filter_cons.
    assert (Hshift : imap ((fun index row =>
                              mkParsedRow (Z.of_nat (off + index) + 2)
                                (fillData headers 0 row ∅)) ∘ S) body
                     = imap (fun index row =>
                               mkParsedRow (Z.of_nat (S off + index) + 2)
                                 (fillData headers 0 row ∅)) body).
    { apply imap_ext. intros i x _. simpl. repeat f_equal. lia. }
    rewrite Hshift. destruct (IH (S off)) as (Hs & Hlow & Hlen).
    unfold rowHasContent at 1. simpl.
    change (hasContent (mkParsedRow (Z.of_nat (off + 0) + 2) (fillData headers 0 cells ∅)))
      with (hasContent (mkParsedRow 0 (fillData headers 0 cells ∅))).
    destruct (decide (hasContent (mkParsedRow 0 (fillData headers 0 cells ∅)) = true)).
    + split; [|split].
      * simpl. constructor; [exact Hs|].
        apply List.Forall_forall. intros x Hx. apply in_map_iff in Hx.
        destruct Hx as (r & <- & Hr). rewrite List.Forall_forall in Hlow.
        specialize (Hlow r Hr). lia.
      * constructor; [simpl; lia|].
        eapply Forall_impl; [exact Hlow|]. simpl. intros r Hr. lia.
      * cbn [length]. f_equal. exact Hlen.
    + split; [exact Hs|]. split; [|exact Hlen].
      eapply Forall_impl; [exact Hlow|]. simpl. intros r Hr. lia.
Qed.

(** A blank row has no content, whatever the headers. *)
Lemma blankRow_no_content (headers : list (option string)) (cells : list Cell) :
  blankRow cells -> rowHasContent headers cells = false.
Proof.
  intros Hblank. unfold rowHasContent.
  destruct (hasContent (mkParsedRow 0 (fillData headers 0 cells ∅))) eqn:Hc;
    [|reflexivity].
  apply hasContent_iff in Hc as (k & v & Hkv & Hne). cbn [pr_data] in Hkv.
  rewrite fillData_lookup, lookup_empty in Hkv.
  destruct (lastColumn headers 0 k) as [j|]; [|discriminate].
  inversion Hkv; subst. exfalso. apply Hne. apply Hblank.
Qed.

Lemma filter_nil_iff {A} (p : A -> bool) (l : list A) :
  length (filter (fun x => p x = true) l) = 0%nat <-> Forall (fun x => p x = false) l.
Proof.
  induction l as [|x l IH]; [split; [constructor | reflexivity]|].
  rewrite filter_cons. destruct (p x) eqn:Hx.
  - rewrite decide_True by reflexivity. cbn [length].
    split; [discriminate|]. intros H. apply Forall_cons_1 in H as [H _]. congruence.
  - rewrite decide_False by discriminate. rewrite IH.
    split; [intros H; constructor; assumption | intros H; apply Forall_cons_1 in H; apply H].
Qed.

(** C4, as the program has it. The decoder answers "File is empty" exactly
    for a sheet without any row, that is, without header row. A sheet with
    a header row is decoded successfully whatever follows the header:
    [rowCount] is the number of data rows that have content, so it is 0
    exactly when no data row has content, and in particular when no data
    row follows the header and when every data row is blank. *)
Theorem parseSheet_empty_only_without_header :
  forall (previewRowCount : nat) (rawData : list (list Cell)),
    (parseSheet previewRowCount rawData = ParseFailed 400 "File is empty"
     <-> rawData = [])
    /\ (forall row0 body,
          rawData = row0 :: body ->
          exists d,
            parseSheet previewRowCount rawData = ParseOk d
            /\ columns d = headersOf row0
            /\ rowCount d = length (allRows d)
            /\ rowCount d
               = length (filter (fun cells => rowHasContent (headersOf row0) cells = true)
                           body)
            /\ (rowCount d = 0%nat
                <-> Forall (fun cells => rowHasContent (headersOf row0) cells = false) body)
            /\ (Forall blankRow body -> rowCount d = 0%nat /\ allRows d = [])).
Proof.
  intros previewRowCount rawData. split.
  - destruct rawData as [|row0 body]; [split; reflexivity|].
    split; discriminate.
  - intros row0 body ->. eexists. split; [reflexivity|].
    cbn [columns rowCount allRows].
    destruct (parseRows_sorted_from (headersOf row0) body 0) as (_ & _ & Hlen).
    cbv zeta in Hlen. change (fun index row => mkParsedRow (Z.of_nat (0 + index) + 2)
                                                 (fillData (headersOf row0) 0 row ∅))
      with (fun index row => mkParsedRow (Z.of_nat index + 2)
                               (fillData (headersOf row0) 0 row ∅)) in Hlen.
    fold (parseRows (headersOf row0) body) in Hlen.
    split; [reflexivity|]. split; [reflexivity|]. split; [exact Hlen|].
    split; [rewrite Hlen; apply filter_nil_iff|].
    intros Hblank.
    assert (H0 : length (parseRows (headersOf row0) body) = 0%nat).
    { rewrite Hlen. apply filter_nil_iff.
      eapply Forall_impl; [exact Hblank|]. intros cells Hc.
      apply blankRow_no_content. exact Hc. }
    split; [exact H0|]. destruct (parseRows (headersOf row0) body); [reflexivity|].
    discriminate H0.
Qed.

(** C4 as the specification states it fails: a sheet that holds only its
    header row is decoded successfully with [rowCount = 0], and so is a
    sheet whose data rows are all blank. *)
Lemma header_only_sheet_is_decoded :
  parseSheet 5 [[CText "Risk name"; CText "Risk description"]]
  = ParseOk (mkParseData [Some "Risk name"; Some "Risk description"] 0 [] [])
  /\ parseSheet 5 [[CText "Risk name"; CText "Risk description"]; [CText "  "; CNull]; []]
     = ParseOk (mkParseData [Some "Risk name"; Some "Risk description"] 0 [] [])
  /\ parseSheet 5 [[CText "Risk name"; CText "Risk description"]]
     <> ParseFailed 400 "File is empty".
Proof.
  split; [vm_compute; reflexivity|]. split; [vm_compute; reflexivity|]. discriminate.
Qed.

(** White space is more than the space: a row of no-break spaces and a
    byte order mark is blank, a row with the number [NaN] is not. *)
Example blank_rows_of_other_white_space :
  blankRow [CText (NBSP ++ " " ++ NBSP); CText BOM; CNull]
  /\ parseSheet 5 [ [CText (BOM ++ "Risk name")];
                    [CText (NBSP ++ " " ++ NBSP); CText BOM; CNull];
                    [CNum "NaN"] ]
     = ParseOk (mkParseData [Some "Risk name"] 1
                  [mkParsedRow 3 (<["Risk name" := "NaN"]> ∅)]
                  [mkParsedRow 3 (<["Risk name" := "NaN"]> ∅)]).
Proof.
  split; [|vm_compute; reflexivity].
  intros [|[|[|i]]]; reflexivity.
Qed.

(** ** The risk-level matrix *)

Lemma RISK_MATRIX_lookup (l s lab : string) (row : gmap string string) :
  RISK_MATRIX !! l = Some row -> row !! s = Some lab ->
  exists cells, (l, cells) ∈ RISK_MATRIX_ENTRIES /\ (s, lab) ∈ cells.
Proof.
  intros Hrow Hcell.
  apply elem_of_list_to_map_2 in Hrow.
  apply list_elem_of_fmap in Hrow as ([l' cells] & Heq & Hin).
  simpl in Heq. inversion Heq; subst; clear Heq.
  exists cells. split; [exact Hin|].
  apply elem_of_list_to_map_2. exact Hcell.
Qed.

(** Either input empty or absent: no level. *)
Lemma calculateRiskLevel_empty native_member likelihood severity :
  truthy likelihood = false \/ truthy severity = false ->
  calculateRiskLevel native_member likelihood severity = Normal VNull.
Proof.
  intros [H | H]; unfold calculateRiskLevel; rewrite H; simpl;
    [reflexivity | rewrite orb_true_r; reflexivity].
Qed.

(** A pair of the matrix yields the label of its cell. *)
Lemma calculateRiskLevel_cell native_member l s lab cells :
  (l, cells) ∈ RISK_MATRIX_ENTRIES -> (s, lab) ∈ cells ->
  calculateRiskLevel native_member (VStr l) (VStr s) = Normal (VStr lab).
Proof.
  unfold RISK_MATRIX_ENTRIES. intros Hl Hs.
  repeat (apply elem_of_cons in Hl as [Hl | Hl];
          [inversion Hl; subst; clear Hl;
           repeat (apply elem_of_cons in Hs as [Hs | Hs];
                   [inversion Hs; subst; vm_compute; reflexivity|]);
           inversion Hs|]).
  inversion Hl.
Qed.

(** A pair of texts that is no cell of the matrix and uses none of the
    inherited property names yields no level. *)
Lemma calculateRiskLevel_miss native_member l s :
  inherited l = false -> inherited s = false ->
  (forall cells lab, (l, cells) ∈ RISK_MATRIX_ENTRIES -> (s, lab) ∉ cells) ->
  calculateRiskLevel native_member (VStr l) (VStr s) = Normal VNull.
Proof.
  intros Hl Hs Hmiss. unfold calculateRiskLevel.
  destruct (negb (truthy (VStr l)) || negb (truthy (VStr s))); [reflexivity|].
  unfold get_prop. rewrite Hl.
  destruct (RISK_MATRIX !! l) as [row|] eqn:Hrow; [|reflexivity].
  rewrite Hs.
  destruct (row !! s) as [lab|] eqn:Hcell; [|reflexivity].
  destruct (RISK_MATRIX_lookup _ _ _ _ Hrow Hcell) as (cells & Hin & Hin').
  exfalso. exact (Hmiss cells lab Hin Hin').
Qed.

(** X1. On texts that are not names of inherited properties the lookup is
    the matrix: a pair that is a cell yields the label of the cell, a pair
    that is no cell yields no level, and an empty or absent input yields
    no level whatever the other input is. *)
Theorem calculateRiskLevel_on_ordinary_texts :
  forall native_member,
    (forall likelihood severity,
       truthy likelihood = false \/ truthy severity = false ->
       calculateRiskLevel native_member likelihood severity = Normal VNull)
    /\ (forall l s lab cells,
          (l, cells) ∈ RISK_MATRIX_ENTRIES -> (s, lab) ∈ cells ->
          calculateRiskLevel native_member (VStr l) (VStr s) = Normal (VStr lab))
    /\ (forall l s,
          inherited l = false -> inherited s = false ->
          (forall cells lab, (l, cells) ∈ RISK_MATRIX_ENTRIES -> (s, lab) ∉ cells) ->
          calculateRiskLevel native_member (VStr l) (VStr s) = Normal VNull).
Proof.
  intros native_member. split; [|split].
  - intros likelihood severity. apply calculateRiskLevel_empty.
  - intros l s lab cells. apply calculateRiskLevel_cell.
  - intros l s. apply calculateRiskLevel_miss.
Qed.

Lemma calculateRiskLevel_on_ordinary_texts_witness :
  calculateRiskLevel (fun _ _ => Normal VUndefined) (VStr "Possible") VNull = Normal VNull
  /\ calculateRiskLevel (fun _ _ => Normal VUndefined) (VStr "Possible") (VStr "Major")
     = Normal (VStr "High risk")
  /\ calculateRiskLevel (fun _ _ => Normal VUndefined) (VStr "Possible") (VStr "Low")
     = Normal VNull.
Proof.
  destruct (calculateRiskLevel_on_ordinary_texts (fun _ _ => Normal VUndefined))
    as (Hempty & Hcell & Hmiss).
  split; [apply Hempty; right; reflexivity|]. split.
  - apply (Hcell "Possible" "Major" "High risk"
             [ ("Catastrophic", "High risk"); ("Major", "High risk");
               ("Moderate", "Medium risk"); ("Minor", "Low risk");
               ("Negligible", "Very low risk") ]).
    + unfold RISK_MATRIX_ENTRIES. do 2 right. left.
    + right. left.
  - apply Hmiss; [reflexivity | reflexivity |].
    intros cells lab Hl Hs. unfold RISK_MATRIX_ENTRIES in Hl.
    repeat (apply elem_of_cons in Hl as [Hl | Hl];
            [inversion Hl; subst; clear Hl;
             repeat (apply elem_of_cons in Hs as [Hs | Hs]; [discriminate Hs|]);
             inversion Hs|]).
    inversion Hl.
Defined.

(** C6, where the program departs from it. The likelihood ["Rare"] with
    the severity ["constructor"] is no cell of the matrix, yet the lookup
    does not answer "no level": the row of ["Rare"] is a plain object, the
    read of ["constructor"] on it finds the inherited property, and the
    function returns that built-in. *)
Theorem calculateRiskLevel_returns_inherited_property :
  forall native_member,
    calculateRiskLevel native_member (VStr "Rare") (VStr "constructor")
    = Normal (VNative ["constructor"])
    /\ (forall cells lab,
          ("Rare", cells) ∈ RISK_MATRIX_ENTRIES -> ("constructor", lab) ∉ cells)
    /\ calculateRiskLevel native_member (VStr "Almost Certain") (VStr "Catastrophic")
       = Normal (VStr "Very high risk")
    /\ calculateRiskLevel native_member (VStr "Rare") (VStr "Negligible")
       = Normal (VStr "No risk").
Proof.
  intros native_member. split; [vm_compute; reflexivity|]. split.
  - intros cells lab Hl Hs. unfold RISK_MATRIX_ENTRIES in Hl.
    repeat (apply elem_of_cons in Hl as [Hl | Hl];
            [inversion Hl; subst; clear Hl;
             repeat (apply elem_of_cons in Hs as [Hs | Hs]; [discriminate Hs|]);
             inversion Hs|]).
    inversion Hl.
  - split; vm_compute; reflexivity.
Qed.

(** The same pair reaches the lookup through validation: a project row
    with the severity text ["constructor"] fails the enum check and still
    gets the built-in as its auto-calculated level. *)
Example validateRow_stores_inherited_property :
  forall native_member parseDate,
  exists r,
    validateRow native_member parseDate true "project"
      [ mkMapping "Name" "risk_name"; mkMapping "Description" "risk_description";
        mkMapping "L" "likelihood"; mkMapping "S" "severity" ]
      (mkParsedRow 2
         (<["Name" := "Server outage"]>
            (<["Description" := "DB unreachable"]>
               (<["L" := "Rare"]> (<["S" := "constructor"]> ∅)))))
    = Normal r
    /\ mr_isValid r = false
    /\ mr_data r !! "risk_level_autocalculated" = Some (VNative ["constructor"]).
Proof.
  intros native_member parseDate. eexists. split; [vm_compute; reflexivity|].
  split; vm_compute; reflexivity.
Qed.


(** ** Auto-calculation for vendor risks *)

Ltac enum_value H :=
  match type of H with
  | emptyOrOption _ ?v = true =>
      unfold emptyOrOption, includes in H;
      destruct v as [| |?s|?n|?p]; simpl in H;
      [ | | apply orb_true_iff in H as [H | H];
            [ apply negb_true_iff, negb_false_iff, String.eqb_eq in H; subst
            | apply bool_decide_eq_true_1 in H;
              repeat (apply elem_of_cons in H as [H | H]; [subst|]);
              [..| inversion H] ]
        | rewrite orb_false_r in H;
          apply negb_true_iff, negb_false_iff, Z.eqb_eq in H; subst
        | discriminate H ]
  end.

Lemma calculateRiskLevel_vendor native_member likelihood severity :
  emptyOrOption VENDOR_LIKELIHOOD_OPTIONS likelihood = true ->
  emptyOrOption VENDOR_SEVERITY_OPTIONS severity = true ->
  calculateRiskLevel native_member likelihood severity
  = Normal (match vendorAutoLevel likelihood severity with
            | Some level => VStr level
            | None => VNull
            end).
Proof.
  intros HL HS. unfold VENDOR_LIKELIHOOD_OPTIONS in HL.
  unfold VENDOR_SEVERITY_OPTIONS in HS.
  enum_value HL; enum_value HS; vm_compute; reflexivity.
Qed.

Lemma dateStep_vendor parseDate st :
  dateStep parseDate VENDOR_RISK_FIELDS st = st.
Proof. reflexivity. Qed.

(** When the mapping completes, the mapped data are the own properties of
    the object it filled. *)
Lemma applyMapping_completes mapping data mappedData :
  mapFields mapping data (mkMappedObject ∅ ProtoObject) = Normal mappedData ->
  applyMapping mapping data = own mappedData.
Proof. intros H. unfold applyMapping. rewrite H. reflexivity. Qed.

(** C10, over the vocabulary of the vendor schema. For risk type [vendor]
    with auto-calculation enabled, a mapping that completes and mapped
    values of [likelihood] and [risk_severity] that are empty or options
    of the vendor schema (the values that pass the enum check),
    validation completes and sets [risk_level] exactly when the
    likelihood is one of "Likely", "Possible", "Unlikely", "Rare" and the
    severity is "Moderate"; for every other severity option, for the
    likelihood "Very likely" and for empty values the lookup misses and
    the mapped data are returned as the mapping left them. *)
Theorem vendor_autocalc_only_for_moderate :
  forall native_member parseDate mapping row,
    mappingCompletes mapping (pr_data row) ->
    emptyOrOption VENDOR_LIKELIHOOD_OPTIONS
      (read (applyMapping mapping (pr_data row)) "likelihood") = true ->
    emptyOrOption VENDOR_SEVERITY_OPTIONS
      (read (applyMapping mapping (pr_data row)) "risk_severity") = true ->
    exists r,
      validateRow native_member parseDate true "vendor" mapping row = Normal r
      /\ mr_data r
         = match vendorAutoLevel
                   (read (applyMapping mapping (pr_data row)) "likelihood")
                   (read (applyMapping mapping (pr_data row)) "risk_severity") with
           | Some level => <["risk_level" := VStr level]> (applyMapping mapping (pr_data row))
           | None => applyMapping mapping (pr_data row)
           end.
Proof.
  intros native_member parseDate mapping row [mappedData Hmap] HL HS.
  rewrite (applyMapping_completes _ _ _ Hmap) in *.
  unfold validateRow. rewrite Hmap. cbn [cbind].
  change (fieldsFor "vendor") with VENDOR_RISK_FIELDS.
  rewrite dateStep_vendor. unfold autoCalcStep.
  change (String.eqb "vendor" "project") with false.
  change (String.eqb "vendor" "vendor") with true. cbv iota.
  rewrite (calculateRiskLevel_vendor _ _ _ HL HS).
  set (mapped := own mappedData).
  destruct (vendorAutoLevel (read mapped "likelihood") (read mapped "risk_severity"))
    as [level|] eqn:Hlevel; simpl.
  - assert (Hne : String.eqb level "" = false).
    { unfold vendorAutoLevel in Hlevel.
      repeat case_decide; inversion Hlevel; reflexivity. }
    rewrite Hne. simpl. eexists. split; reflexivity.
  - eexists. split; reflexivity.
Qed.

Lemma vendor_autocalc_only_for_moderate_witness :
  exists r,
    validateRow (fun _ _ => Normal VUndefined) (fun _ => None) true "vendor"
      [ mkMapping "Probability" "likelihood"; mkMapping "Severity" "risk_severity" ]
      (mkParsedRow 2 (<["Probability" := "Rare"]> (<["Severity" := "Moderate"]> ∅)))
    = Normal r
    /\ mr_data r !! "risk_level" = Some (VStr "Very low risk").
Proof.
  destruct (vendor_autocalc_only_for_moderate
              (fun _ _ => Normal VUndefined) (fun _ => None)
              [ mkMapping "Probability" "likelihood"; mkMapping "Severity" "risk_severity" ]
              (mkParsedRow 2 (<["Probability" := "Rare"]> (<["Severity" := "Moderate"]> ∅))))
    as (r & Hrun & Hdata);
    [eexists; vm_compute; reflexivity | vm_compute; reflexivity | vm_compute; reflexivity |].
  exists r. split; [exact Hrun|]. rewrite Hdata. vm_compute. reflexivity.
Defined.

(** C10 as the specification states it fails: the level is not set only
    for the severity "Moderate". The calculation runs whether or not the
    enum check passed, and the matrix is keyed by the severities of
    project risks: a vendor row with the likelihood "Likely" and the
    severity "Major", which is no option of the vendor schema, is invalid
    and still gets the level "High risk". *)
Lemma vendor_level_outside_vocabulary :
  exists r,
    validateRow noNative noDate true "vendor"
      [ mkMapping "Description" "risk_description";
        mkMapping "Probability" "likelihood"; mkMapping "Severity" "risk_severity" ]
      (mkParsedRow 2
         (<["Description" := "Late delivery"]>
            (<["Probability" := "Likely"]> (<["Severity" := "Major"]> ∅))))
    = Normal r
    /\ read (mr_data r) "risk_severity" = VStr "Major"
    /\ ("Major" ∉ VENDOR_SEVERITY_OPTIONS)
    /\ mr_errors r
       = ["Risk severity must be one of: Very high, High, Moderate, Low, Very low"]
    /\ mr_data r !! "risk_level" = Some (VStr "High risk").
Proof.
  eexists. split; [vm_compute; reflexivity|].
  split; [vm_compute; reflexivity|].
  split; [|split; vm_compute; reflexivity].
  apply (bool_decide_unpack _). vm_compute. exact I.
Qed.

(** ** Overwriting an existing record *)

(** [COALESCE]: a column whose parameter is [null] keeps its value. *)
Lemma coalesceCols_keeps params :
  forall cols c,
    (forall v, (c, Some v) ∉ params) ->
    coalesceCols params cols !! c = cols !! c.
Proof.
  unfold coalesceCols.
  induction params as [|[k [v|]] rest IH]; intros cols c Hc; simpl.
  - reflexivity.
  - rewrite IH.
    + apply lookup_insert_ne. intros ->. apply (Hc v). left.
    + intros v' Hin. apply (Hc v'). right. exact Hin.
  - apply IH. intros v' Hin. apply (Hc v'). right. exact Hin.
Qed.

(** A column whose parameter is a value takes it. *)
Lemma coalesceCols_writes params :
  forall cols c v,
    NoDup (map fst params) ->
    (c, Some v) ∈ params ->
    coalesceCols params cols !! c = Some v.
Proof.
  unfold coalesceCols.
  induction params as [|[k o] rest IH]; intros cols c v Hnd Hin; simpl.
  - inversion Hin.
  - simpl in Hnd. apply NoDup_cons in Hnd as [Hk Hnd].
    apply elem_of_cons in Hin as [Heq | Hin].
    + inversion Heq; subst; clear Heq.
      change (fold_left _ rest ?m) with (coalesceCols rest m).
      rewrite coalesceCols_keeps.
      * apply lookup_insert_eq.
      * intros v' Hin. apply Hk. apply list_elem_of_fmap. exists (k, Some v').
        split; [reflexivity | exact Hin].
    + apply IH; assumption.
Qed.

(** The update of the project branch is a partial update: whatever the
    stored columns, a column keeps its value unless the row maps a truthy
    value to it or it is the update time. *)
Lemma updateRisk_is_partial now riskData cols c :
  c <> "updated_at" ->
  (forall v, (c, Some v) ∉ projectUpdateParams riskData) ->
  (<["updated_at" := SText now]> (coalesceCols (projectUpdateParams riskData) cols)) !! c
  = cols !! c.
Proof.
  intros Hc Habsent.
  rewrite lookup_insert_ne by (intros Heq; apply Hc; symmetry; exact Heq).
  apply coalesceCols_keeps. exact Habsent.
Qed.

Lemma assignCols_other params :
  forall cols c,
    c ∉ map fst params ->
    assignCols params cols !! c = cols !! c.
Proof.
  unfold assignCols.
  induction params as [|[k o] rest IH]; intros cols c Hc; simpl; [reflexivity|].
  assert (Hne : k <> c) by (intros ->; apply Hc; left).
  rewrite IH by (intros Hin; apply Hc; right; exact Hin).
  destruct o; simpl; [apply lookup_insert_ne | apply lookup_delete_ne]; exact Hne.
Qed.

(** The update of the vendor branch assigns: a column whose parameter is
    [null] becomes [NULL]. *)
Lemma assignCols_clears params :
  forall cols c,
    NoDup (map fst params) ->
    (c, None) ∈ params ->
    assignCols params cols !! c = None.
Proof.
  induction params as [|[k o] rest IH]; intros cols c Hnd Hin.
  - inversion Hin.
  - simpl in Hnd. apply NoDup_cons in Hnd as [Hk Hnd].
    apply elem_of_cons in Hin as [Heq | Hin].
    + inversion Heq; subst; clear Heq.
      change (assignCols ((k, None) :: rest) cols) with (assignCols rest (delete k cols)).
      rewrite assignCols_other by exact Hk. apply lookup_delete_eq.
    + change (assignCols ((k, o) :: rest) cols)
        with (assignCols rest (match o with
                               | Some v => <[k := v]> cols
                               | None => delete k cols
                               end)).
      apply IH; assumption.
Qed.

(** The project branch, for a row whose risk name is found: the outcome
    is [overwritten] with the identifier of the record found, and the
    record is updated by the partial update. *)
Lemma project_overwrite_updates fails now duplicateActions linkTo row st k existing :
  isValid row = true ->
  actionFor duplicateActions row = "overwrite" ->
  truthyText (data row) "risk_name" = Some k ->
  aborted st = false ->
  fails (length (issued st)) = None ->
  fails (S (length (issued st))) = None ->
  selectFirst (matches "risk_name" (SText k)) (risks (tables st)) = [existing] ->
  exists st',
    processRow fails now duplicateActions "project" linkTo row st
    = (mkOutcome (rowIndex row) true "overwritten" (Some (rec_id existing)) None, st')
    /\ risks (tables st')
       = updateWhereId (rec_id existing)
           (fun cols => <["updated_at" := SText now]>
                          (coalesceCols (projectUpdateParams (data row)) cols))
           (risks (tables st))
    /\ vendorRisks (tables st') = vendorRisks (tables st).
Proof.
  intros Hvalid Hact Hk Hlive Hf0 Hf1 Hsel.
  unfold processRow. rewrite Hvalid, Hact. simpl negb. cbv iota.
  change (String.eqb "overwrite" "skip") with false. cbv iota.
  unfold importRow. change (String.eqb "project" "project") with true. cbv iota.
  unfold importProjectRow, overwriteKey. rewrite String.eqb_refl, Hk.
  unfold selectRisk, updateRisk, mbind, Tx_bind, mret, Tx_ret.
  rewrite query_runs by assumption. cbn [fst snd]. rewrite Hsel.
  rewrite query_runs
    by (cbn [issued aborted]; rewrite ?length_app, ?Nat.add_1_r; cbn [length];
        rewrite ?Nat.add_1_r; try reflexivity; assumption).
  eexists. split; [reflexivity|]. split; reflexivity.
Qed.

(** The vendor branch, for a row whose description is found for the
    selected vendor: the record found is updated by assignment. *)
Lemma vendor_overwrite_assigns fails now duplicateActions linkTo row st vendor_id k existing :
  isValid row = true ->
  actionFor duplicateActions row = "overwrite" ->
  linkedAs "vendor" linkTo = Some vendor_id ->
  truthyText (data row) "risk_description" = Some k ->
  aborted st = false ->
  fails (length (issued st)) = None ->
  fails (S (length (issued st))) = None ->
  selectFirst (vendorMatch k vendor_id) (vendorRisks (tables st)) = [existing] ->
  exists st',
    processRow fails now duplicateActions "vendor" linkTo row st
    = (mkOutcome (rowIndex row) true "overwritten" (Some (rec_id existing)) None, st')
    /\ vendorRisks (tables st')
       = updateWhereId (rec_id existing)
           (fun cols => <["updated_at" := SText now]>
                          (assignCols (vendorUpdateParams (data row)) cols))
           (vendorRisks (tables st))
    /\ risks (tables st') = risks (tables st).
Proof.
  intros Hvalid Hact Hlink Hk Hlive Hf0 Hf1 Hsel.
  unfold processRow. rewrite Hvalid, Hact. simpl negb. cbv iota.
  change (String.eqb "overwrite" "skip") with false. cbv iota.
  unfold importRow. change (String.eqb "vendor" "project") with false. cbv iota.
  unfold importVendorRow, overwriteKey. rewrite Hlink, String.eqb_refl, Hk.
  unfold selectVendorRisk, updateVendorRisk, mbind, Tx_bind, mret, Tx_ret.
  rewrite query_runs by assumption. cbn [fst snd].
  change (selectFirst _ (vendorRisks (tables st)))
    with (selectFirst (vendorMatch k vendor_id) (vendorRisks (tables st))).
  rewrite Hsel.
  rewrite query_runs
    by (cbn [issued aborted]; rewrite ?length_app, ?Nat.add_1_r; cbn [length];
        rewrite ?Nat.add_1_r; try reflexivity; assumption).
  eexists. split; [reflexivity|]. split; reflexivity.
Qed.

(** What an update by identifier does to a record. *)
Lemma updateWhereId_lookup id f t i r :
  t !! i = Some r ->
  updateWhereId id f t !! i
  = Some (if rec_id r =? id then mkRec (rec_id r) (is_deleted r) (f (rec_cols r)) else r).
Proof.
  intros H. unfold updateWhereId.
  rewrite list_lookup_fmap, H. reflexivity.
Qed.

(** X2. Project risks: a valid row with action [overwrite] whose risk name
    is found, in a transaction that is not aborted and whose two
    statements do not fail, gets the outcome [overwritten] with the
    identifier of the record found; the record found has its update time
    set to the reading of the clock; and every stored record keeps, in
    every other column to which the row maps no truthy value, the value it
    held before. *)
Theorem project_overwrite_is_partial_update :
  forall fails now duplicateActions linkTo row st k existing,
    isValid row = true ->
    actionFor duplicateActions row = "overwrite" ->
    truthyText (data row) "risk_name" = Some k ->
    aborted st = false ->
    fails (length (issued st)) = None ->
    fails (S (length (issued st))) = None ->
    selectFirst (matches "risk_name" (SText k)) (risks (tables st)) = [existing] ->
    exists st',
      processRow fails now duplicateActions "project" linkTo row st
      = (mkOutcome (rowIndex row) true "overwritten" (Some (rec_id existing)) None, st')
      /\ forall i r,
           risks (tables st) !! i = Some r ->
           exists r',
             risks (tables st') !! i = Some r'
             /\ rec_id r' = rec_id r
             /\ (rec_id r = rec_id existing ->
                 rec_cols r' !! "updated_at" = Some (SText now))
             /\ (forall c,
                   c <> "updated_at" ->
                   (forall v, (c, Some v) ∉ projectUpdateParams (data row)) ->
                   rec_cols r' !! c = rec_cols r !! c).
Proof.
  intros fails now duplicateActions linkTo row st k existing
    Hvalid Hact Hk Hlive Hf0 Hf1 Hsel.
  destruct (project_overwrite_updates fails now duplicateActions linkTo row st k existing
              Hvalid Hact Hk Hlive Hf0 Hf1 Hsel) as (st' & Hrun & Hrisks & _).
  exists st'. split; [exact Hrun|].
  intros i r Hr. rewrite Hrisks, (updateWhereId_lookup _ _ _ _ _ Hr).
  eexists. split; [reflexivity|].
  destruct (rec_id r =? rec_id existing) eqn:Hid; cbn [rec_id rec_cols].
  - split; [reflexivity|]. split.
    + intros _. apply lookup_insert_eq.
    + intros c Hc Habsent. apply updateRisk_is_partial; assumption.
  - split; [reflexivity|]. split.
    + intros Heq. rewrite Heq, Z.eqb_refl in Hid. discriminate Hid.
    + intros c _ _. reflexivity.
Qed.

Lemma project_overwrite_is_partial_update_witness :
  exists st',
    processRow noFailure clock (<[3 := "overwrite"]> ∅) "project" None leakRow
      (mkSession smallDB [])
    = (mkOutcome 3 true "overwritten" (Some 1) None, st')
    /\ exists r',
         risks (tables st') !! 0%nat = Some r'
         /\ rec_cols r' !! "impact" = Some (SText "Severe").
Proof.
  destruct (project_overwrite_is_partial_update noFailure clock (<[3 := "overwrite"]> ∅)
              None leakRow (mkSession smallDB []) "Data leak"
              (mkRec 1 false
                 (<["risk_name" := SText "Data leak"]>
                    (<["impact" := SText "Severe"]> ∅))))
    as (st' & Hrun & Hrecs); try (vm_compute; reflexivity).
  exists st'. split; [exact Hrun|].
  destruct (Hrecs 0%nat _ eq_refl) as (r' & Hr' & _ & _ & Hkeep).
  exists r'. split; [exact Hr'|].
  rewrite (Hkeep "impact"); [vm_compute; reflexivity | discriminate |].
  intros v Hin. vm_compute in Hin.
  repeat (apply elem_of_cons in Hin as [Hin | Hin]; [discriminate Hin|]).
  inversion Hin.
Defined.

Lemma vendorUpdateParams_columns riskData c o :
  (c, o) ∈ vendorUpdateParams riskData -> c <> "updated_at".
Proof.
  unfold vendorUpdateParams. intros Hin.
  repeat (apply elem_of_cons in Hin as [Hin | Hin];
          [inversion Hin; subst; discriminate|]).
  inversion Hin.
Qed.

(** Vendor risks: after an overwrite, the record found holds [NULL] in
    every column of the update to which the row maps no truthy value,
    whatever it held before. *)
Lemma vendor_overwrite_erases_unmapped
    fails now duplicateActions linkTo row st vendor_id k existing c :
  isValid row = true ->
  actionFor duplicateActions row = "overwrite" ->
  linkedAs "vendor" linkTo = Some vendor_id ->
  truthyText (data row) "risk_description" = Some k ->
  aborted st = false ->
  fails (length (issued st)) = None ->
  fails (S (length (issued st))) = None ->
  selectFirst (vendorMatch k vendor_id) (vendorRisks (tables st)) = [existing] ->
  (c, None) ∈ vendorUpdateParams (data row) ->
  forall i r,
    vendorRisks (tables st) !! i = Some r ->
    rec_id r = rec_id existing ->
    exists r',
      vendorRisks (tables (processRow fails now duplicateActions "vendor" linkTo row st).2) !! i
      = Some r'
      /\ rec_id r' = rec_id r
      /\ rec_cols r' !! c = None.
Proof.
  intros Hvalid Hact Hlink Hk Hlive Hf0 Hf1 Hsel Hc i r Hr Hid.
  destruct (vendor_overwrite_assigns fails now duplicateActions linkTo row st vendor_id k
              existing Hvalid Hact Hlink Hk Hlive Hf0 Hf1 Hsel) as (st' & Hrun & Hrisks & _).
  rewrite Hrun. cbn [snd]. rewrite Hrisks, (updateWhereId_lookup _ _ _ _ _ Hr).
  eexists. split; [reflexivity|].
  rewrite Hid, Z.eqb_refl. cbn [rec_id rec_cols]. split; [reflexivity|].
  rewrite lookup_insert_ne
    by (intros Heq; apply (vendorUpdateParams_columns _ _ _ Hc); symmetry; exact Heq).
  apply assignCols_clears; [|exact Hc].
  change (map fst (vendorUpdateParams (data row)))
    with [ "impact_description"; "likelihood"; "risk_severity"; "action_plan";
           "action_owner"; "risk_level" ].
  apply (bool_decide_unpack _). vm_compute. exact I.
Qed.

(** C2, where the program departs from it. Vendor 9 has a stored risk
    "Late delivery" with an action plan. A valid row for that risk with
    action [overwrite] maps a likelihood and no action plan. The outcome is
    [overwritten] with the identifier of the stored record and the mapped
    likelihood is written, but the stored action plan does not keep its
    value: the update of the vendor branch assigns every column, so the
    action plan becomes [NULL]. *)
Theorem vendor_overwrite_clears_unmapped_columns :
  exists db',
    importHandler noFailure clock true None lateRequest smallDB
    = (ImportOk [mkOutcome 2 true "overwritten" (Some 3) None]
         (mkImportSummary 1 1 0 1 0 0), db')
    /\ data lateRow !! "action_plan" = None
    /\ map (fun r => (rec_id r, rec_cols r !! "action_plan")) (vendorRisks smallDB)
       = [(3, Some (SText "Renegotiate the contract"))]
    /\ map (fun r => (rec_id r, rec_cols r !! "action_plan")) (vendorRisks db')
       = [(3, None)]
    /\ map (fun r => (rec_id r, rec_cols r !! "likelihood")) (vendorRisks db')
       = [(3, Some (SText "Likely"))].
Proof.
  exists (importHandler noFailure clock true None lateRequest smallDB).2.
  repeat split; vm_compute; reflexivity.
Qed.


(** ** End-to-end scenarios *)

(** A two-column sheet with one row, mapped one to one, is decoded into
    one row, validated as one valid row and imported as one created
    record. *)
Example scenario_create :
  forall native_member parseDate,
  exists parsed mapped db',
    parseSheet 5 outageSheet
    = ParseOk (mkParseData [Some "Risk name"; Some "Risk description"] 1 [parsed] [parsed])
    /\ validate native_member parseDate true [parsed] identityMapping "project"
       = ValidateOk [mapped] (mkValidateSummary 1 1 0)
    /\ mr_isValid mapped = true
    /\ mr_data mapped !! "risk_name" = Some (VStr "Server outage")
    /\ importHandler noFailure clock true None
         (mkImportRequest (Some "tenant_a") [outageRow] (Some ∅) "project" None) emptyDB
       = (ImportOk [mkOutcome 2 true "created" (Some 1) None]
            (mkImportSummary 1 1 1 0 0 0), db').
Proof.
  intros native_member parseDate. do 3 eexists.
  split; [vm_compute; reflexivity|].
  split; [vm_compute; reflexivity|].
  repeat split; vm_compute; reflexivity.
Qed.

(** The same sheet with an empty risk name: the row is invalid with the
    message of the required field, and the import records it as an error
    without issuing a statement. *)
Example scenario_missing_name :
  forall native_member parseDate,
    validate native_member parseDate true
      [mkParsedRow 2 (<["Risk name" := ""]> (<["Risk description" := "No name"]> ∅))]
      identityMapping "project"
    = ValidateOk
        [mkMappedRow 2 false ["Risk name is required"]
           (<["risk_name" := VNull]> (<["risk_description" := VStr "No name"]> ∅))]
        (mkValidateSummary 1 0 1)
    /\ processRow noFailure clock ∅ "project" None namelessRow (mkSession emptyDB [])
       = (mkOutcome 4 false "error" None (Some "Risk name is required"),
          mkSession emptyDB []).
Proof.
  intros native_member parseDate. split; vm_compute; reflexivity.
Qed.


(** * Further properties *)

(** ** Trimming *)

Lemma list_of_rev_app (s1 s2 : string) :
  list_ascii_of_string (String.rev_app s1 s2)
  = (rev (list_ascii_of_string s1) ++ list_ascii_of_string s2)%list.
Proof.
  revert s2. induction s1 as [|c s1 IH]; intros s2; simpl; [reflexivity|].
  rewrite IH. simpl. rewrite <- app_assoc. reflexivity.
Qed.

Lemma list_of_rev (s : string) :
  list_ascii_of_string (String.rev s) = rev (list_ascii_of_string s).
Proof. unfold String.rev. rewrite list_of_rev_app. simpl. apply app_nil_r. Qed.

Lemma list_of_string_inj (s1 s2 : string) :
  list_ascii_of_string s1 = list_ascii_of_string s2 -> s1 = s2.
Proof.
  intros H. rewrite <- (string_of_list_ascii_of_string s1),
              <- (string_of_list_ascii_of_string s2), H. reflexivity.
Qed.

Lemma rev_rev (s : string) : String.rev (String.rev s) = s.
Proof. apply list_of_string_inj. rewrite !list_of_rev. apply rev_involutive. Qed.

Lemma trimStart_ws1 a r : is_ws a = true -> trimStart (String a r) = trimStart r.
Proof. intros E. cbn [trimStart]. rewrite E. reflexivity. Qed.

Lemma trimStart_ws2 a b r :
  is_ws a = false -> is_ws2 a b = true ->
  trimStart (String a (String b r)) = trimStart r.
Proof. intros E1 E2. cbn [trimStart]. rewrite E1, E2. reflexivity. Qed.

Lemma trimStart_ws3 a b c r :
  is_ws a = false -> is_ws2 a b = false -> is_ws3 a b c = true ->
  trimStart (String a (String b (String c r))) = trimStart r.
Proof. intros E1 E2 E3. cbn [trimStart]. rewrite E1, E2, E3. reflexivity. Qed.

(** The equations of [trimStart], by the white space the text begins
    with. *)
Lemma trimStart_cases (s : string) :
  (exists a r, s = String a r /\ is_ws a = true /\ trimStart s = trimStart r)
  \/ (exists a b r, s = String a (String b r) /\ is_ws2 a b = true
                    /\ trimStart s = trimStart r)
  \/ (exists a b c r, s = String a (String b (String c r)) /\ is_ws3 a b c = true
                      /\ trimStart s = trimStart r)
  \/ trimStart s = s.
Proof.
  destruct s as [|a r]; [right; right; right; reflexivity|].
  cbn [trimStart]. destruct (is_ws a) eqn:E1; [left; eauto|].
  destruct r as [|b r1]; [right; right; right; reflexivity|].
  destruct (is_ws2 a b) eqn:E2; [right; left; eauto 6|].
  destruct r1 as [|c r2]; [right; right; right; reflexivity|].
  destruct (is_ws3 a b c) eqn:E3; [right; right; left; eauto 8|].
  right; right; right; reflexivity.
Qed.

Lemma trimStartRev_cases (s : string) :
  (exists a r, s = String a r /\ trimStartRev s = trimStartRev r)
  \/ (exists a b r, s = String a (String b r) /\ trimStartRev s = trimStartRev r)
  \/ (exists a b c r, s = String a (String b (String c r))
                      /\ trimStartRev s = trimStartRev r)
  \/ trimStartRev s = s.
Proof.
  destruct s as [|a r]; [right; right; right; reflexivity|].
  cbn [trimStartRev]. destruct (is_ws a); [left; eauto|].
  destruct r as [|b r1]; [right; right; right; reflexivity|].
  destruct (is_ws2 b a); [right; left; eauto 6|].
  destruct r1 as [|c r2]; [right; right; right; reflexivity|].
  destruct (is_ws3 c b a); [right; right; left; eauto 8|].
  right; right; right; reflexivity.
Qed.

Lemma trimStart_length (s : string) :
  (String.length (trimStart s) <= String.length s)%nat.
Proof.
  remember (String.length s) as n eqn:Hn.
  revert s Hn. induction (lt_wf n) as [n _ IH]; intros s ->.
  destruct (trimStart_cases s)
    as [(a & r & -> & _ & ->) | [(a & b & r & -> & _ & ->)
       | [(a & b & c & r & -> & _ & ->) | ->]]];
    [| | |lia];
    (etransitivity; [eapply IH; [|reflexivity]; simpl; lia | simpl; lia]).
Qed.

Lemma trimStart_idempotent (s : string) : trimStart (trimStart s) = trimStart s.
Proof.
  remember (String.length s) as n eqn:Hn.
  revert s Hn. induction (lt_wf n) as [n _ IH]; intros s ->.
  destruct (trimStart_cases s)
    as [(a & r & -> & _ & ->) | [(a & b & r & -> & _ & ->)
       | [(a & b & c & r & -> & _ & ->) | H]]];
    [| | |rewrite H; exact H];
    (eapply IH; [|reflexivity]; simpl; lia).
Qed.

Lemma trimStartRev_idempotent (s : string) :
  trimStartRev (trimStartRev s) = trimStartRev s.
Proof.
  remember (String.length s) as n eqn:Hn.
  revert s Hn. induction (lt_wf n) as [n _ IH]; intros s ->.
  destruct (trimStartRev_cases s)
    as [(a & r & -> & ->) | [(a & b & r & -> & ->)
       | [(a & b & c & r & -> & ->) | H]]];
    [| | |rewrite H; exact H];
    (eapply IH; [|reflexivity]; simpl; lia).
Qed.

(** What [trimStartRev] returns is the end of its argument. *)
Lemma trimStartRev_suffix (s : string) :
  exists p, list_ascii_of_string s = (p ++ list_ascii_of_string (trimStartRev s))%list.
Proof.
  remember (String.length s) as n eqn:Hn.
  revert s Hn. induction (lt_wf n) as [n _ IH]; intros s ->.
  destruct (trimStartRev_cases s)
    as [(a & r & -> & ->) | [(a & b & r & -> & ->)
       | [(a & b & c & r & -> & ->) | ->]]].
  - destruct (IH (String.length r) ltac:(simpl; lia) r eq_refl) as [p Hp].
    exists (a :: p). simpl. rewrite Hp at 1. reflexivity.
  - destruct (IH (String.length r) ltac:(simpl; lia) r eq_refl) as [p Hp].
    exists (a :: b :: p). simpl. rewrite Hp at 1. reflexivity.
  - destruct (IH (String.length r) ltac:(simpl; lia) r eq_refl) as [p Hp].
    exists (a :: b :: c :: p). simpl. rewrite Hp at 1. reflexivity.
  - exists []. reflexivity.
Qed.

(** What [trimEnd] returns is the beginning of its argument. *)
Lemma trimEnd_prefix (s : string) :
  exists w, list_ascii_of_string s = (list_ascii_of_string (trimEnd s) ++ w)%list.
Proof.
  destruct (trimStartRev_suffix (String.rev s)) as [p Hp].
  exists (rev p). unfold trimEnd. rewrite list_of_rev.
  rewrite <- rev_app_distr, <- Hp, list_of_rev. symmetry. apply rev_involutive.
Qed.

Lemma list_length (s : string) : length (list_ascii_of_string s) = String.length s.
Proof. induction s as [|a s IH]; simpl; [reflexivity | rewrite IH; reflexivity]. Qed.

(** A text that does not begin with white space has no beginning that
    does. *)
Lemma trimStart_prefix (t u : string) (w : list ascii) :
  list_ascii_of_string t = (list_ascii_of_string u ++ w)%list ->
  trimStart t = t -> trimStart u = u.
Proof.
  intros Hpre Hfix.
  assert (Hshort : forall r : string,
             (String.length r < String.length t)%nat -> trimStart t <> trimStart r).
  { intros r Hlt Heq. rewrite Hfix in Heq.
    pose proof (trimStart_length r) as Hr. rewrite <- Heq in Hr. lia. }
  destruct (trimStart_cases u)
    as [(a & r & -> & E & _) | [(a & b & r & -> & E & _)
       | [(a & b & c & r & -> & E & _) | H]]];
    [| | |exact H]; exfalso.
  - destruct t as [|a' t1]; simpl in Hpre; inversion Hpre; subst.
    apply (Hshort t1); [simpl; lia|]. apply trimStart_ws1. exact E.
  - destruct t as [|a' [|b' t2]]; simpl in Hpre; inversion Hpre; subst.
    destruct (is_ws a) eqn:E1.
    { apply (Hshort (String b t2)); [simpl; lia|]. apply trimStart_ws1. exact E1. }
    apply (Hshort t2); [simpl; lia|]. apply trimStart_ws2; assumption.
  - destruct t as [|a' [|b' [|c' t3]]]; simpl in Hpre; inversion Hpre; subst.
    destruct (is_ws a) eqn:E1.
    { apply (Hshort (String b (String c t3))); [simpl; lia|].
      apply trimStart_ws1. exact E1. }
    destruct (is_ws2 a b) eqn:E2.
    { apply (Hshort (String c t3)); [simpl; lia|]. apply trimStart_ws2; assumption. }
    apply (Hshort t3); [simpl; lia|]. apply trimStart_ws3; assumption.
Qed.

Lemma trim_idempotent (s : string) : trim (trim s) = trim s.
Proof.
  unfold trim.
  destruct (trimEnd_prefix (trimStart s)) as [w Hw].
  rewrite (trimStart_prefix _ _ _ Hw (trimStart_idempotent s)).
  unfold trimEnd at 1 2. rewrite rev_rev, trimStartRev_idempotent. reflexivity.
Qed.

Lemma cellText_trimmed (c : option Cell) : trim (cellText c) = cellText c.
Proof.
  destruct c as [[| |s|n|[|]]|]; simpl; try reflexivity; apply trim_idempotent.
Qed.

Lemma headerName_trimmed (h : Cell) : trim (headerName h) = headerName h.
Proof.
  destruct h as [| |s|n|[|]]; simpl; try reflexivity; try apply trim_idempotent.
  destruct (falsyNumber n); [reflexivity | apply trim_idempotent].
Qed.

(** ** What the decoder returns *)

Lemma parseRows_elem (headers : list (option string)) (body : list (list Cell)) r :
  r ∈ parseRows headers body
  <-> exists i cells,
        body !! i = Some cells
        /\ rowHasContent headers cells = true
        /\ r = mkParsedRow (Z.of_nat i + 2) (fillData headers 0 cells ∅).
Proof.
  unfold parseRows. rewrite list_elem_of_filter, elem_of_lookup_imap. split.
  - intros (Hc & i & cells & -> & Hi). exists i, cells. repeat split; assumption.
  - intros (i & cells & Hi & Hc & ->). split; [exact Hc|]. exists i, cells. split; auto.
Qed.



(** X5. Every header name and every cell text that the decoder returns is
    trimmed: it neither begins nor ends with a white space character or a
    line terminator, of one byte or more, so that trimming it again
    changes nothing. *)
Theorem parseSheet_returns_trimmed_texts :
  forall (previewRowCount : nat) (row0 : list Cell) (body : list (list Cell)),
  exists d,
    parseSheet previewRowCount (row0 :: body) = ParseOk d
    /\ (forall s, Some s ∈ columns d -> trim s = s)
    /\ (forall r k v, r ∈ allRows d -> pr_data r !! k = Some v -> trim v = v).
Proof.
  intros previewRowCount row0 body. eexists. split; [reflexivity|].
  cbn [columns allRows]. split.
  - intros s Hs. unfold headersOf in Hs.
    apply list_elem_of_fmap in Hs as (h & Heq & _).
    assert (E : s = headerName h)
      by (destruct h; [discriminate Heq|..]; inversion Heq; reflexivity).
    rewrite E. apply headerName_trimmed.
  - intros r k v Hr Hkv. apply parseRows_elem in Hr as (i & cells & _ & _ & ->).
    cbn [pr_data] in Hkv. rewrite fillData_lookup, lookup_empty in Hkv.
    destruct (lastColumn (headersOf row0) 0 k); [|discriminate].
    inversion Hkv; subst. apply cellText_trimmed.
Qed.

(** Trimming removes a no-break space at the beginning and a byte order
    mark at the end. *)
Example trim_other_white_space :
  trim (NBSP ++ " Server outage" ++ BOM) = "Server outage".
Proof. reflexivity. Qed.

(** ** Mapping *)

Lemma assign_keeps_prototype (k : string) (v : Value) (o : MappedObject) :
  proto o = ProtoObject ->
  own o !! "__proto__" = None ->
  (k = "__proto__" -> exists s, v = VStr s) ->
  exists o',
    assign k v o = Normal o'
    /\ proto o' = ProtoObject
    /\ own o' = (if String.eqb k "__proto__" then own o else <[k := v]> (own o)).
Proof.
  intros Hp Hown Hk. unfold assign.
  destruct (String.eqb k "__proto__") eqn:Ek.
  - apply String.eqb_eq in Ek. destruct (Hk Ek) as [s ->]. subst k.
    rewrite Hown, Hp. exists o. repeat split; assumption.
  - rewrite Hp. destruct (own o !! k); eexists; repeat split; exact Hp.
Qed.

Lemma mapFields_keeps_prototype (data : gmap string string)
    (mapping : list MappingEntry) :
  Forall (keepsPrototype data) mapping ->
  forall o : MappedObject,
    proto o = ProtoObject ->
    own o !! "__proto__" = None ->
    exists o',
      mapFields mapping data o = Normal o'
      /\ proto o' = ProtoObject
      /\ forall t,
           own o' !! t
           = match lastMapping mapping t with
             | Some m =>
                 if String.eqb t "__proto__" then None
                 else Some (or_null (readColumn data (sourceColumn m)))
             | None => own o !! t
             end.
Proof.
  induction 1 as [|m ms Hm Hms IH]; intros o Hp Hown.
  - exists o. repeat split; assumption.
  - cbn [mapFields].
    destruct (assign_keeps_prototype (targetField m)
                (or_null (readColumn data (sourceColumn m))) o Hp Hown Hm)
      as (o1 & -> & Hp1 & Hown1).
    cbn [cbind].
    assert (Hown1' : own o1 !! "__proto__" = None).
    { rewrite Hown1. destruct (String.eqb (targetField m) "__proto__") eqn:E;
        [exact Hown|].
      apply String.eqb_neq in E. rewrite lookup_insert_ne by exact E. exact Hown. }
    destruct (IH o1 Hp1 Hown1') as (o' & Hrun & Hp' & Hlook).
    exists o'. split; [exact Hrun|]. split; [exact Hp'|].
    intros t. rewrite Hlook. cbn [lastMapping].
    destruct (lastMapping ms t) as [m'|]; [reflexivity|].
    rewrite Hown1.
    destruct (String.eqb (targetField m) t) eqn:Et.
    + apply String.eqb_eq in Et. subst t.
      destruct (String.eqb (targetField m) "__proto__") eqn:E.
      * apply String.eqb_eq in E. rewrite E. exact Hown.
      * apply lookup_insert_eq.
    + apply String.eqb_neq in Et.
      destruct (String.eqb (targetField m) "__proto__"); [reflexivity|].
      apply lookup_insert_ne. exact Et.
Qed.

(** X6. When no entry of the mapping changes the prototype of the mapped
    data (every entry targets another field than [__proto__], or reads a
    text that is not empty), every write of the mapping completes and the
    mapped data hold, under every target field other than [__proto__], the
    cell of the source column of the last entry with that target, or
    [null] when that cell is empty or the row has no such column; they
    hold nothing under a field that no entry targets. *)
Theorem applyMapping_last_entry_wins :
  forall (mapping : list MappingEntry) (data : gmap string string),
    Forall (keepsPrototype data) mapping ->
    mappingCompletes mapping data
    /\ forall t : string,
         applyMapping mapping data !! t
         = if String.eqb t "__proto__" then None
           else (fun m => or_null (readColumn data (sourceColumn m)))
                  <$> lastMapping mapping t.
Proof.
  intros mapping data Hkeep.
  destruct (mapFields_keeps_prototype data mapping Hkeep (mkMappedObject ∅ ProtoObject)
              eq_refl (lookup_empty _))
    as (o' & Hrun & _ & Hlook).
  split; [exists o'; exact Hrun|].
  intros t. unfold applyMapping. rewrite Hrun, Hlook. cbn [own].
  rewrite lookup_empty.
  destruct (lastMapping mapping t); destruct (String.eqb t "__proto__"); reflexivity.
Qed.

(** A mapping with two entries for the same field and one for
    [__proto__] that reads a text: the second entry for the field wins and
    the write to [__proto__] leaves no trace. *)
Lemma applyMapping_last_entry_wins_witness :
  Forall (keepsPrototype (<["A" := "first"]> (<["B" := "second"]> ∅)))
    [mkMapping "A" "risk_name"; mkMapping "B" "__proto__"; mkMapping "B" "risk_name"]
  /\ applyMapping
       [mkMapping "A" "risk_name"; mkMapping "B" "__proto__"; mkMapping "B" "risk_name"]
       (<["A" := "first"]> (<["B" := "second"]> ∅)) !! "risk_name"
     = Some (VStr "second").
Proof.
  assert (Hkeep : Forall (keepsPrototype (<["A" := "first"]> (<["B" := "second"]> ∅)))
            [mkMapping "A" "risk_name"; mkMapping "B" "__proto__";
             mkMapping "B" "risk_name"]).
  { repeat constructor; intros H; try discriminate H.
    exists "second". vm_compute. reflexivity. }
  split; [exact Hkeep|].
  rewrite (proj2 (applyMapping_last_entry_wins _ _ Hkeep) "risk_name").
  vm_compute. reflexivity.
Defined.

(** ** Validity *)

Lemma missing_nil (msg : string -> string) (m : gmap string Value) (names : list string) :
  flat_map (fun fname => if truthy (read m fname) then [] else [msg fname]) names = []
  <-> forallb (fun fname => truthy (read m fname)) names = true.
Proof.
  induction names as [|n ns IH]; simpl; [tauto|].
  destruct (truthy (read m n)); simpl; [exact IH | split; discriminate].
Qed.

Lemma required_names (fields : list FieldDefinition) (m : gmap string Value) :
  forallb (fun fname => truthy (read m fname))
    (map field (filter (fun f => required f = true) fields))
  = forallb (requiredOk m) fields.
Proof.
  induction fields as [|f fs IH]; simpl; [reflexivity|].
  rewrite filter_cons. unfold requiredOk at 1.
  destruct (decide (required f = true)) as [Hr|Hr].
  - rewrite Hr. simpl. rewrite IH. reflexivity.
  - apply not_true_is_false in Hr. rewrite Hr. simpl. exact IH.
Qed.

Lemma requiredErrors_nil (fields : list FieldDefinition) (m : gmap string Value) :
  requiredErrors fields m = [] <-> forallb (requiredOk m) fields = true.
Proof.
  unfold requiredErrors. cbv zeta. rewrite <- required_names. apply missing_nil.
Qed.

Lemma enumErrors_nil (fields : list FieldDefinition) (m : gmap string Value) :
  enumErrors fields m = [] <-> forallb (enumOk m) fields = true.
Proof.
  unfold enumErrors.
  induction fields as [|f fs IH]; simpl; [tauto|].
  rewrite filter_cons. unfold enumOk at 1.
  destruct (decide (type f = TEnum)) as [Ht|Ht].
  2: { destruct (type f); try congruence; exact IH. }
  rewrite Ht. simpl.
  destruct (options f) as [opts|]; simpl; [|exact IH].
  destruct (truthy (read m (field f))); simpl; [|exact IH].
  destruct (includes opts (read m (field f))); simpl; [exact IH|].
  split; discriminate.
Qed.

Lemma forallb_andb {A} (p q : A -> bool) (l : list A) :
  forallb (fun x => p x && q x) l = forallb p l && forallb q l.
Proof.
  induction l as [|x l IH]; simpl; [reflexivity|].
  rewrite IH. destruct (p x), (q x), (forallb p l); reflexivity.
Qed.

Lemma project_date_fields :
  filter (fun f => type f = TDate) PROJECT_RISK_FIELDS
  = [mkField "deadline" "Deadline" false TDate None].
Proof. vm_compute. reflexivity. Qed.

Lemma project_dateOk parseDate (m : gmap string Value) :
  forallb (dateOk parseDate m) PROJECT_RISK_FIELDS
  = dateOk parseDate m (mkField "deadline" "Deadline" false TDate None).
Proof.
  unfold PROJECT_RISK_FIELDS. cbn [forallb].
  unfold dateOk at 1 2 3 4 5 6 7 8 9 10 12. cbn [type andb].
  apply andb_true_r.
Qed.

(** The date step on the two schemas: the vendor schema has no date field,
    the project schema has the deadline. *)
Lemma dateStep_errors parseDate (riskType : string) (errors0 : list string)
    (m : gmap string Value) :
  exists dateErrors,
    (dateStep parseDate (fieldsFor riskType) (errors0, m)).1 = (errors0 ++ dateErrors)%list
    /\ (dateErrors = [] <-> forallb (dateOk parseDate m) (fieldsFor riskType) = true)
    /\ forall k, k <> "deadline" ->
         (dateStep parseDate (fieldsFor riskType) (errors0, m)).2 !! k = m !! k.
Proof.
  unfold fieldsFor. destruct (String.eqb riskType "vendor").
  - exists []. rewrite dateStep_vendor. cbn [fst snd]. rewrite app_nil_r.
    split; [reflexivity|]. split; [|reflexivity]. split; reflexivity.
  - unfold dateStep. rewrite project_date_fields, project_dateOk.
    unfold dateOk. cbn [fold_left field label type fst snd].
    destruct (truthy (read m "deadline")); cbn [negb orb].
    + destruct (parseDate (read m "deadline")) as [iso|] eqn:Ed; cbn [fst snd].
      * exists []. rewrite app_nil_r. split; [reflexivity|]. split.
        -- split; [intros _|reflexivity].
           rewrite bool_decide_true by (eexists; reflexivity). reflexivity.
        -- intros k Hk. apply lookup_insert_ne. congruence.
      * eexists. split; [reflexivity|]. split.
        -- split; [discriminate|].
           rewrite bool_decide_false by (intros [x Hx]; discriminate Hx).
           discriminate.
        -- reflexivity.
    + exists []. rewrite app_nil_r. repeat split; reflexivity.
Qed.

Lemma validateRow_inv native_member parseDate autoCalculate riskType mapping row r :
  validateRow native_member parseDate autoCalculate riskType mapping row = Normal r ->
  let mapped := applyMapping mapping (pr_data row) in
  let errors0 := app (requiredErrors (fieldsFor riskType) mapped)
                     (enumErrors (fieldsFor riskType) mapped) in
  let st := dateStep parseDate (fieldsFor riskType) (errors0, mapped) in
  mr_rowIndex r = pr_rowIndex row
  /\ mr_errors r = st.1
  /\ mr_isValid r = bool_decide (length st.1 = 0%nat)
  /\ autoCalcStep native_member autoCalculate riskType st.2 = Normal (mr_data r).
Proof.
  unfold validateRow. intros H. cbv zeta.
  destruct (mapFields mapping (pr_data row) (mkMappedObject ∅ ProtoObject))
    as [mappedObject|e] eqn:Hmap; [|discriminate H].
  rewrite (applyMapping_completes _ _ _ Hmap). cbn [cbind] in H. cbv zeta in H.
  destruct (dateStep parseDate (fieldsFor riskType) _) as [errors dated].
  cbn [fst snd].
  destruct (autoCalcStep native_member autoCalculate riskType dated) as [md|e] eqn:Hcalc;
    simpl in H; [|discriminate].
  inversion H; subst; clear H. repeat split; reflexivity.
Qed.

Lemma validateRow_isValid :
  forall native_member parseDate autoCalculate riskType mapping row r,
    validateRow native_member parseDate autoCalculate riskType mapping row = Normal r ->
    mr_isValid r
    = schemaOk parseDate (fieldsFor riskType) (applyMapping mapping (pr_data row))
    /\ (mr_isValid r = true <-> mr_errors r = []).
Proof.
  intros native_member parseDate autoCalculate riskType mapping row r H.
  apply validateRow_inv in H as (_ & Herr & Hvalid & _). cbv zeta in *.
  set (mapped := applyMapping mapping (pr_data row)) in *.
  set (fields := fieldsFor riskType) in *.
  destruct (dateStep_errors parseDate riskType
              (app (requiredErrors fields mapped) (enumErrors fields mapped)) mapped)
    as (dateErrors & Hst & Hdate & _).
  fold fields in Hst, Hdate. rewrite Hst in Herr, Hvalid.
  rewrite Hvalid, Herr. split.
  - unfold schemaOk. rewrite !forallb_andb.
    pose proof (requiredErrors_nil fields mapped) as Hr.
    pose proof (enumErrors_nil fields mapped) as He.
    destruct (requiredErrors fields mapped) as [|x xs];
      destruct (forallb (requiredOk mapped) fields);
      try (exfalso; destruct Hr as [Hr1 Hr2]; (discriminate (Hr1 eq_refl) || discriminate (Hr2 eq_refl)));
      [|reflexivity].
    destruct (enumErrors fields mapped) as [|y ys];
      destruct (forallb (enumOk mapped) fields);
      try (exfalso; destruct He as [He1 He2]; (discriminate (He1 eq_refl) || discriminate (He2 eq_refl)));
      [|reflexivity].
    destruct dateErrors as [|z zs];
      destruct (forallb (dateOk parseDate mapped) fields);
      try (exfalso; destruct Hdate as [Hd1 Hd2]; (discriminate (Hd1 eq_refl) || discriminate (Hd2 eq_refl)));
      reflexivity.
  - rewrite bool_decide_eq_true.
    destruct (app (app (requiredErrors fields mapped) (enumErrors fields mapped)) dateErrors);
      simpl; split; intros; (reflexivity || discriminate || lia).
Qed.

(** X7. A row is valid exactly when its mapped data satisfy the schema of
    the risk type: every required field has a value, every enum field
    with a value has one of its options, and the deadline, when it has a
    value, parses as a date. A row is valid exactly when it carries no
    error message. *)
Theorem validateRow_valid_iff_schema :
  forall native_member parseDate autoCalculate riskType mapping row r,
    validateRow native_member parseDate autoCalculate riskType mapping row = Normal r ->
    mr_isValid r
    = schemaOk parseDate (fieldsFor riskType) (applyMapping mapping (pr_data row))
    /\ (mr_isValid r = true <-> mr_errors r = []).
Proof.
  intros native_member parseDate autoCalculate riskType mapping row r H.
  exact (validateRow_isValid _ _ _ _ _ _ _ H).
Qed.

Lemma validateRow_valid_iff_schema_witness :
  mr_isValid outageMapped
  = schemaOk noDate (fieldsFor "project") (applyMapping identityMapping (pr_data outageParsed))
  /\ (mr_isValid outageMapped = true <-> mr_errors outageMapped = []).
Proof.
  apply (validateRow_valid_iff_schema noNative noDate true "project" identityMapping
           outageParsed outageMapped).
  vm_compute. reflexivity.
Defined.


(** ** Batches *)

Lemma mapM_Normal {A B} (f : A -> Completion B) (l : list A) :
  forall rs, mapM f l = Normal rs -> Forall2 (fun a b => f a = Normal b) l rs.
Proof.
  induction l as [|a l IH]; intros rs H; simpl in H.
  - inversion H. constructor.
  - destruct (f a) as [b|e] eqn:Ha; simpl in H; [|discriminate].
    destruct (mapM f l) as [bs|e] eqn:Hl; simpl in H; [|discriminate].
    inversion H; subst. constructor; [exact Ha | apply IH; reflexivity].
Qed.

Lemma filter_split_length {A} (p : A -> bool) (l : list A) :
  (length (filter (fun x => p x = true) l) + length (filter (fun x => p x = false) l)
   = length l)%nat.
Proof.
  induction l as [|x l IH]; simpl; [reflexivity|].
  rewrite !filter_cons. destruct (p x) eqn:E.
  - rewrite decide_True by reflexivity. rewrite decide_False by discriminate.
    simpl. lia.
  - rewrite decide_False by discriminate. rewrite decide_True by reflexivity.
    simpl. lia.
Qed.

(** X8. When validation answers, it answers row by row: there is one
    result per row, in the order of the rows and with their row indices,
    each the validation of its row alone; [total] is the number of rows
    and [valid + invalid = total]. *)
Theorem validate_answers_row_by_row :
  forall native_member parseDate autoCalculate rows mapping riskType results summary,
    validate native_member parseDate autoCalculate rows mapping riskType
    = ValidateOk results summary ->
    Forall2 (fun row r =>
               validateRow native_member parseDate autoCalculate riskType mapping row
               = Normal r) rows results
    /\ map mr_rowIndex results = map pr_rowIndex rows
    /\ vs_total summary = length rows
    /\ (vs_valid summary + vs_invalid summary = vs_total summary)%nat.
Proof.
  intros native_member parseDate autoCalculate rows mapping riskType results summary H.
  unfold validate in H.
  destruct (mapM (validateRow native_member parseDate autoCalculate riskType mapping) rows)
    as [rs|e] eqn:Hm; [|discriminate].
  inversion H; subst; clear H. apply mapM_Normal in Hm.
  split; [exact Hm|]. cbn [vs_total vs_valid vs_invalid].
  split; [|split].
  - induction Hm as [|row r rows rs Hr _ IH]; simpl; [reflexivity|].
    apply validateRow_inv in Hr as (Hidx & _). rewrite Hidx, IH. reflexivity.
  - symmetry. exact (Forall2_length _ _ _ Hm).
  - apply filter_split_length.
Qed.

Lemma validate_answers_row_by_row_witness :
  Forall2 (fun row r =>
             validateRow noNative noDate true "project" identityMapping row = Normal r)
    [outageParsed] [outageMapped]
  /\ map mr_rowIndex [outageMapped] = map pr_rowIndex [outageParsed]
  /\ vs_total (mkValidateSummary 1 1 0) = length [outageParsed]
  /\ (vs_valid (mkValidateSummary 1 1 0) + vs_invalid (mkValidateSummary 1 1 0)
      = vs_total (mkValidateSummary 1 1 0))%nat.
Proof.
  apply (validate_answers_row_by_row noNative noDate true [outageParsed] identityMapping
           "project" [outageMapped] (mkValidateSummary 1 1 0)).
  vm_compute. reflexivity.
Defined.


(** ** Auto-calculation for project risks *)

Lemma calculateRiskLevel_project native_member (l s : string) :
  l ∈ PROJECT_LIKELIHOOD_OPTIONS -> s ∈ PROJECT_SEVERITY_OPTIONS ->
  exists cells lab,
    (l, cells) ∈ RISK_MATRIX_ENTRIES /\ (s, lab) ∈ cells
    /\ lab <> ""
    /\ calculateRiskLevel native_member (VStr l) (VStr s) = Normal (VStr lab).
Proof.
  unfold PROJECT_LIKELIHOOD_OPTIONS, PROJECT_SEVERITY_OPTIONS. intros Hl Hs.
  repeat (apply elem_of_cons in Hl as [-> | Hl]);
    try (inversion Hl; fail);
    repeat (apply elem_of_cons in Hs as [-> | Hs]);
    try (inversion Hs; fail);
    (eexists _, _; split;
     [unfold RISK_MATRIX_ENTRIES;
      repeat first [apply list_elem_of_here | apply list_elem_of_further]|];
     split; [repeat first [apply list_elem_of_here | apply list_elem_of_further]|];
     split; [discriminate | vm_compute; reflexivity]).
Qed.

Lemma enum_value_in_options (m : gmap string Value) (f : FieldDefinition) opts :
  type f = TEnum -> options f = Some opts ->
  enumOk m f = true -> truthy (read m (field f)) = true ->
  exists s, read m (field f) = VStr s /\ s ∈ opts.
Proof.
  unfold enumOk. intros -> -> H Ht. rewrite Ht in H. simpl in H.
  unfold includes in H. destruct (read m (field f)); try discriminate.
  eexists. split; [reflexivity|]. apply bool_decide_eq_true_1 in H. exact H.
Qed.

Lemma schemaOk_field parseDate fields (m : gmap string Value) (f : FieldDefinition) :
  schemaOk parseDate fields m = true -> In f fields ->
  requiredOk m f = true /\ enumOk m f = true /\ dateOk parseDate m f = true.
Proof.
  unfold schemaOk. intros H Hin. rewrite forallb_forall in H.
  specialize (H f Hin). apply andb_true_iff in H as [H Hd].
  apply andb_true_iff in H as [Hr He]. auto.
Qed.

(** X9. A valid project row that maps both a likelihood and a severity
    always gets an auto-calculated level when auto-calculation is on: the
    two values are labels of the matrix, and the level stored under
    [risk_level_autocalculated] is the label of their cell. *)
Theorem valid_project_row_gets_matrix_level :
  forall native_member parseDate mapping row r,
    validateRow native_member parseDate true "project" mapping row = Normal r ->
    mr_isValid r = true ->
    truthy (read (applyMapping mapping (pr_data row)) "likelihood") = true ->
    truthy (read (applyMapping mapping (pr_data row)) "severity") = true ->
    exists l s cells lab,
      read (applyMapping mapping (pr_data row)) "likelihood" = VStr l
      /\ read (applyMapping mapping (pr_data row)) "severity" = VStr s
      /\ (l, cells) ∈ RISK_MATRIX_ENTRIES
      /\ (s, lab) ∈ cells
      /\ mr_data r !! "risk_level_autocalculated" = Some (VStr lab).
Proof.
  intros native_member parseDate mapping row r H Hvalid HL HS.
  destruct (validateRow_isValid _ _ _ _ _ _ _ H) as [Hschema _].
  rewrite Hvalid in Hschema. symmetry in Hschema.
  change (fieldsFor "project") with PROJECT_RISK_FIELDS in Hschema.
  set (mapped := applyMapping mapping (pr_data row)) in *.
  destruct (schemaOk_field _ _ _
              (mkField "likelihood" "Likelihood" false TEnum (Some PROJECT_LIKELIHOOD_OPTIONS))
              Hschema) as (_ & HeL & _);
    [unfold PROJECT_RISK_FIELDS, PROJECT_LIKELIHOOD_OPTIONS; simpl; auto 12|].
  destruct (schemaOk_field _ _ _
              (mkField "severity" "Severity" false TEnum (Some PROJECT_SEVERITY_OPTIONS))
              Hschema) as (_ & HeS & _);
    [unfold PROJECT_RISK_FIELDS, PROJECT_SEVERITY_OPTIONS; simpl; auto 12|].
  destruct (enum_value_in_options mapped
              (mkField "likelihood" "Likelihood" false TEnum (Some PROJECT_LIKELIHOOD_OPTIONS))
              PROJECT_LIKELIHOOD_OPTIONS eq_refl eq_refl HeL HL) as (l & Hl & Hlin).
  destruct (enum_value_in_options mapped
              (mkField "severity" "Severity" false TEnum (Some PROJECT_SEVERITY_OPTIONS))
              PROJECT_SEVERITY_OPTIONS eq_refl eq_refl HeS HS) as (s & Hs & Hsin).
  cbn [field] in Hl, Hs.
  destruct (calculateRiskLevel_project native_member l s Hlin Hsin)
    as (cells & lab & Hc1 & Hc2 & Hne & Hcalc).
  exists l, s, cells, lab. repeat (split; [assumption|]).
  apply validateRow_inv in H as (_ & _ & _ & Hauto). cbv zeta in Hauto.
  fold mapped in Hauto.
  destruct (dateStep_errors parseDate "project"
              (app (requiredErrors (fieldsFor "project") mapped)
                   (enumErrors (fieldsFor "project") mapped)) mapped)
    as (_ & _ & _ & Hkeep).
  set (dated := (dateStep parseDate (fieldsFor "project") _).2) in *.
  assert (HdL : read dated "likelihood" = VStr l).
  { unfold read. rewrite Hkeep by discriminate. exact Hl. }
  assert (HdS : read dated "severity" = VStr s).
  { unfold read. rewrite Hkeep by discriminate. exact Hs. }
  unfold autoCalcStep in Hauto.
  change (String.eqb "project" "project") with true in Hauto. cbv iota in Hauto.
  rewrite HdL, HdS, Hcalc in Hauto. cbn [cbind truthy] in Hauto.
  rewrite (proj2 (String.eqb_neq lab "") Hne) in Hauto. cbn [negb] in Hauto.
  inversion Hauto as [Hdata]. apply lookup_insert_eq.
Qed.

Lemma valid_project_row_gets_matrix_level_witness :
  exists l s cells lab,
    read (applyMapping ratedMapping (pr_data ratedParsed)) "likelihood" = VStr l
    /\ read (applyMapping ratedMapping (pr_data ratedParsed)) "severity" = VStr s
    /\ (l, cells) ∈ RISK_MATRIX_ENTRIES
    /\ (s, lab) ∈ cells
    /\ mr_data ratedMapped !! "risk_level_autocalculated" = Some (VStr lab).
Proof.
  apply (valid_project_row_gets_matrix_level noNative noDate ratedMapping ratedParsed
           ratedMapped); vm_compute; reflexivity.
Defined.


(** ** Validation does not throw on ordinary data *)





(** A mapping that first makes the constructor [Object] the prototype of
    the mapped data and then writes the field [caller]: the write calls
    the throwing setter that functions inherit, and the request fails,
    with auto-calculation off as well. *)
Example validate_fails_when_a_write_throws :
  forall native_member parseDate autoCalculate riskType,
    validate native_member parseDate autoCalculate [outageParsed]
      [mkMapping "constructor" "__proto__"; mkMapping "Risk name" "caller"] riskType
    = ValidateFailed 500 "Validation failed".
Proof. reflexivity. Qed.

(** The same prototype and a write to the field [name], which functions
    hold as not writable: the write is ignored and the mapped data do not
    hold the field. *)
Example write_to_name_is_ignored :
  mapFields [mkMapping "constructor" "__proto__"; mkMapping "Risk name" "name"]
    (pr_data outageParsed) (mkMappedObject ∅ ProtoObject)
  = Normal (mkMappedObject ∅ (ProtoNative ["constructor"])).
Proof. reflexivity. Qed.

(** A first write of [null] to [__proto__] removes the prototype; the
    second write then creates the property. *)
Example second_write_to_proto_creates_it :
  mapFields [mkMapping "Absent" "__proto__"; mkMapping "Risk name" "__proto__"]
    (pr_data outageParsed) (mkMappedObject ∅ ProtoObject)
  = Normal (mkMappedObject (<["__proto__" := VStr "Server outage"]> ∅) ProtoNull).
Proof. reflexivity. Qed.



(** ** Properties of the store that every import keeps *)

Lemma query_tables {A} fails (q : Stmt) (run : DB -> A * DB) st c st' :
  query fails q run st = (c, st') ->
  (exists msg, c = Throw msg /\ tables st' = tables st)
  \/ (c = Normal (run (tables st)).1 /\ tables st' = (run (tables st)).2).
Proof.
  destruct c as [a|msg]; intros H.
  - right. apply query_returns in H as (_ & _ & -> & ->). split; reflexivity.
  - left. exists msg. split; [reflexivity | exact (query_throws _ _ _ _ _ _ H)].
Qed.

Lemma selectRisk_tables fails k st c st' :
  selectRisk fails k st = (c, st') -> tables st' = tables st.
Proof.
  intros H. apply query_tables in H as [(msg & _ & H) | [_ H]]; exact H.
Qed.

Lemma selectVendorRisk_tables fails k v st c st' :
  selectVendorRisk fails k v st = (c, st') -> tables st' = tables st.
Proof.
  intros H. apply query_tables in H as [(msg & _ & H) | [_ H]]; exact H.
Qed.

Lemma importProjectRow_stable (P : DB -> Prop) fails now duplicateAction linkTo row st c st' :
  projectStable P ->
  importProjectRow fails now duplicateAction linkTo row st = (c, st') ->
  P (tables st) -> P (tables st').
Proof.
  intros (Hupd & Hins & Hpl & Hfl) Hrun HP.
  assert (Hcreate : forall st0 c0 st0',
             createProjectRisk fails now linkTo row st0 = (c0, st0') ->
             P (tables st0) -> P (tables st0')).
  { clear Hrun HP. intros st0 c0 st0' Hrun HP0.
    unfold createProjectRisk, mbind, Tx_bind in Hrun.
    destruct (insertRisk fails now (data row) st0) as [[newId|e] st1] eqn:E1.
    2: { inversion Hrun; subst. eapply Hins; eassumption. }
    assert (HP1 : P (tables st1)) by (eapply Hins; eassumption).
    destruct (match linkedAs "project" linkTo with
              | Some project_id => insertProjectRisk fails project_id newId
              | None => mret tt
              end st1) as [[u|e] st2] eqn:E2.
    2: { inversion Hrun; subst.
         destruct (linkedAs "project" linkTo);
           [eapply Hpl; eassumption | inversion E2]. }
    assert (HP2 : P (tables st2)).
    { destruct (linkedAs "project" linkTo);
        [eapply Hpl; eassumption | inversion E2; subst; exact HP1]. }
    destruct (match linkedAs "framework" linkTo with
              | Some framework_id => insertFrameworkRisk fails framework_id newId
              | None => mret tt
              end st2) as [[u'|e] st3] eqn:E3.
    2: { inversion Hrun; subst.
         destruct (linkedAs "framework" linkTo);
           [eapply Hfl; eassumption | inversion E3]. }
    assert (HP3 : P (tables st3)).
    { destruct (linkedAs "framework" linkTo);
        [eapply Hfl; eassumption | inversion E3; subst; exact HP2]. }
    inversion Hrun; subst. exact HP3. }
  unfold importProjectRow in Hrun.
  destruct (overwriteKey duplicateAction (data row) "risk_name") as [k|];
    [|eapply Hcreate; eassumption].
  unfold mbind, Tx_bind in Hrun.
  destruct (selectRisk fails k st) as [[found|e] st1] eqn:E1.
  2: { inversion Hrun; subst. rewrite (selectRisk_tables _ _ _ _ _ E1). exact HP. }
  assert (HP1 : P (tables st1)) by (rewrite (selectRisk_tables _ _ _ _ _ E1); exact HP).
  destruct found as [|existing rest]; [eapply Hcreate; eassumption|].
  destruct (updateRisk fails now (rec_id existing) (data row) st1) as [[u|e] st2] eqn:E2;
    inversion Hrun; subst; eapply Hupd; eassumption.
Qed.

Lemma importVendorRow_stable (P : DB -> Prop) fails now duplicateAction linkTo row st c st' :
  vendorStable P ->
  importVendorRow fails now duplicateAction linkTo row st = (c, st') ->
  P (tables st) -> P (tables st').
Proof.
  intros (Hupd & Hins) Hrun HP.
  unfold importVendorRow in Hrun.
  destruct (linkedAs "vendor" linkTo) as [vendor_id|];
    [|inversion Hrun; subst; exact HP].
  assert (Hcreate : forall st0 c0 st0',
             createVendorRisk fails vendor_id row st0 = (c0, st0') ->
             P (tables st0) -> P (tables st0')).
  { clear Hrun HP. intros st0 c0 st0' Hrun HP0.
    unfold createVendorRisk, mbind, Tx_bind in Hrun.
    destruct (insertVendorRisk fails (Some vendor_id) (data row) st0)
      as [[newId|e] st1] eqn:E1;
      inversion Hrun; subst; eapply Hins; eassumption. }
  destruct (overwriteKey duplicateAction (data row) "risk_description") as [k|];
    [|eapply Hcreate; eassumption].
  unfold mbind, Tx_bind in Hrun.
  destruct (selectVendorRisk fails k (Some vendor_id) st) as [[found|e] st1] eqn:E1.
  2: { inversion Hrun; subst. rewrite (selectVendorRisk_tables _ _ _ _ _ _ E1). exact HP. }
  assert (HP1 : P (tables st1))
    by (rewrite (selectVendorRisk_tables _ _ _ _ _ _ E1); exact HP).
  destruct found as [|existing rest]; [eapply Hcreate; eassumption|].
  destruct (updateVendorRisk fails now (rec_id existing) (data row) st1)
    as [[u|e] st2] eqn:E2;
    inversion Hrun; subst; eapply Hupd; eassumption.
Qed.

Lemma processRow_stable (P : DB -> Prop) fails now duplicateActions riskType linkTo row st :
  (String.eqb riskType "project" = true -> projectStable P) ->
  (String.eqb riskType "project" = false -> vendorStable P) ->
  P (tables st) ->
  P (tables (processRow fails now duplicateActions riskType linkTo row st).2).
Proof.
  intros Hproj Hvend HP. unfold processRow.
  destruct (negb (isValid row)); [exact HP|].
  destruct (String.eqb (actionFor duplicateActions row) "skip"); [exact HP|].
  destruct (importRow fails now riskType (actionFor duplicateActions row) linkTo row st)
    as [c st'] eqn:Hrun.
  assert (HP' : P (tables st')).
  { unfold importRow in Hrun. destruct (String.eqb riskType "project").
    - eapply importProjectRow_stable; [apply Hproj; reflexivity | eassumption | exact HP].
    - eapply importVendorRow_stable; [apply Hvend; reflexivity | eassumption | exact HP]. }
  destruct c; exact HP'.
Qed.

Lemma processRows_stable (P : DB -> Prop) fails now duplicateActions riskType linkTo rows :
  (String.eqb riskType "project" = true -> projectStable P) ->
  (String.eqb riskType "project" = false -> vendorStable P) ->
  forall st,
    P (tables st) ->
    P (tables (processRows fails now duplicateActions riskType linkTo rows st).2).
Proof.
  intros Hproj Hvend. induction rows as [|row rest IH]; intros st HP; simpl; [exact HP|].
  destruct (escapes duplicateActions row); [exact HP|].
  pose proof (processRow_stable P fails now (default ∅ duplicateActions) riskType linkTo
                row st Hproj Hvend HP) as H1.
  destruct (processRow fails now (default ∅ duplicateActions) riskType linkTo row st)
    as [o st1].
  specialize (IH st1 H1).
  destruct (processRows fails now duplicateActions riskType linkTo rest st1)
    as [[os|message] st2]; exact IH.
Qed.

Lemma importHandler_stable (P : DB -> Prop) fails now sequelize commitFails req db :
  (String.eqb (riskType req) "project" = true -> projectStable P) ->
  (String.eqb (riskType req) "project" = false -> vendorStable P) ->
  P db ->
  P (importHandler fails now sequelize commitFails req db).2.
Proof.
  intros Hproj Hvend HP. unfold importHandler.
  destruct (negb sequelize); [exact HP|].
  destruct (noTenant (tenantId req)); [exact HP|].
  pose proof (processRows_stable P fails now (duplicateActions req) (riskType req)
                (linkTo req) (validatedRows req) Hproj Hvend (mkSession db []) HP) as H.
  destruct (processRows fails now (duplicateActions req) (riskType req) (linkTo req)
              (validatedRows req) (mkSession db [])) as [[results|message] st];
    [|exact HP].
  destruct commitFails; [exact HP|].
  cbn [snd] in *. unfold committed. destruct (aborted st); [exact HP | exact H].
Qed.

Lemma keepsCols_refl cols r : keepsCols cols r r.
Proof. repeat split. Qed.

Lemma keepsCols_trans cols r1 r2 r3 :
  keepsCols cols r1 r2 -> keepsCols cols r2 r3 -> keepsCols cols r1 r3.
Proof.
  intros (Hi & Hd & Hc) (Hi' & Hd' & Hc'). repeat split.
  - congruence.
  - congruence.
  - intros c Hin. rewrite (Hc' c Hin). apply Hc. exact Hin.
Qed.

Lemma grows_refl cols t : grows cols t t.
Proof.
  exists t, []. split; [symmetry; apply app_nil_r|].
  induction t; constructor; [apply keepsCols_refl | assumption].
Qed.

Lemma Forall2_keeps_trans cols (t1 t2 t3 : list Rec) :
  Forall2 (keepsCols cols) t1 t2 -> Forall2 (keepsCols cols) t2 t3 ->
  Forall2 (keepsCols cols) t1 t3.
Proof.
  intros H. revert t3. induction H as [|r1 r2 t1 t2 Hr _ IH]; intros t3 H23.
  - inversion H23. constructor.
  - inversion H23; subst. constructor; [eapply keepsCols_trans; eassumption|].
    apply IH. assumption.
Qed.

Lemma grows_trans cols t1 t2 t3 : grows cols t1 t2 -> grows cols t2 t3 -> grows cols t1 t3.
Proof.
  intros (kept & added & -> & H12) (kept' & added' & -> & H23).
  apply Forall2_app_inv_l in H23 as (k1 & k2 & Hk1 & Hk2 & ->).
  exists k1, (k2 ++ added')%list. split; [symmetry; apply app_assoc|].
  eapply Forall2_keeps_trans; eassumption.
Qed.

Lemma grows_insert cols t r : grows cols t (t ++ [r]).
Proof.
  exists t, [r]. split; [reflexivity|].
  induction t; constructor; [apply keepsCols_refl | assumption].
Qed.

Lemma grows_update cols id (f : gmap string SqlVal -> gmap string SqlVal) t :
  (forall m c, c ∈ cols -> f m !! c = m !! c) ->
  grows cols t (updateWhereId id f t).
Proof.
  intros Hf. exists (updateWhereId id f t), []. split; [symmetry; apply app_nil_r|].
  unfold updateWhereId. induction t as [|r t IH]; simpl; constructor; [|exact IH].
  destruct (rec_id r =? id); [|apply keepsCols_refl].
  repeat split. intros c Hc. cbn [rec_cols]. apply Hf. exact Hc.
Qed.

Lemma storeGrows_refl db : storeGrows db db.
Proof.
  repeat split; try apply grows_refl; exists []; symmetry; apply app_nil_r.
Qed.

Lemma storeGrows_trans db1 db2 db3 :
  storeGrows db1 db2 -> storeGrows db2 db3 -> storeGrows db1 db3.
Proof.
  intros (H1 & H2 & [a3 H3] & [a4 H4]) (H1' & H2' & [a3' H3'] & [a4' H4']).
  split; [eapply grows_trans; eassumption|].
  split; [eapply grows_trans; eassumption|].
  split.
  - exists (a3 ++ a3')%list. rewrite H3', H3, app_assoc. reflexivity.
  - exists (a4 ++ a4')%list. rewrite H4', H4, app_assoc. reflexivity.
Qed.

Lemma project_update_keeps_name now riskData (m : gmap string SqlVal) c :
  c ∈ ["risk_name"] ->
  (<["updated_at" := SText now]> (coalesceCols (projectUpdateParams riskData) m)) !! c
  = m !! c.
Proof.
  intros Hc. apply list_elem_of_singleton in Hc. subst c.
  apply updateRisk_is_partial; [discriminate|].
  intros v Hin. unfold projectUpdateParams in Hin.
  repeat (apply elem_of_cons in Hin as [Hin | Hin]; [discriminate Hin|]).
  inversion Hin.
Qed.

Lemma vendor_update_keeps_key now riskData (m : gmap string SqlVal) c :
  c ∈ ["risk_description"; "vendor_id"] ->
  (<["updated_at" := SText now]> (assignCols (vendorUpdateParams riskData) m)) !! c
  = m !! c.
Proof.
  intros Hc.
  assert (Hne : c <> "updated_at").
  { repeat (apply elem_of_cons in Hc as [-> | Hc]; [discriminate|]). inversion Hc. }
  rewrite lookup_insert_ne by congruence.
  apply assignCols_other.
  change (map fst (vendorUpdateParams riskData))
    with [ "impact_description"; "likelihood"; "risk_severity"; "action_plan";
           "action_owner"; "risk_level" ].
  intros Hin.
  repeat (apply elem_of_cons in Hc as [-> | Hc];
          [repeat (apply elem_of_cons in Hin as [Hin | Hin]; [discriminate Hin|]);
           inversion Hin|]).
  inversion Hc.
Qed.

Ltac by_statement H :=
  apply query_tables in H as [(? & _ & H) | [_ H]]; rewrite H; clear H.

Lemma storeGrows_projectStable db0 : projectStable (storeGrows db0).
Proof.
  split; [|split; [|split]].
  - intros fails now id riskData st c st' H HP. unfold updateRisk in H.
    by_statement H; [exact HP|]. eapply storeGrows_trans; [exact HP|]. cbn [snd].
    split; [apply grows_update; apply project_update_keeps_name|].
    split; [apply grows_refl|]. split; exists []; symmetry; apply app_nil_r.
  - intros fails now riskData st c st' H HP. unfold insertRisk in H.
    by_statement H; [exact HP|]. eapply storeGrows_trans; [exact HP|]. cbn [snd].
    split; [apply grows_insert|].
    split; [apply grows_refl|]. split; exists []; symmetry; apply app_nil_r.
  - intros fails project_id risk_id st c st' H HP. unfold insertProjectRisk in H.
    by_statement H; [exact HP|]. eapply storeGrows_trans; [exact HP|]. cbn [snd].
    split; [apply grows_refl|]. split; [apply grows_refl|].
    split; [eexists; reflexivity | exists []; symmetry; apply app_nil_r].
  - intros fails framework_id risk_id st c st' H HP. unfold insertFrameworkRisk in H.
    by_statement H; [exact HP|]. eapply storeGrows_trans; [exact HP|]. cbn [snd].
    split; [apply grows_refl|]. split; [apply grows_refl|].
    split; [exists []; symmetry; apply app_nil_r | eexists; reflexivity].
Qed.

Lemma storeGrows_vendorStable db0 : vendorStable (storeGrows db0).
Proof.
  split.
  - intros fails now id riskData st c st' H HP. unfold updateVendorRisk in H.
    by_statement H; [exact HP|]. eapply storeGrows_trans; [exact HP|]. cbn [snd].
    split; [apply grows_refl|].
    split; [apply grows_update; apply vendor_update_keeps_key|].
    split; exists []; symmetry; apply app_nil_r.
  - intros fails vendor_id riskData st c st' H HP. unfold insertVendorRisk in H.
    by_statement H; [exact HP|]. eapply storeGrows_trans; [exact HP|]. cbn [snd].
    split; [apply grows_refl|]. split; [apply grows_insert|].
    split; exists []; symmetry; apply app_nil_r.
Qed.

(** X11. Whatever the request and whatever fails, an import removes no
    stored record and changes no identifier, no soft-delete flag and no
    natural key: the store after the call holds every risk and vendor risk
    it held before, at the same place, with the same identifier and flag,
    the same risk name (risks) or description and vendor (vendor risks),
    followed by the records the call created, and every link it held
    before, followed by the links the call created. *)
Theorem import_keeps_every_stored_record :
  forall fails now sequelize commitFails req db,
    storeGrows db (importHandler fails now sequelize commitFails req db).2.
Proof.
  intros fails now sequelize commitFails req db.
  apply (importHandler_stable (storeGrows db)).
  - intros _. apply storeGrows_projectStable.
  - intros _. apply storeGrows_vendorStable.
  - apply storeGrows_refl.
Qed.

(** The tables that an import of project risks, or of vendor risks, leaves
    alone. *)
Lemma untouched_projectStable t : projectStable (fun db => vendorRisks db = t).
Proof.
  split; [|split; [|split]].
  - intros fails now id riskData st c st' H HP. unfold updateRisk in H.
    by_statement H; exact HP.
  - intros fails now riskData st c st' H HP. unfold insertRisk in H.
    by_statement H; exact HP.
  - intros fails project_id risk_id st c st' H HP. unfold insertProjectRisk in H.
    by_statement H; exact HP.
  - intros fails framework_id risk_id st c st' H HP. unfold insertFrameworkRisk in H.
    by_statement H; exact HP.
Qed.

Lemma untouched_vendorStable t p f :
  vendorStable (fun db => risks db = t /\ projects_risks db = p /\ frameworks_risks db = f).
Proof.
  split.
  - intros fails now id riskData st c st' H HP. unfold updateVendorRisk in H.
    by_statement H; exact HP.
  - intros fails vendor_id riskData st c st' H HP. unfold insertVendorRisk in H.
    by_statement H; exact HP.
Qed.

Lemma vacuous_projectStable (P : DB -> Prop) (b : bool) :
  b = false -> b = true -> projectStable P.
Proof. intros -> H. discriminate H. Qed.

Lemma vacuous_vendorStable (P : DB -> Prop) (b : bool) :
  b = true -> b = false -> vendorStable P.
Proof. intros -> H. discriminate H. Qed.

(** X13. An import of project risks never changes the table of vendor
    risks, and an import of any other risk type never changes the table
    of risks nor the two tables of links, whatever the request and
    whatever fails. *)
Theorem import_touches_only_its_risk_type :
  forall fails now sequelize commitFails req db,
    if String.eqb (riskType req) "project"
    then vendorRisks (importHandler fails now sequelize commitFails req db).2
         = vendorRisks db
    else risks (importHandler fails now sequelize commitFails req db).2 = risks db
         /\ projects_risks (importHandler fails now sequelize commitFails req db).2
            = projects_risks db
         /\ frameworks_risks (importHandler fails now sequelize commitFails req db).2
            = frameworks_risks db.
Proof.
  intros fails now sequelize commitFails req db.
  destruct (String.eqb (riskType req) "project") eqn:E.
  - apply (importHandler_stable (fun db' => vendorRisks db' = vendorRisks db)).
    + intros _. apply untouched_projectStable.
    + apply vacuous_vendorStable. exact E.
    + reflexivity.
  - apply (importHandler_stable
             (fun db' => risks db' = risks db
                         /\ projects_risks db' = projects_risks db
                         /\ frameworks_risks db' = frameworks_risks db)).
    + apply vacuous_projectStable. exact E.
    + intros _. apply untouched_vendorStable.
    + repeat split.
Qed.


(** ** The duplicate check *)







Lemma selectFirst_head (p : Rec -> bool) (t : list Rec) :
  match head (selectFirst p t) with
  | Some r => r ∈ t /\ p r = true /\ existsb p t = true
  | None => existsb p t = false
  end.
Proof.
  unfold selectFirst. induction t as [|r t IH]; simpl; [reflexivity|].
  rewrite filter_cons. destruct (p r) eqn:E.
  - rewrite decide_True by reflexivity. simpl.
    split; [left | split; [exact E | reflexivity]].
  - rewrite decide_False by discriminate. simpl.
    destruct (head (take 1 (filter (fun r0 => p r0 = true) t))) as [r'|].
    + destruct IH as (Hin & Hp & Hex). split; [right; exact Hin | split; assumption].
    + exact IH.
Qed.

Lemma checkRow_answer fails riskType row st d st' :
  checkRow fails riskType row st = (Normal d, st') ->
  tables st' = tables st
  /\ isDuplicate d = duplicateOf riskType (tables st) row
  /\ (isDuplicate d = true ->
      exists rec k,
        rec ∈ riskTable riskType (tables st)
        /\ is_deleted rec = false
        /\ truthyText (data row) (keyField riskType) = Some k
        /\ rec_cols rec !! keyField riskType = Some (SText k)
        /\ existingRiskName d = Some k
        /\ existingRiskId d = (if rec_id rec =? 0 then None else Some (rec_id rec))).
Proof.
  unfold checkRow, duplicateOf, storedKey, lookupExisting, keyField, riskTable.
  destruct (isValid row); simpl.
  2: { unfold mret, Tx_ret. intros H. inversion H; subst. simpl.
       split; [reflexivity|]. split; [reflexivity | discriminate]. }
  unfold selectRisk, selectVendorRisk, query, mbind, Tx_bind, mret, Tx_ret.
  destruct (String.eqb riskType "project").
  - destruct (truthyText (data row) "risk_name") as [k|] eqn:Hk.
    + destruct (fails (length (issued st))) as [[m|m]|]; try discriminate.
      destruct (aborted st); [discriminate|].
      intros H. inversion H; subst; clear H. cbn [tables isDuplicate].
      split; [reflexivity|].
      pose proof (selectFirst_head (matches "risk_name" (SText k)) (risks (tables st))) as Hh.
      destruct (head (selectFirst (matches "risk_name" (SText k)) (risks (tables st))))
        as [rec|].
      * destruct Hh as (Hin & Hp & Hex). rewrite Hex.
        split; [apply bool_decide_eq_true_2; eexists; reflexivity|].
        intros _. exists rec, k. unfold matches in Hp.
        apply andb_true_iff in Hp as [Hcol Hdel].
        apply bool_decide_eq_true_1 in Hcol. apply negb_true_iff in Hdel.
        repeat (split; [assumption || reflexivity|]).
        split; [|reflexivity].
        cbn [existingRiskName]. unfold textOf. rewrite Hcol.
        unfold truthyText in Hk. destruct (data row !! "risk_name") as [s|]; [|discriminate].
        destruct (String.eqb s "") eqn:Es; [discriminate|]. inversion Hk; subst.
        rewrite Es. reflexivity.
      * rewrite Hh. split; [|discriminate].
        apply bool_decide_eq_false_2. intros [x Hx]. discriminate Hx.
    + intros H. inversion H; subst; clear H. cbn [tables isDuplicate head].
      split; [reflexivity|]. split; [reflexivity | discriminate].
  - destruct (truthyText (data row) "risk_description") as [k|] eqn:Hk.
    + destruct (fails (length (issued st))) as [[m|m]|]; try discriminate.
      destruct (aborted st); [discriminate|].
      intros H. inversion H; subst; clear H. cbn [tables isDuplicate].
      split; [reflexivity|].
      pose proof (selectFirst_head
                    (fun r => matches "risk_description" (SText k) r && true)
                    (vendorRisks (tables st))) as Hh.
      assert (Hex : existsb (fun r => matches "risk_description" (SText k) r && true)
                      (vendorRisks (tables st))
                    = existsb (matches "risk_description" (SText k))
                        (vendorRisks (tables st))).
      { clear Hh. induction (vendorRisks (tables st)) as [|r t IHt]; simpl; [reflexivity|].
        rewrite IHt, andb_true_r. reflexivity. }
      destruct (head (selectFirst
                        (fun r => matches "risk_description" (SText k) r && true)
                        (vendorRisks (tables st)))) as [rec|].
      * destruct Hh as (Hin & Hp & Hex'). rewrite <- Hex, Hex'.
        split; [apply bool_decide_eq_true_2; eexists; reflexivity|].
        intros _. exists rec, k. rewrite andb_true_r in Hp. unfold matches in Hp.
        apply andb_true_iff in Hp as [Hcol Hdel].
        apply bool_decide_eq_true_1 in Hcol. apply negb_true_iff in Hdel.
        repeat (split; [assumption || reflexivity|]).
        split; [|reflexivity].
        cbn [existingRiskName]. unfold textOf. rewrite Hcol.
        unfold truthyText in Hk.
        destruct (data row !! "risk_description") as [s|]; [|discriminate].
        destruct (String.eqb s "") eqn:Es; [discriminate|]. inversion Hk; subst.
        rewrite Es. reflexivity.
      * rewrite <- Hex, Hh. split; [|discriminate].
        apply bool_decide_eq_false_2. intros [x Hx]. discriminate Hx.
    + intros H. inversion H; subst; clear H. cbn [tables isDuplicate head].
      split; [reflexivity|]. split; [reflexivity | discriminate].
Qed.

(** What the duplicate check answers for [row] on the store [db]. *)
Lemma checkRows_answers fails riskType rows :
  forall st ds st',
    checkRows fails riskType rows st = (Normal ds, st') ->
    Forall2 (fun row d =>
               isDuplicate d = duplicateOf riskType (tables st) row
               /\ (isDuplicate d = true ->
                   exists rec k,
                     rec ∈ riskTable riskType (tables st)
                     /\ is_deleted rec = false
                     /\ truthyText (data row) (keyField riskType) = Some k
                     /\ rec_cols rec !! keyField riskType = Some (SText k)
                     /\ existingRiskName d = Some k
                     /\ existingRiskId d
                        = (if rec_id rec =? 0 then None else Some (rec_id rec))))
      rows ds.
Proof.
  induction rows as [|row rest IH]; intros st ds st'; simpl.
  - unfold mret, Tx_ret. intros H; inversion H. constructor.
  - unfold mbind, Tx_bind, mret, Tx_ret.
    destruct (checkRow fails riskType row st) as [[d|e] st1] eqn:Hrow; [|discriminate].
    destruct (checkRows fails riskType rest st1) as [[ds1|e] st2] eqn:Hrest; [|discriminate].
    intros H; inversion H; subst; clear H.
    apply checkRow_answer in Hrow as (Htab & Hd).
    apply IH in Hrest. rewrite Htab in Hrest.
    constructor; assumption.
Qed.

(** X15. When the duplicate check answers, a row is reported as a
    duplicate exactly when it is valid, has a key (risk name for project
    risks, risk description otherwise) and the store holds a record under
    that key that is not deleted; the answer then names that key and
    carries the identifier of such a record. Deleted records and rows
    without key are never duplicates. *)
Theorem checkDuplicates_reports_stored_keys :
  forall fails sequelize tenant rows riskType db duplicates summary log,
    checkDuplicates fails sequelize tenant rows riskType db
    = (CheckOk duplicates summary, log) ->
    Forall2 (fun row d =>
               isDuplicate d = duplicateOf riskType db row
               /\ (isDuplicate d = true ->
                   exists rec k,
                     rec ∈ riskTable riskType db
                     /\ is_deleted rec = false
                     /\ truthyText (data row) (keyField riskType) = Some k
                     /\ rec_cols rec !! keyField riskType = Some (SText k)
                     /\ existingRiskName d = Some k
                     /\ existingRiskId d
                        = (if rec_id rec =? 0 then None else Some (rec_id rec))))
      rows duplicates.
Proof.
  intros fails sequelize tenant rows riskType db duplicates summary log H.
  unfold checkDuplicates in H.
  destruct (noTenant tenant); [discriminate|].
  destruct (negb sequelize); [discriminate|].
  destruct (checkRows fails riskType rows (mkSession db [])) as [[ds|e] st] eqn:Hrows;
    [|discriminate].
  inversion H; subst; clear H.
  exact (checkRows_answers _ _ _ _ _ _ Hrows).
Qed.


(** ** From an import to the next duplicate check *)

Lemma matches_keeps cols c v r r' :
  keepsCols cols r r' -> c ∈ cols -> matches c v r' = matches c v r.
Proof.
  intros (_ & Hdel & Hcols) Hc. unfold matches. rewrite Hdel, (Hcols c Hc). reflexivity.
Qed.

Lemma existsb_grows cols c v t t' :
  grows cols t t' -> c ∈ cols ->
  existsb (matches c v) t = true -> existsb (matches c v) t' = true.
Proof.
  intros (kept & added & -> & HF) Hc Hex.
  rewrite existsb_app. apply orb_true_iff. left.
  induction HF as [|r r' t kept Hr _ IH]; [exact Hex|].
  simpl in *. rewrite (matches_keeps _ _ _ _ _ Hr Hc).
  apply orb_true_iff in Hex as [Hex | Hex]; apply orb_true_iff; [left | right]; auto.
Qed.

Lemma storedKey_grows riskType k db db' :
  storeGrows db db' -> storedKey riskType db k = true -> storedKey riskType db' k = true.
Proof.
  intros (Hr & Hv & _). unfold storedKey, keyField, riskTable.
  destruct (String.eqb riskType "project").
  - apply (existsb_grows _ _ _ _ _ Hr). left.
  - apply (existsb_grows _ _ _ _ _ Hv). left.
Qed.

Lemma storedKey_projectStable riskType k :
  projectStable (fun db => storedKey riskType db k = true).
Proof.
  split; [|split; [|split]]; intros; eapply storedKey_grows; try eassumption.
  - eapply (proj1 (storeGrows_projectStable _)); [eassumption | apply storeGrows_refl].
  - eapply (proj1 (proj2 (storeGrows_projectStable _)));
      [eassumption | apply storeGrows_refl].
  - eapply (proj1 (proj2 (proj2 (storeGrows_projectStable _))));
      [eassumption | apply storeGrows_refl].
  - eapply (proj2 (proj2 (proj2 (storeGrows_projectStable _))));
      [eassumption | apply storeGrows_refl].
Qed.

Lemma storedKey_vendorStable riskType k :
  vendorStable (fun db => storedKey riskType db k = true).
Proof.
  split; intros; eapply storedKey_grows; try eassumption.
  - eapply (proj1 (storeGrows_vendorStable _)); [eassumption | apply storeGrows_refl].
  - eapply (proj2 (storeGrows_vendorStable _)); [eassumption | apply storeGrows_refl].
Qed.

Lemma truthyText_lookup d f k : truthyText d f = Some k -> d !! f = Some k.
Proof.
  unfold truthyText. destruct (d !! f) as [s|]; [|discriminate].
  destruct (String.eqb s ""); [discriminate|]. congruence.
Qed.

Lemma selectFirst_found p t r rest :
  selectFirst p t = r :: rest -> existsb p t = true.
Proof.
  intros H. pose proof (selectFirst_head p t) as Hh. rewrite H in Hh.
  simpl in Hh. apply Hh.
Qed.

Lemma existsb_weaken (p q : Rec -> bool) t :
  (forall r, p r = true -> q r = true) -> existsb p t = true -> existsb q t = true.
Proof.
  intros Hpq. induction t as [|r t IH]; simpl; [discriminate|].
  intros H. apply orb_true_iff in H as [H | H]; apply orb_true_iff; [left | right]; auto.
Qed.

Lemma colsOf_cons c v (ps : list (string * option SqlVal)) :
  colsOf ((c, v) :: ps)
  = match v with Some x => <[c := x]> (colsOf ps) | None => colsOf ps end.
Proof. reflexivity. Qed.

Lemma colsOf_notin c (ps : list (string * option SqlVal)) :
  c ∉ map fst ps -> colsOf ps !! c = None.
Proof.
  induction ps as [|[c' v] ps IH]; intros Hnot; [apply lookup_empty|].
  rewrite colsOf_cons. cbn [map fst] in Hnot.
  apply not_elem_of_cons in Hnot as [Hc Hps].
  destruct v; [rewrite lookup_insert_ne by congruence|]; auto.
Qed.

Lemma colsOf_project_name now (riskData : gmap string string) :
  colsOf (projectInsertParams now riskData) !! "risk_name"
  = SText <$> riskData !! "risk_name".
Proof.
  unfold projectInsertParams. rewrite colsOf_cons. unfold raw at 1.
  destruct (riskData !! "risk_name") as [s|]; cbn [fmap option_fmap option_map].
  - apply lookup_insert_eq.
  - apply colsOf_notin.
    change ("risk_name" ∉
              [ "ai_lifecycle_phase"; "risk_description"; "risk_category"; "impact";
                "assessment_mapping"; "controls_mapping"; "likelihood"; "severity";
                "risk_level_autocalculated"; "review_notes"; "mitigation_status";
                "current_risk_level"; "deadline"; "mitigation_plan";
                "implementation_strategy"; "mitigation_evidence_document";
                "likelihood_mitigation"; "risk_severity"; "final_risk_level";
                "approval_status"; "date_of_assessment" ]).
    apply (bool_decide_unpack _). vm_compute. exact I.
Qed.

Lemma colsOf_vendor_description vendor_id (riskData : gmap string string) :
  colsOf (vendorInsertParams vendor_id riskData) !! "risk_description"
  = SText <$> riskData !! "risk_description".
Proof.
  unfold vendorInsertParams. rewrite colsOf_cons.
  assert (H : colsOf
                [ ("risk_description", raw riskData "risk_description");
                  ("impact_description", orNull riskData "impact_description");
                  ("likelihood", orNull riskData "likelihood");
                  ("risk_severity", orNull riskData "risk_severity");
                  ("action_plan", orNull riskData "action_plan");
                  ("action_owner", orNull riskData "action_owner");
                  ("risk_level", orNull riskData "risk_level") ] !! "risk_description"
              = SText <$> riskData !! "risk_description").
  { rewrite colsOf_cons. unfold raw at 1.
    destruct (riskData !! "risk_description") as [s|]; cbn [fmap option_fmap option_map].
    - apply lookup_insert_eq.
    - apply colsOf_notin.
      change ("risk_description" ∉
                [ "impact_description"; "likelihood"; "risk_severity"; "action_plan";
                  "action_owner"; "risk_level" ]).
      apply (bool_decide_unpack _). vm_compute. exact I. }
  destruct vendor_id; cbn [fmap option_fmap option_map];
    [rewrite lookup_insert_ne by discriminate|]; exact H.
Qed.

(** The insert of a project risk stores the row's name. *)
Lemma insertRisk_stores fails now riskData st newId st' k :
  insertRisk fails now riskData st = (Normal newId, st') ->
  truthyText riskData "risk_name" = Some k ->
  existsb (matches "risk_name" (SText k)) (risks (tables st')) = true.
Proof.
  intros H Hk. unfold insertRisk in H.
  apply query_tables in H as [(msg & Hc & _) | [_ H]]; [discriminate Hc|].
  rewrite H. cbn [snd risks]. rewrite existsb_app. apply orb_true_iff. right.
  cbn [existsb]. apply orb_true_iff. left.
  unfold matches. cbn [rec_cols is_deleted negb]. rewrite andb_true_r.
  apply bool_decide_eq_true_2.
  rewrite colsOf_project_name, (truthyText_lookup _ _ _ Hk). reflexivity.
Qed.

Lemma insertVendorRisk_stores fails vendor_id riskData st newId st' k :
  insertVendorRisk fails (Some vendor_id) riskData st = (Normal newId, st') ->
  truthyText riskData "risk_description" = Some k ->
  existsb (matches "risk_description" (SText k)) (vendorRisks (tables st')) = true.
Proof.
  intros H Hk. unfold insertVendorRisk in H.
  apply query_tables in H as [(msg & Hc & _) | [_ H]]; [discriminate Hc|].
  rewrite H. cbn [snd vendorRisks]. rewrite existsb_app. apply orb_true_iff. right.
  cbn [existsb]. apply orb_true_iff. left.
  unfold matches. cbn [rec_cols is_deleted negb]. rewrite andb_true_r.
  apply bool_decide_eq_true_2.
  rewrite colsOf_vendor_description, (truthyText_lookup _ _ _ Hk). reflexivity.
Qed.

Lemma overwriteKey_text duplicateAction riskData f k0 k :
  overwriteKey duplicateAction riskData f = Some k0 ->
  truthyText riskData f = Some k -> k0 = k.
Proof.
  unfold overwriteKey. destruct (String.eqb duplicateAction "overwrite"); congruence.
Qed.

Lemma createProjectRisk_stores fails now linkTo row st o st' k :
  createProjectRisk fails now linkTo row st = (Normal o, st') ->
  truthyText (data row) "risk_name" = Some k ->
  storedKey "project" (tables st') k = true.
Proof.
  intros Hrun Hk.
  destruct (storedKey_projectStable "project" k) as (_ & _ & Hpl & Hfl).
  unfold createProjectRisk, mbind, Tx_bind in Hrun.
  destruct (insertRisk fails now (data row) st) as [[newId|e] st1] eqn:E1;
    [|discriminate].
  assert (HP1 : storedKey "project" (tables st1) k = true)
    by exact (insertRisk_stores _ _ _ _ _ _ _ E1 Hk).
  destruct (match linkedAs "project" linkTo with
            | Some project_id => insertProjectRisk fails project_id newId
            | None => mret tt
            end st1) as [[u|e] st2] eqn:E2; [|discriminate].
  assert (HP2 : storedKey "project" (tables st2) k = true).
  { destruct (linkedAs "project" linkTo);
      [eapply Hpl; eassumption | inversion E2; subst; exact HP1]. }
  destruct (match linkedAs "framework" linkTo with
            | Some framework_id => insertFrameworkRisk fails framework_id newId
            | None => mret tt
            end st2) as [[u'|e] st3] eqn:E3; [|discriminate].
  assert (HP3 : storedKey "project" (tables st3) k = true).
  { destruct (linkedAs "framework" linkTo);
      [eapply Hfl; eassumption | inversion E3; subst; exact HP2]. }
  inversion Hrun; subst. exact HP3.
Qed.

Lemma importProjectRow_stores fails now duplicateAction linkTo row st o st' k :
  importProjectRow fails now duplicateAction linkTo row st = (Normal o, st') ->
  truthyText (data row) "risk_name" = Some k ->
  storedKey "project" (tables st') k = true.
Proof.
  intros Hrun Hk.
  destruct (storedKey_projectStable "project" k) as (Hupd & _).
  unfold importProjectRow in Hrun.
  destruct (overwriteKey duplicateAction (data row) "risk_name") as [k0|] eqn:Hk0;
    [|eapply createProjectRisk_stores; eassumption].
  rewrite (overwriteKey_text _ _ _ _ _ Hk0 Hk) in Hrun. clear Hk0 k0.
  unfold mbind, Tx_bind in Hrun.
  destruct (selectRisk fails k st) as [[found|e] st1] eqn:E1; [|discriminate].
  destruct found as [|existing rest]; [eapply createProjectRisk_stores; eassumption|].
  assert (HP1 : storedKey "project" (tables st1) k = true).
  { unfold selectRisk in E1.
    apply query_tables in E1 as [(msg & Hc & _) | [Hc Ht]]; [discriminate Hc|].
    rewrite Ht. cbn [fst snd] in *. inversion Hc as [Hsel].
    exact (selectFirst_found _ _ _ _ (eq_sym Hsel)). }
  destruct (updateRisk fails now (rec_id existing) (data row) st1) as [[u|e] st2] eqn:E2;
    [|discriminate].
  inversion Hrun; subst. eapply Hupd; eassumption.
Qed.

Lemma importVendorRow_stores fails now duplicateAction linkTo row st o st' k :
  importVendorRow fails now duplicateAction linkTo row st = (Normal o, st') ->
  o_success o = true ->
  truthyText (data row) "risk_description" = Some k ->
  storedKey "vendor" (tables st') k = true.
Proof.
  intros Hrun Hok Hk.
  destruct (storedKey_vendorStable "vendor" k) as (Hupd & _).
  unfold importVendorRow in Hrun.
  destruct (linkedAs "vendor" linkTo) as [vendor_id|];
    [|inversion Hrun; subst; discriminate Hok].
  assert (Hcreate : forall st0 o0 st0',
             createVendorRisk fails vendor_id row st0 = (Normal o0, st0') ->
             storedKey "vendor" (tables st0') k = true).
  { intros st0 o0 st0' Hc. unfold createVendorRisk, mbind, Tx_bind in Hc.
    destruct (insertVendorRisk fails (Some vendor_id) (data row) st0)
      as [[newId|e] st1] eqn:E1; [|discriminate].
    inversion Hc; subst. exact (insertVendorRisk_stores _ _ _ _ _ _ _ E1 Hk). }
  destruct (overwriteKey duplicateAction (data row) "risk_description") as [k0|] eqn:Hk0;
    [|eapply Hcreate; eassumption].
  rewrite (overwriteKey_text _ _ _ _ _ Hk0 Hk) in Hrun. clear Hk0 k0.
  unfold mbind, Tx_bind in Hrun.
  destruct (selectVendorRisk fails k (Some vendor_id) st) as [[found|e] st1] eqn:E1;
    [|discriminate].
  destruct found as [|existing rest]; [eapply Hcreate; eassumption|].
  assert (HP1 : storedKey "vendor" (tables st1) k = true).
  { unfold selectVendorRisk in E1.
    apply query_tables in E1 as [(msg & Hc & _) | [Hc Ht]]; [discriminate Hc|].
    rewrite Ht. cbn [fst snd] in *. inversion Hc as [Hsel].
    symmetry in Hsel. apply selectFirst_found in Hsel.
    revert Hsel. apply existsb_weaken. intros r Hr.
    apply andb_true_iff in Hr as [Hr _]. exact Hr. }
  destruct (updateVendorRisk fails now (rec_id existing) (data row) st1)
    as [[u|e] st2] eqn:E2; [|discriminate].
  inversion Hrun; subst. eapply Hupd; eassumption.
Qed.

Lemma storedKey_riskType riskType db k :
  storedKey riskType db k
  = if String.eqb riskType "project"
    then storedKey "project" db k else storedKey "vendor" db k.
Proof.
  unfold storedKey, keyField, riskTable.
  destruct (String.eqb riskType "project"); reflexivity.
Qed.

Lemma processRow_stores fails now duplicateActions riskType linkTo row st k :
  let r := processRow fails now duplicateActions riskType linkTo row st in
  o_success r.1 = true ->
  o_action r.1 <> "skipped" ->
  truthyText (data row) (keyField riskType) = Some k ->
  isValid row = true /\ storedKey riskType (tables r.2) k = true.
Proof.
  unfold processRow.
  destruct (isValid row); cbn [negb]; [|intros Hok; discriminate Hok].
  destruct (String.eqb (actionFor duplicateActions row) "skip");
    [intros _ Hskip; exfalso; apply Hskip; reflexivity|].
  destruct (importRow fails now riskType (actionFor duplicateActions row) linkTo row st)
    as [[o|msg] st'] eqn:Hrun; cbn [fst snd]; [|intros Hok; discriminate Hok].
  intros Hok _ Hk. split; [reflexivity|].
  rewrite storedKey_riskType. unfold importRow in Hrun. unfold keyField in Hk.
  destruct (String.eqb riskType "project").
  - eapply importProjectRow_stores; eassumption.
  - eapply importVendorRow_stores; eassumption.
Qed.

Lemma processRows_store fails now duplicateActions riskType linkTo rows :
  forall st os st',
    processRows fails now duplicateActions riskType linkTo rows st = (Normal os, st') ->
    Forall2 (fun row o =>
               o_success o = true -> o_action o <> "skipped" ->
               forall k, truthyText (data row) (keyField riskType) = Some k ->
                         isValid row = true
                         /\ storedKey riskType (tables st') k = true)
      rows os.
Proof.
  induction rows as [|row rest IH]; intros st os st' Hrun; simpl in Hrun.
  { inversion Hrun; subst. constructor. }
  destruct (escapes duplicateActions row); [discriminate Hrun|].
  pose proof (processRow_stores fails now (default ∅ duplicateActions) riskType linkTo
                row st) as Hrow.
  destruct (processRow fails now (default ∅ duplicateActions) riskType linkTo row st)
    as [o st1].
  pose proof (fun k => processRows_stable (fun db => storedKey riskType db k = true)
                fails now duplicateActions riskType linkTo rest
                (fun _ => storedKey_projectStable riskType k)
                (fun _ => storedKey_vendorStable riskType k) st1) as Hkeep.
  destruct (processRows fails now duplicateActions riskType linkTo rest st1)
    as [[os1|message] st2] eqn:Hrest; [|discriminate Hrun].
  inversion Hrun; subst; clear Hrun.
  cbn [fst snd] in *. constructor; [|exact (IH _ _ _ Hrest)].
  intros Hok Hskip k Hk. destruct (Hrow k Hok Hskip Hk) as [Hv Hs].
  split; [exact Hv | exact (Hkeep k Hs)].
Qed.

(** When no statement fails, a transaction that is not aborted runs every
    row and is not aborted at the end. *)
Lemma createProjectRisk_live fails now linkTo row st :
  (forall n, fails n = None) ->
  aborted st = false ->
  exists o st',
    createProjectRisk fails now linkTo row st = (Normal o, st') /\ aborted st' = false.
Proof.
  intros Hf Hlive.
  unfold createProjectRisk, insertRisk, insertProjectRisk, insertFrameworkRisk,
    mbind, Tx_bind, mret, Tx_ret.
  rewrite query_runs by (try apply Hf; assumption). cbn [fst snd].
  destruct (linkedAs "project" linkTo); destruct (linkedAs "framework" linkTo);
    repeat (rewrite query_runs by (try apply Hf; reflexivity); cbn [fst snd]);
    eexists _, _; split; reflexivity.
Qed.

Lemma createVendorRisk_live fails vendor_id row st :
  (forall n, fails n = None) ->
  aborted st = false ->
  exists o st',
    createVendorRisk fails vendor_id row st = (Normal o, st') /\ aborted st' = false.
Proof.
  intros Hf Hlive. unfold createVendorRisk, insertVendorRisk, mbind, Tx_bind, mret, Tx_ret.
  rewrite query_runs by (try apply Hf; assumption). cbn [fst snd].
  eexists _, _; split; reflexivity.
Qed.

Lemma importRow_live fails now riskType duplicateAction linkTo row st :
  (forall n, fails n = None) ->
  aborted st = false ->
  exists o st',
    importRow fails now riskType duplicateAction linkTo row st = (Normal o, st')
    /\ aborted st' = false.
Proof.
  intros Hf Hlive. unfold importRow. destruct (String.eqb riskType "project").
  - unfold importProjectRow.
    destruct (overwriteKey duplicateAction (data row) "risk_name") as [k|];
      [|apply createProjectRisk_live; assumption].
    unfold selectRisk, mbind, Tx_bind.
    rewrite query_runs by (try apply Hf; assumption). cbn [fst snd].
    destruct (selectFirst _ _) as [|existing rest];
      [apply createProjectRisk_live; [assumption | reflexivity]|].
    unfold updateRisk. rewrite query_runs by (try apply Hf; reflexivity).
    eexists _, _; split; reflexivity.
  - unfold importVendorRow.
    destruct (linkedAs "vendor" linkTo) as [vendor_id|];
      [|eexists _, _; split; [reflexivity | exact Hlive]].
    destruct (overwriteKey duplicateAction (data row) "risk_description") as [k|];
      [|apply createVendorRisk_live; assumption].
    unfold selectVendorRisk, mbind, Tx_bind.
    rewrite query_runs by (try apply Hf; assumption). cbn [fst snd].
    destruct (selectFirst _ _) as [|existing rest];
      [apply createVendorRisk_live; [assumption | reflexivity]|].
    unfold updateVendorRisk. rewrite query_runs by (try apply Hf; reflexivity).
    eexists _, _; split; reflexivity.
Qed.

Lemma processRow_live fails now duplicateActions riskType linkTo row st :
  (forall n, fails n = None) ->
  aborted st = false ->
  aborted (processRow fails now duplicateActions riskType linkTo row st).2 = false.
Proof.
  intros Hf Hlive. unfold processRow.
  destruct (negb (isValid row)); [exact Hlive|].
  destruct (String.eqb (actionFor duplicateActions row) "skip"); [exact Hlive|].
  destruct (importRow_live fails now riskType (actionFor duplicateActions row) linkTo
              row st Hf Hlive) as (o & st' & -> & Hlive').
  exact Hlive'.
Qed.

Lemma processRows_live fails now duplicateActions riskType linkTo rows :
  (forall n, fails n = None) ->
  forall st,
    aborted st = false ->
    aborted (processRows fails now duplicateActions riskType linkTo rows st).2 = false.
Proof.
  intros Hf. induction rows as [|row rest IH]; intros st Hlive; simpl; [exact Hlive|].
  destruct (escapes duplicateActions row); [exact Hlive|].
  pose proof (processRow_live fails now (default ∅ duplicateActions) riskType linkTo
                row st Hf Hlive) as H1.
  destruct (processRow fails now (default ∅ duplicateActions) riskType linkTo row st)
    as [o st1].
  specialize (IH st1 H1).
  destruct (processRows fails now duplicateActions riskType linkTo rest st1)
    as [[os|message] st2]; exact IH.
Qed.

Lemma import_then_check :
  forall fails now req db results summary db'
         fails' tenant duplicates summary' log,
    (forall n, fails n = None) ->
    importHandler fails now true None req db = (ImportOk results summary, db') ->
    checkDuplicates fails' true tenant (validatedRows req) (riskType req) db'
    = (CheckOk duplicates summary', log) ->
    Forall3 (fun row o d =>
               o_success o = true -> o_action o <> "skipped" ->
               is_Some (truthyText (data row) (keyField (riskType req))) ->
               isDuplicate d = true)
      (validatedRows req) results duplicates.
Proof.
  intros fails now req db results summary db' fails' tenant duplicates summary' log
         Hf Himp Hchk.
  unfold importHandler in Himp. cbn [negb] in Himp.
  destruct (noTenant (tenantId req)); [discriminate|].
  pose proof (processRows_live fails now (duplicateActions req) (riskType req)
                (linkTo req) (validatedRows req) Hf (mkSession db []) eq_refl) as Hlive.
  destruct (processRows fails now (duplicateActions req) (riskType req) (linkTo req)
              (validatedRows req) (mkSession db [])) as [[os|message] st] eqn:Hrun;
    [|discriminate].
  apply processRows_store in Hrun. rename Hrun into Hst.
  cbn [snd] in Hlive. unfold committed in Himp. rewrite Hlive in Himp.
  inversion Himp; subst; clear Himp.
  unfold checkDuplicates in Hchk.
  destruct (noTenant tenant); [discriminate|]. cbn [negb] in Hchk.
  destruct (checkRows fails' (riskType req) (validatedRows req) (mkSession (tables st) []))
    as [[ds|e] st2] eqn:Hrows; [|discriminate].
  inversion Hchk; subst; clear Hchk.
  apply checkRows_answers in Hrows. cbn [tables mkSession] in Hrows.
  revert Hst Hrows. generalize (tables st) as dbx. intros dbx Hst.
  revert duplicates.
  induction Hst as [|row o rows os' Ho _ IH]; intros duplicates Hds.
  - inversion Hds; subst. constructor.
  - inversion Hds as [|? d ? ds' [Hd _] Hds']; subst.
    constructor; [|apply IH; exact Hds'].
    intros Hok Hskip [k Hk]. destruct (Ho Hok Hskip k Hk) as [Hv Hs].
    rewrite Hd. unfold duplicateOf. rewrite Hv, Hk. exact Hs.
Qed.

(** X16. Import, then check again: after an import in which no statement
    throws and that commits, every row that was created or overwritten
    and has a key (risk name for project risks, risk description
    otherwise) is reported as a duplicate by a duplicate check of the same
    rows. *)
Theorem imported_rows_are_duplicates_afterwards :
  forall fails now req db results summary db'
         fails' tenant duplicates summary' log,
    (forall n, fails n = None) ->
    importHandler fails now true None req db = (ImportOk results summary, db') ->
    checkDuplicates fails' true tenant (validatedRows req) (riskType req) db'
    = (CheckOk duplicates summary', log) ->
    Forall3 (fun row o d =>
               o_success o = true -> o_action o <> "skipped" ->
               is_Some (truthyText (data row) (keyField (riskType req))) ->
               isDuplicate d = true)
      (validatedRows req) results duplicates.
Proof.
  intros fails now req db results summary db' fails' tenant duplicates summary' log
         Hf Himp Hchk.
  exact (import_then_check _ _ _ _ _ _ _ _ _ _ _ _ Hf Himp Hchk).
Qed.

Lemma checkDuplicates_reports_stored_keys_witness :
  exists duplicates summary log,
    checkDuplicates noFailure true (Some "tenant_a") [leakRow; outageRow] "project" smallDB
    = (CheckOk duplicates summary, log)
    /\ map isDuplicate duplicates = [true; false]
    /\ map (duplicateOf "project" smallDB) [leakRow; outageRow] = [true; false].
Proof.
  assert (E : checkDuplicates noFailure true (Some "tenant_a") [leakRow; outageRow]
                "project" smallDB
              = (CheckOk
                   [ mkDuplicateResult 3 (Some 1) (Some "Data leak") true;
                     mkDuplicateResult 2 None None false ]
                   (mkDuplicateSummary 2 1 1),
                 [SelectRisk "Data leak"; SelectRisk "Server outage"])).
  { vm_compute. reflexivity. }
  do 3 eexists. split; [exact E|].
  pose proof (checkDuplicates_reports_stored_keys _ _ _ _ _ _ _ _ _ E) as H.
  apply Forall2_cons_1 in H as [[H1 _] H].
  apply Forall2_cons_1 in H as [[H2 _] _].
  split; [reflexivity|].
  cbn [map]. rewrite <- H1, <- H2. reflexivity.
Defined.

Lemma imported_rows_are_duplicates_afterwards_witness :
  exists results summary db' duplicates summary' log,
    importHandler noFailure clock true None mixedRequest smallDB
    = (ImportOk results summary, db')
    /\ map o_action results = ["created"; "overwritten"]
    /\ checkDuplicates noFailure true (Some "tenant_a") (validatedRows mixedRequest)
         (riskType mixedRequest) db'
       = (CheckOk duplicates summary', log)
    /\ map isDuplicate duplicates = [true; true].
Proof.
  assert (E : importHandler noFailure clock true None mixedRequest smallDB
              = (ImportOk
                   [ mkOutcome 2 true "created" (Some 2) None;
                     mkOutcome 3 true "overwritten" (Some 1) None ]
                   (mkImportSummary 2 2 1 1 0 0),
                 (importHandler noFailure clock true None mixedRequest smallDB).2)).
  { vm_compute. reflexivity. }
  assert (E' : checkDuplicates noFailure true (Some "tenant_a")
                 (validatedRows mixedRequest) (riskType mixedRequest)
                 (importHandler noFailure clock true None mixedRequest smallDB).2
               = (CheckOk
                    [ mkDuplicateResult 2 (Some 2) (Some "Server outage") true;
                      mkDuplicateResult 3 (Some 1) (Some "Data leak") true ]
                    (mkDuplicateSummary 2 2 0),
                  [SelectRisk "Server outage"; SelectRisk "Data leak"])).
  { vm_compute. reflexivity. }
  do 6 eexists. split; [exact E|]. split; [reflexivity|]. split; [exact E'|].
  pose proof (imported_rows_are_duplicates_afterwards _ _ _ _ _ _ _ _ _ _ _ _
                (fun _ => eq_refl) E E') as H.
  inversion H as [|? ? ? ? ? ? H1 H']; subst.
  inversion H' as [|? ? ? ? ? ? H2 _]; subst.
  cbn [map]. 
  rewrite (H1 eq_refl ltac:(discriminate) ltac:(eexists; reflexivity)).
  rewrite (H2 eq_refl ltac:(discriminate) ltac:(eexists; reflexivity)).
  reflexivity.
Defined.


(** ** Rows that are created without a lookup *)

Lemma overwriteKey_other duplicateAction riskData f :
  duplicateAction <> "overwrite" -> overwriteKey duplicateAction riskData f = None.
Proof.
  intros H. unfold overwriteKey. rewrite (eqb_false_of_neq _ _ H). reflexivity.
Qed.

(** X17. Only [overwrite] looks for an existing record. A valid row with
    any other action than [skip] and [overwrite] is created, whatever the
    store holds: when its statements do not throw (the transaction is not
    aborted and none fails of its own), the importer issues the insert
    (and the link statements of a project risk) and no lookup, and the
    table gains one record, under a new identifier, that carries the row's
    key. *)
Theorem other_actions_create_without_lookup :
  forall fails now duplicateActions riskType linkTo row st,
    isValid row = true ->
    actionFor duplicateActions row <> "skip" ->
    actionFor duplicateActions row <> "overwrite" ->
    (String.eqb riskType "project" = false -> is_Some (linkedAs "vendor" linkTo)) ->
    aborted st = false ->
    (forall n, (length (issued st) <= n)%nat -> fails n = None) ->
    exists st' r,
      processRow fails now duplicateActions riskType linkTo row st
      = (mkOutcome (rowIndex row) true "created"
           (Some (nextId (riskTable riskType (tables st)))) None, st')
      /\ riskTable riskType (tables st') = (riskTable riskType (tables st) ++ [r])%list
      /\ rec_id r = nextId (riskTable riskType (tables st))
      /\ is_deleted r = false
      /\ rec_cols r !! keyField riskType = SText <$> data row !! keyField riskType
      /\ issued st'
         = (issued st
            ++ createStmts riskType linkTo (nextId (riskTable riskType (tables st))))%list.
Proof.
  intros fails now das rt lt row st Hvalid Hskip Hover Hvendor Hlive Hfails.
  unfold processRow. rewrite Hvalid. cbn [negb].
  rewrite (eqb_false_of_neq _ _ Hskip).
  unfold importRow, riskTable, keyField, createStmts.
  destruct (String.eqb rt "project").
  - unfold importProjectRow. rewrite (overwriteKey_other _ _ _ Hover).
    unfold createProjectRisk, insertRisk, insertProjectRisk, insertFrameworkRisk,
      mbind, Tx_bind, mret, Tx_ret, linkStmts.
    rewrite query_runs by (try apply Hfails; try assumption; lia). cbn [fst snd].
    destruct (linkedAs "project" lt); destruct (linkedAs "framework" lt);
      repeat (rewrite query_runs
                by (try apply Hfails; cbn [issued aborted];
                    rewrite ?length_app; cbn [length]; try reflexivity; lia);
              cbn [fst snd tables issued]);
      (do 2 eexists; split; [reflexivity|]; cbn [tables risks issued];
       split; [reflexivity|]; split; [reflexivity|]; split; [reflexivity|];
       split; [apply colsOf_project_name|];
       rewrite <- ?app_assoc; reflexivity).
  - destruct (Hvendor eq_refl) as [vendor_id Hlink].
    unfold importVendorRow. rewrite Hlink, (overwriteKey_other _ _ _ Hover).
    unfold createVendorRisk, insertVendorRisk, mbind, Tx_bind, mret, Tx_ret.
    rewrite query_runs by (try apply Hfails; try assumption; lia). cbn [fst snd].
    do 2 eexists; split; [reflexivity|]; cbn [tables vendorRisks issued].
    split; [reflexivity|]. split; [reflexivity|]. split; [reflexivity|].
    split; [apply colsOf_vendor_description | reflexivity].
Qed.

Lemma other_actions_create_without_lookup_witness :
  exists st' r,
    processRow noFailure clock ∅ "project" projectLink leakRow (mkSession smallDB [])
    = (mkOutcome 3 true "created" (Some 2) None, st')
    /\ risks (tables st') = (risks smallDB ++ [r])%list
    /\ rec_cols r !! "risk_name" = Some (SText "Data leak")
    /\ issued st' = [InsertRisk; InsertProjectRisk 5 2].
Proof.
  destruct (other_actions_create_without_lookup noFailure clock (∅ : gmap Z string)
              "project" projectLink leakRow (mkSession smallDB []))
    as (st' & r & Hrun & Htab & _ & _ & Hkey & Hlog);
    [ reflexivity
    | intros H; vm_compute in H; discriminate H
    | intros H; vm_compute in H; discriminate H
    | intros H; vm_compute in H; discriminate H
    | reflexivity
    | intros n _; reflexivity
    | ].
  exists st', r. split; [exact Hrun|]. split; [exact Htab|].
  split; [exact Hkey | exact Hlog].
Defined.


(** ** The identifiers that an import reports *)

Lemma keeps_ids cols (t kept : list Rec) :
  Forall2 (keepsCols cols) t kept -> map rec_id kept = map rec_id t.
Proof.
  induction 1 as [|r r' t kept (Hid & _) _ IH]; [reflexivity|].
  simpl. rewrite Hid, IH. reflexivity.
Qed.

Lemma grows_ids cols t t' id :
  grows cols t t' -> id ∈ map rec_id t -> id ∈ map rec_id t'.
Proof.
  intros (kept & added & -> & HF) Hin.
  rewrite map_app, (keeps_ids _ _ _ HF). apply elem_of_app. left. exact Hin.
Qed.

Lemma hasId_grows riskType id db db' :
  storeGrows db db' -> hasId riskType db id -> hasId riskType db' id.
Proof.
  intros (Hr & Hv & _). unfold hasId, riskTable.
  destruct (String.eqb riskType "project"); eapply grows_ids; eassumption.
Qed.

Lemma hasId_projectStable riskType id : projectStable (fun db => hasId riskType db id).
Proof.
  split; [|split; [|split]]; intros; eapply hasId_grows; try eassumption.
  - eapply (proj1 (storeGrows_projectStable _)); [eassumption | apply storeGrows_refl].
  - eapply (proj1 (proj2 (storeGrows_projectStable _)));
      [eassumption | apply storeGrows_refl].
  - eapply (proj1 (proj2 (proj2 (storeGrows_projectStable _))));
      [eassumption | apply storeGrows_refl].
  - eapply (proj2 (proj2 (proj2 (storeGrows_projectStable _))));
      [eassumption | apply storeGrows_refl].
Qed.

Lemma hasId_vendorStable riskType id : vendorStable (fun db => hasId riskType db id).
Proof.
  split; intros; eapply hasId_grows; try eassumption.
  - eapply (proj1 (storeGrows_vendorStable _)); [eassumption | apply storeGrows_refl].
  - eapply (proj2 (storeGrows_vendorStable _)); [eassumption | apply storeGrows_refl].
Qed.

Lemma selectFirst_elem (p : Rec -> bool) t r rest :
  selectFirst p t = r :: rest -> r ∈ t.
Proof.
  intros H. pose proof (selectFirst_head p t) as Hh. rewrite H in Hh.
  simpl in Hh. apply Hh.
Qed.

Lemma createProjectRisk_id fails now linkTo row st o st' :
  createProjectRisk fails now linkTo row st = (Normal o, st') ->
  reportsStoredId "project" (tables st') o.
Proof.
  intros Hrun.
  unfold createProjectRisk, mbind, Tx_bind in Hrun.
  destruct (insertRisk fails now (data row) st) as [[newId|e] st1] eqn:E1;
    [|discriminate].
  destruct (hasId_projectStable "project" newId) as (_ & _ & Hpl & Hfl).
  assert (HP1 : hasId "project" (tables st1) newId).
  { unfold insertRisk in E1.
    apply query_tables in E1 as [(msg & Hc & _) | [Hc Ht]]; [discriminate Hc|].
    rewrite Ht. cbn [fst snd] in *. inversion Hc; subst.
    unfold hasId. change (riskTable "project" ?d) with (risks d). cbn [risks].
    rewrite map_app. apply elem_of_app. right. left. }
  destruct (match linkedAs "project" linkTo with
            | Some project_id => insertProjectRisk fails project_id newId
            | None => mret tt
            end st1) as [[u|e] st2] eqn:E2; [|discriminate].
  assert (HP2 : hasId "project" (tables st2) newId).
  { destruct (linkedAs "project" linkTo);
      [eapply Hpl; eassumption | inversion E2; subst; exact HP1]. }
  destruct (match linkedAs "framework" linkTo with
            | Some framework_id => insertFrameworkRisk fails framework_id newId
            | None => mret tt
            end st2) as [[u'|e] st3] eqn:E3; [|discriminate].
  assert (HP3 : hasId "project" (tables st3) newId).
  { destruct (linkedAs "framework" linkTo);
      [eapply Hfl; eassumption | inversion E3; subst; exact HP2]. }
  inversion Hrun; subst. split; [left; reflexivity | exact HP3].
Qed.

Lemma importProjectRow_id fails now duplicateAction linkTo row st o st' :
  importProjectRow fails now duplicateAction linkTo row st = (Normal o, st') ->
  reportsStoredId "project" (tables st') o.
Proof.
  intros Hrun. unfold importProjectRow in Hrun.
  destruct (overwriteKey duplicateAction (data row) "risk_name") as [k|];
    [|eapply createProjectRisk_id; eassumption].
  unfold mbind, Tx_bind in Hrun.
  destruct (selectRisk fails k st) as [[found|e] st1] eqn:E1; [|discriminate].
  destruct found as [|existing rest]; [eapply createProjectRisk_id; eassumption|].
  destruct (hasId_projectStable "project" (rec_id existing)) as (Hupd & _).
  assert (HP1 : hasId "project" (tables st1) (rec_id existing)).
  { unfold selectRisk in E1.
    apply query_tables in E1 as [(msg & Hc & _) | [Hc Ht]]; [discriminate Hc|].
    rewrite Ht. cbn [fst snd] in *. inversion Hc as [Hsel]. symmetry in Hsel.
    apply selectFirst_elem in Hsel.
    unfold hasId. change (riskTable "project" ?d) with (risks d).
    apply list_elem_of_fmap. exists existing. split; [reflexivity | exact Hsel]. }
  destruct (updateRisk fails now (rec_id existing) (data row) st1) as [[u|e] st2] eqn:E2;
    [|discriminate].
  inversion Hrun; subst. split; [right; reflexivity|]. eapply Hupd; eassumption.
Qed.

Lemma importVendorRow_id fails now duplicateAction linkTo row st o st' :
  importVendorRow fails now duplicateAction linkTo row st = (Normal o, st') ->
  reportsStoredId "vendor" (tables st') o.
Proof.
  intros Hrun. unfold importVendorRow in Hrun.
  destruct (linkedAs "vendor" linkTo) as [vendor_id|];
    [|inversion Hrun; subst; unfold reportsStoredId, errorOutcome;
      cbn [o_riskId o_action]; right; reflexivity].
  assert (Hcreate : forall st0 o0 st0',
             createVendorRisk fails vendor_id row st0 = (Normal o0, st0') ->
             reportsStoredId "vendor" (tables st0') o0).
  { intros st0 o0 st0' Hc. unfold createVendorRisk, mbind, Tx_bind in Hc.
    destruct (insertVendorRisk fails (Some vendor_id) (data row) st0)
      as [[newId|e] st1] eqn:E1; [|discriminate].
    inversion Hc; subst. split; [left; reflexivity|].
    unfold insertVendorRisk in E1.
    apply query_tables in E1 as [(msg & Hc' & _) | [Hc' Ht]]; [discriminate Hc'|].
    rewrite Ht. cbn [fst snd] in *. inversion Hc'; subst.
    unfold hasId. change (riskTable "vendor" ?d) with (vendorRisks d). cbn [vendorRisks].
    rewrite map_app. apply elem_of_app. right. left. }
  destruct (overwriteKey duplicateAction (data row) "risk_description") as [k|];
    [|eapply Hcreate; eassumption].
  unfold mbind, Tx_bind in Hrun.
  destruct (selectVendorRisk fails k (Some vendor_id) st) as [[found|e] st1] eqn:E1;
    [|discriminate].
  destruct found as [|existing rest]; [eapply Hcreate; eassumption|].
  destruct (hasId_vendorStable "vendor" (rec_id existing)) as (Hupd & _).
  assert (HP1 : hasId "vendor" (tables st1) (rec_id existing)).
  { unfold selectVendorRisk in E1.
    apply query_tables in E1 as [(msg & Hc & _) | [Hc Ht]]; [discriminate Hc|].
    rewrite Ht. cbn [fst snd] in *. inversion Hc as [Hsel]. symmetry in Hsel.
    apply selectFirst_elem in Hsel.
    unfold hasId. change (riskTable "vendor" ?d) with (vendorRisks d).
    apply list_elem_of_fmap. exists existing. split; [reflexivity | exact Hsel]. }
  destruct (updateVendorRisk fails now (rec_id existing) (data row) st1)
    as [[u|e] st2] eqn:E2; [|discriminate].
  inversion Hrun; subst. split; [right; reflexivity|]. eapply Hupd; eassumption.
Qed.

Lemma reportsStoredId_riskType riskType db o :
  reportsStoredId riskType db o
  <-> if String.eqb riskType "project"
      then reportsStoredId "project" db o else reportsStoredId "vendor" db o.
Proof.
  unfold reportsStoredId, hasId, riskTable.
  destruct (String.eqb riskType "project"); reflexivity.
Qed.

Lemma processRow_id fails now duplicateActions riskType linkTo row st :
  reportsStoredId riskType
    (tables (processRow fails now duplicateActions riskType linkTo row st).2)
    (processRow fails now duplicateActions riskType linkTo row st).1.
Proof.
  unfold processRow.
  destruct (negb (isValid row));
    [unfold reportsStoredId, errorOutcome; cbn; right; reflexivity|].
  destruct (String.eqb (actionFor duplicateActions row) "skip");
    [unfold reportsStoredId; cbn; left; reflexivity|].
  destruct (importRow fails now riskType (actionFor duplicateActions row) linkTo row st)
    as [[o|msg] st'] eqn:Hrun; cbn [fst snd];
    [|unfold reportsStoredId, errorOutcome; cbn; right; reflexivity].
  apply reportsStoredId_riskType. unfold importRow in Hrun.
  destruct (String.eqb riskType "project").
  - eapply importProjectRow_id; eassumption.
  - eapply importVendorRow_id; eassumption.
Qed.

Lemma reportsStoredId_keeps riskType db db' o :
  (forall id, hasId riskType db id -> hasId riskType db' id) ->
  reportsStoredId riskType db o -> reportsStoredId riskType db' o.
Proof.
  unfold reportsStoredId. intros Hkeep. destruct (o_riskId o) as [id|]; [|auto].
  intros [Ha Hid]. split; [exact Ha | apply Hkeep; exact Hid].
Qed.

Lemma processRows_ids fails now duplicateActions riskType linkTo rows :
  forall st os st',
    processRows fails now duplicateActions riskType linkTo rows st = (Normal os, st') ->
    Forall (reportsStoredId riskType (tables st')) os.
Proof.
  induction rows as [|row rest IH]; intros st os st' Hrun; simpl in Hrun.
  { inversion Hrun; subst. constructor. }
  destruct (escapes duplicateActions row); [discriminate Hrun|].
  pose proof (processRow_id fails now (default ∅ duplicateActions) riskType linkTo row st)
    as Hrow.
  destruct (processRow fails now (default ∅ duplicateActions) riskType linkTo row st)
    as [o st1].
  pose proof (fun id => processRows_stable (fun db => hasId riskType db id)
                fails now duplicateActions riskType linkTo rest
                (fun _ => hasId_projectStable riskType id)
                (fun _ => hasId_vendorStable riskType id) st1) as Hkeep.
  destruct (processRows fails now duplicateActions riskType linkTo rest st1)
    as [[os1|message] st2] eqn:Hrest; [|discriminate Hrun].
  inversion Hrun; subst; clear Hrun.
  cbn [fst snd] in *. constructor; [|exact (IH _ _ _ Hrest)].
  eapply reportsStoredId_keeps; [|exact Hrow]. exact Hkeep.
Qed.

(** X18. After an import in which no statement throws and that commits,
    every outcome that is [created] or [overwritten] reports the
    identifier of a record that the store then holds in the table of the
    risk type, and the other outcomes report no identifier. *)
Theorem import_reports_stored_identifiers :
  forall fails now req db results summary db',
    (forall n, fails n = None) ->
    importHandler fails now true None req db = (ImportOk results summary, db') ->
    Forall (reportsStoredId (riskType req) db') results.
Proof.
  intros fails now req db results summary db' Hf Himp.
  unfold importHandler in Himp. cbn [negb] in Himp.
  destruct (noTenant (tenantId req)); [discriminate|].
  pose proof (processRows_live fails now (duplicateActions req) (riskType req)
                (linkTo req) (validatedRows req) Hf (mkSession db []) eq_refl) as Hlive.
  destruct (processRows fails now (duplicateActions req) (riskType req) (linkTo req)
              (validatedRows req) (mkSession db [])) as [[os|message] st] eqn:Hrun;
    [|discriminate].
  apply processRows_ids in Hrun.
  cbn [snd] in Hlive. unfold committed in Himp. rewrite Hlive in Himp.
  inversion Himp; subst. exact Hrun.
Qed.

Lemma import_reports_stored_identifiers_witness :
  exists results summary db',
    importHandler noFailure clock true None mixedRequest smallDB
    = (ImportOk results summary, db')
    /\ map o_riskId results = [Some 2; Some 1]
    /\ Forall (reportsStoredId "project" db') results.
Proof.
  assert (E : importHandler noFailure clock true None mixedRequest smallDB
              = (ImportOk
                   [ mkOutcome 2 true "created" (Some 2) None;
                     mkOutcome 3 true "overwritten" (Some 1) None ]
                   (mkImportSummary 2 2 1 1 0 0),
                 (importHandler noFailure clock true None mixedRequest smallDB).2)).
  { vm_compute. reflexivity. }
  do 3 eexists. split; [exact E|]. split; [reflexivity|].
  exact (import_reports_stored_identifiers _ _ _ _ _ _ _ (fun _ => eq_refl) E).
Defined.


(** ** What validation changes in the mapped data *)

Lemma autoCalcStep_keeps native_member autoCalculate riskType (m m' : gmap string Value) :
  autoCalcStep native_member autoCalculate riskType m = Normal m' ->
  (forall k, k <> levelKey riskType -> m' !! k = m !! k)
  /\ (autoCalculate = false -> m' = m).
Proof.
  unfold autoCalcStep, levelKey.
  destruct autoCalculate; [|intros H; inversion H; split; reflexivity].
  destruct (String.eqb riskType "project").
  - destruct (calculateRiskLevel native_member (read m "likelihood") (read m "severity"))
      as [v|e]; cbn [cbind]; [|discriminate].
    intros H; inversion H; subst; clear H. split; [|discriminate].
    intros k Hk. destruct (truthy v); [|reflexivity].
    apply lookup_insert_ne. congruence.
  - destruct (String.eqb riskType "vendor");
      [|intros H; inversion H; split; [reflexivity | discriminate]].
    destruct (calculateRiskLevel native_member (read m "likelihood")
                (read m "risk_severity")) as [v|e]; cbn [cbind]; [|discriminate].
    intros H; inversion H; subst; clear H. split; [|discriminate].
    intros k Hk. destruct (truthy v); [|reflexivity].
    apply lookup_insert_ne. congruence.
Qed.

Lemma dateStep_deadline parseDate (riskType : string) (errors0 : list string)
    (m : gmap string Value) :
  (dateStep parseDate (fieldsFor riskType) (errors0, m)).2 !! "deadline"
  = if String.eqb riskType "vendor" then m !! "deadline"
    else if truthy (read m "deadline") then
           match parseDate (read m "deadline") with
           | Some iso => Some (VStr iso)
           | None => m !! "deadline"
           end
         else m !! "deadline".
Proof.
  unfold fieldsFor. destruct (String.eqb riskType "vendor").
  - rewrite dateStep_vendor. reflexivity.
  - unfold dateStep. rewrite project_date_fields.
    cbn [fold_left field label type fst snd].
    destruct (truthy (read m "deadline")); [|reflexivity].
    destruct (parseDate (read m "deadline")) as [iso|]; cbn [fst snd]; [|reflexivity].
    apply lookup_insert_eq.
Qed.

(** X20. Validation passes the mapped values through. When the validation
    of a row completes, its data are the mapped data except under two
    fields: the deadline, which for the schemas that have it is replaced
    by the ISO text of its date when it has a value that parses, and the
    level field of the risk type, which only auto-calculation writes. *)
Theorem validation_passes_values_through :
  forall native_member parseDate autoCalculate riskType mapping row r,
    validateRow native_member parseDate autoCalculate riskType mapping row = Normal r ->
    (forall k, k <> "deadline" -> k <> levelKey riskType ->
               mr_data r !! k = applyMapping mapping (pr_data row) !! k)
    /\ (autoCalculate = false ->
        mr_data r !! levelKey riskType
        = applyMapping mapping (pr_data row) !! levelKey riskType)
    /\ mr_data r !! "deadline"
       = if String.eqb riskType "vendor"
         then applyMapping mapping (pr_data row) !! "deadline"
         else if truthy (read (applyMapping mapping (pr_data row)) "deadline") then
                match parseDate (read (applyMapping mapping (pr_data row)) "deadline") with
                | Some iso => Some (VStr iso)
                | None => applyMapping mapping (pr_data row) !! "deadline"
                end
              else applyMapping mapping (pr_data row) !! "deadline".
Proof.
  intros native_member parseDate autoCalculate riskType mapping row r Hr.
  destruct (validateRow_inv _ _ _ _ _ _ _ Hr) as (_ & _ & _ & Hcalc).
  cbv zeta in Hcalc.
  set (mapped := applyMapping mapping (pr_data row)) in *.
  set (errors0 := app (requiredErrors (fieldsFor riskType) mapped)
                      (enumErrors (fieldsFor riskType) mapped)) in *.
  destruct (dateStep_errors parseDate riskType errors0 mapped) as (_ & _ & _ & Hkeep).
  pose proof (dateStep_deadline parseDate riskType errors0 mapped) as Hdate.
  destruct (autoCalcStep_keeps _ _ _ _ _ Hcalc) as [Hother Hoff].
  assert (Hne : "deadline" <> levelKey riskType).
  { unfold levelKey. destruct (String.eqb riskType "project"); discriminate. }
  split; [|split].
  - intros k Hk Hl. rewrite (Hother k Hl). apply Hkeep. exact Hk.
  - intros Hac. rewrite (Hoff Hac). apply Hkeep. congruence.
  - rewrite (Hother "deadline" Hne). exact Hdate.
Qed.

Lemma validation_passes_values_through_witness :
  mr_data ratedMapped !! "risk_name"
  = applyMapping ratedMapping (pr_data ratedParsed) !! "risk_name"
  /\ mr_data ratedMapped !! "deadline" = None.
Proof.
  assert (E : validateRow noNative noDate true "project" ratedMapping ratedParsed
              = Normal ratedMapped) by (vm_compute; reflexivity).
  destruct (validation_passes_values_through _ _ _ _ _ _ _ E) as (Hk & _ & Hd).
  split; [apply Hk; discriminate | exact Hd].
Defined.


